(** * Scalinox drawing canvas: history, erasers, drag protocol and crop export

    A shallow embedding of [client/src/components/DrawingCanvas.tsx].

    - JavaScript numbers are IEEE 754 binary64 values: they are modelled by
      Rocq's primitive floats, so [Math.sqrt], [+], [-], [*], [/] and [<] are
      the kernel's binary64 operations.  [Math.pow(v, 2)] and [v ** 2] are
      read as [v * v].
    - Optional fields of the TypeScript interfaces are [option]s.
    - The React state of the component is one record; an event handler is a
      function from the state of the render it closes over to the state after
      its [setX] calls.
    - [generateId] draws from [Math.random]: the state carries the sequence of
      values the successive calls return and the number of calls made. *)

From Stdlib Require Import String Bool Arith ZArith Lia List.
From Stdlib Require Import Uint63.
From Stdlib Require Floats.SpecFloat Floats.FloatOps Floats.FloatAxioms.
From Stdlib Require Import Floats.PrimFloat.
Import ListNotations.

Local Open Scope string_scope.
Local Open Scope list_scope.
Local Open Scope nat_scope.

(** ** Data model *)

Record Point := mkPoint { x : float; y : float }.

Record TextFormat := mkTextFormat {
  font : string;
  fontSize : float;
  bold : bool;
  italic : bool;
  underline : bool;
  strikethrough : bool
}.

(** [type Tool = 'select' | 'selection-area' | 'brush' | 'eraser' |
    'stroke-eraser' | 'rectangle' | 'circle' | 'line' | 'arrow' | 'text'] *)
Inductive Tool :=
| Tselect | TselectionArea | Tbrush | Teraser | TstrokeEraser
| Trectangle | Tcircle | Tline | Tarrow | Ttext.

(** [type: Tool | 'image'] *)
Inductive ElementType :=
| OfTool (t : Tool)
| Image.

Definition Tool_eqb (a b : Tool) : bool :=
  match a, b with
  | Tselect, Tselect | TselectionArea, TselectionArea | Tbrush, Tbrush
  | Teraser, Teraser | TstrokeEraser, TstrokeEraser | Trectangle, Trectangle
  | Tcircle, Tcircle | Tline, Tline | Tarrow, Tarrow | Ttext, Ttext => true
  | _, _ => false
  end.

Definition ElementType_eqb (a b : ElementType) : bool :=
  match a, b with
  | OfTool t, OfTool u => Tool_eqb t u
  | Image, Image => true
  | _, _ => false
  end.

Record DrawingElement := mkElement {
  type : ElementType;
  points : option (list Point);
  startPoint : option Point;
  endPoint : option Point;
  color : string;
  brushSize : float;
  opacity : float;
  text : option string;
  textFormat : option TextFormat;
  imageData : option string;
  width : option float;
  height : option float;
  id : option string;
  isTemporary : option bool;
  isGeneratedAi : option bool
}.

Module DrawingSettings.
Record t := mk { color : string; brushSize : float; opacity : float }.
End DrawingSettings.

Record DrawingCanvasProps := mkProps {
  currentTool : Tool;
  settings : DrawingSettings.t;
  zoom : float
}.

(** The [useState] cells of the component, in the order of the source.  The
    state variable [textFormat] is [panelTextFormat] here (the element field
    has the name).  [randomIds] and [idCalls] model [Math.random] behind
    [generateId]. *)
Record State := mkState {
  isDrawing : bool;
  elements : list DrawingElement;
  currentElement : option DrawingElement;
  history : list (list DrawingElement);
  historyStep : nat;
  scale : float;
  offset : Point;
  isPanning : bool;
  panStart : Point;
  isSelectionMode : bool;
  selectionRect : option (Point * Point);
  isSelecting : bool;
  selectedElementId : option string;
  isDragging : bool;
  dragStart : option Point;
  hasDragStarted : bool;
  showTextPanel : bool;
  textInput : string;
  textPosition : option Point;
  panelTextFormat : TextFormat;
  randomIds : nat -> string;
  idCalls : nat
}.

Definition defaultTextFormat : TextFormat :=
  mkTextFormat "Inter" 24 false false false false.

Definition initialState (rnd : nat -> string) : State :=
  mkState false [] None [] 0 1 (mkPoint 0 0) false (mkPoint 0 0) false None
          false None false None false false "" None defaultTextFormat rnd 0.

(** *** The [setX] functions *)

Definition setIsDrawing (v : bool) (s : State) : State :=
  mkState v (elements s) (currentElement s) (history s) (historyStep s)
    (scale s) (offset s) (isPanning s) (panStart s) (isSelectionMode s)
    (selectionRect s) (isSelecting s) (selectedElementId s) (isDragging s)
    (dragStart s) (hasDragStarted s) (showTextPanel s) (textInput s)
    (textPosition s) (panelTextFormat s) (randomIds s) (idCalls s).

Definition setElements (v : list DrawingElement) (s : State) : State :=
  mkState (isDrawing s) v (currentElement s) (history s) (historyStep s)
    (scale s) (offset s) (isPanning s) (panStart s) (isSelectionMode s)
    (selectionRect s) (isSelecting s) (selectedElementId s) (isDragging s)
    (dragStart s) (hasDragStarted s) (showTextPanel s) (textInput s)
    (textPosition s) (panelTextFormat s) (randomIds s) (idCalls s).

Definition setCurrentElement (v : option DrawingElement) (s : State) : State :=
  mkState (isDrawing s) (elements s) v (history s) (historyStep s)
    (scale s) (offset s) (isPanning s) (panStart s) (isSelectionMode s)
    (selectionRect s) (isSelecting s) (selectedElementId s) (isDragging s)
    (dragStart s) (hasDragStarted s) (showTextPanel s) (textInput s)
    (textPosition s) (panelTextFormat s) (randomIds s) (idCalls s).

Definition setHistory (v : list (list DrawingElement)) (s : State) : State :=
  mkState (isDrawing s) (elements s) (currentElement s) v (historyStep s)
    (scale s) (offset s) (isPanning s) (panStart s) (isSelectionMode s)
    (selectionRect s) (isSelecting s) (selectedElementId s) (isDragging s)
    (dragStart s) (hasDragStarted s) (showTextPanel s) (textInput s)
    (textPosition s) (panelTextFormat s) (randomIds s) (idCalls s).

Definition setHistoryStep (v : nat) (s : State) : State :=
  mkState (isDrawing s) (elements s) (currentElement s) (history s) v
    (scale s) (offset s) (isPanning s) (panStart s) (isSelectionMode s)
    (selectionRect s) (isSelecting s) (selectedElementId s) (isDragging s)
    (dragStart s) (hasDragStarted s) (showTextPanel s) (textInput s)
    (textPosition s) (panelTextFormat s) (randomIds s) (idCalls s).

Definition setOffset (v : Point) (s : State) : State :=
  mkState (isDrawing s) (elements s) (currentElement s) (history s)
    (historyStep s) (scale s) v (isPanning s) (panStart s) (isSelectionMode s)
    (selectionRect s) (isSelecting s) (selectedElementId s) (isDragging s)
    (dragStart s) (hasDragStarted s) (showTextPanel s) (textInput s)
    (textPosition s) (panelTextFormat s) (randomIds s) (idCalls s).

Definition setIsPanning (v : bool) (s : State) : State :=
  mkState (isDrawing s) (elements s) (currentElement s) (history s)
    (historyStep s) (scale s) (offset s) v (panStart s) (isSelectionMode s)
    (selectionRect s) (isSelecting s) (selectedElementId s) (isDragging s)
    (dragStart s) (hasDragStarted s) (showTextPanel s) (textInput s)
    (textPosition s) (panelTextFormat s) (randomIds s) (idCalls s).

Definition setPanStart (v : Point) (s : State) : State :=
  mkState (isDrawing s) (elements s) (currentElement s) (history s)
    (historyStep s) (scale s) (offset s) (isPanning s) v (isSelectionMode s)
    (selectionRect s) (isSelecting s) (selectedElementId s) (isDragging s)
    (dragStart s) (hasDragStarted s) (showTextPanel s) (textInput s)
    (textPosition s) (panelTextFormat s) (randomIds s) (idCalls s).

Definition setIsSelectionMode (v : bool) (s : State) : State :=
  mkState (isDrawing s) (elements s) (currentElement s) (history s)
    (historyStep s) (scale s) (offset s) (isPanning s) (panStart s) v
    (selectionRect s) (isSelecting s) (selectedElementId s) (isDragging s)
    (dragStart s) (hasDragStarted s) (showTextPanel s) (textInput s)
    (textPosition s) (panelTextFormat s) (randomIds s) (idCalls s).

Definition setSelectionRect (v : option (Point * Point)) (s : State) : State :=
  mkState (isDrawing s) (elements s) (currentElement s) (history s)
    (historyStep s) (scale s) (offset s) (isPanning s) (panStart s)
    (isSelectionMode s) v (isSelecting s) (selectedElementId s) (isDragging s)
    (dragStart s) (hasDragStarted s) (showTextPanel s) (textInput s)
    (textPosition s) (panelTextFormat s) (randomIds s) (idCalls s).

Definition setIsSelecting (v : bool) (s : State) : State :=
  mkState (isDrawing s) (elements s) (currentElement s) (history s)
    (historyStep s) (scale s) (offset s) (isPanning s) (panStart s)
    (isSelectionMode s) (selectionRect s) v (selectedElementId s)
    (isDragging s) (dragStart s) (hasDragStarted s) (showTextPanel s)
    (textInput s) (textPosition s) (panelTextFormat s) (randomIds s)
    (idCalls s).

Definition setSelectedElementId (v : option string) (s : State) : State :=
  mkState (isDrawing s) (elements s) (currentElement s) (history s)
    (historyStep s) (scale s) (offset s) (isPanning s) (panStart s)
    (isSelectionMode s) (selectionRect s) (isSelecting s) v (isDragging s)
    (dragStart s) (hasDragStarted s) (showTextPanel s) (textInput s)
    (textPosition s) (panelTextFormat s) (randomIds s) (idCalls s).

Definition setIsDragging (v : bool) (s : State) : State :=
  mkState (isDrawing s) (elements s) (currentElement s) (history s)
    (historyStep s) (scale s) (offset s) (isPanning s) (panStart s)
    (isSelectionMode s) (selectionRect s) (isSelecting s)
    (selectedElementId s) v (dragStart s) (hasDragStarted s)
    (showTextPanel s) (textInput s) (textPosition s) (panelTextFormat s)
    (randomIds s) (idCalls s).

Definition setDragStart (v : option Point) (s : State) : State :=
  mkState (isDrawing s) (elements s) (currentElement s) (history s)
    (historyStep s) (scale s) (offset s) (isPanning s) (panStart s)
    (isSelectionMode s) (selectionRect s) (isSelecting s)
    (selectedElementId s) (isDragging s) v (hasDragStarted s)
    (showTextPanel s) (textInput s) (textPosition s) (panelTextFormat s)
    (randomIds s) (idCalls s).

Definition setHasDragStarted (v : bool) (s : State) : State :=
  mkState (isDrawing s) (elements s) (currentElement s) (history s)
    (historyStep s) (scale s) (offset s) (isPanning s) (panStart s)
    (isSelectionMode s) (selectionRect s) (isSelecting s)
    (selectedElementId s) (isDragging s) (dragStart s) v
    (showTextPanel s) (textInput s) (textPosition s) (panelTextFormat s)
    (randomIds s) (idCalls s).

Definition setShowTextPanel (v : bool) (s : State) : State :=
  mkState (isDrawing s) (elements s) (currentElement s) (history s)
    (historyStep s) (scale s) (offset s) (isPanning s) (panStart s)
    (isSelectionMode s) (selectionRect s) (isSelecting s)
    (selectedElementId s) (isDragging s) (dragStart s) (hasDragStarted s)
    v (textInput s) (textPosition s) (panelTextFormat s)
    (randomIds s) (idCalls s).

Definition setTextInput (v : string) (s : State) : State :=
  mkState (isDrawing s) (elements s) (currentElement s) (history s)
    (historyStep s) (scale s) (offset s) (isPanning s) (panStart s)
    (isSelectionMode s) (selectionRect s) (isSelecting s)
    (selectedElementId s) (isDragging s) (dragStart s) (hasDragStarted s)
    (showTextPanel s) v (textPosition s) (panelTextFormat s)
    (randomIds s) (idCalls s).

Definition setTextPosition (v : option Point) (s : State) : State :=
  mkState (isDrawing s) (elements s) (currentElement s) (history s)
    (historyStep s) (scale s) (offset s) (isPanning s) (panStart s)
    (isSelectionMode s) (selectionRect s) (isSelecting s)
    (selectedElementId s) (isDragging s) (dragStart s) (hasDragStarted s)
    (showTextPanel s) (textInput s) v (panelTextFormat s)
    (randomIds s) (idCalls s).

Definition setTextFormat (v : TextFormat) (s : State) : State :=
  mkState (isDrawing s) (elements s) (currentElement s) (history s)
    (historyStep s) (scale s) (offset s) (isPanning s) (panStart s)
    (isSelectionMode s) (selectionRect s) (isSelecting s)
    (selectedElementId s) (isDragging s) (dragStart s) (hasDragStarted s)
    (showTextPanel s) (textInput s) (textPosition s) v
    (randomIds s) (idCalls s).

Definition setIdCalls (v : nat) (s : State) : State :=
  mkState (isDrawing s) (elements s) (currentElement s) (history s)
    (historyStep s) (scale s) (offset s) (isPanning s) (panStart s)
    (isSelectionMode s) (selectionRect s) (isSelecting s)
    (selectedElementId s) (isDragging s) (dragStart s) (hasDragStarted s)
    (showTextPanel s) (textInput s) (textPosition s) (panelTextFormat s)
    (randomIds s) v.

(** ** Element store and history manager *)

(** [saveToHistory]:
    [newHistory = history.slice(0, historyStep + 1); newHistory.push([...newElements]);
     setHistory(newHistory); setHistoryStep(newHistory.length - 1)] *)
Definition saveToHistory (newElements : list DrawingElement) (s : State) : State :=
  let newHistory := firstn (historyStep s + 1) (history s) ++ [newElements] in
  setHistoryStep (length newHistory - 1) (setHistory newHistory s).

(** Every finalising handler runs [setElements(newElements); saveToHistory(newElements)]. *)
Definition commit (newElements : list DrawingElement) (s : State) : State :=
  saveToHistory newElements (setElements newElements s).

(** [handleUndo]: [history[historyStep - 1] || []] is the empty list when the
    index holds no snapshot. *)
Definition handleUndo (s : State) : State :=
  if 0 <? historyStep s then
    setElements
      (match nth_error (history s) (historyStep s - 1) with
       | Some snapshot => snapshot
       | None => []
       end)
      (setHistoryStep (historyStep s - 1) s)
  else s.

(** [handleRedo]: the guard [historyStep < history.length - 1] puts
    [historyStep + 1] inside the array ([handleRedo_in_range]); over [nat] the
    subtraction is truncated, and with no snapshot the guard is false as in
    the source, where it reads [historyStep < -1]. *)
Definition handleRedo (s : State) : State :=
  if historyStep s <? length (history s) - 1 then
    setElements (nth (historyStep s + 1) (history s) [])
      (setHistoryStep (historyStep s + 1) s)
  else s.

(** [handleClear]:
    [setElements([]); setHistory([[...elements]]); setHistoryStep(history.length)],
    all three reading the state of the current render. *)
Definition handleClear (s : State) : State :=
  setHistoryStep (length (history s))
    (setHistory [elements s]
       (setElements [] s)).

(** The cursor is on a snapshot and the live list is that snapshot. *)
Definition Live (s : State) : Prop :=
  historyStep s < length (history s)
  /\ elements s = nth (historyStep s) (history s) [].

Inductive HistoryOp :=
| OpCommit (newElements : list DrawingElement)
| OpUndo
| OpRedo
| OpClear.

Definition applyOp (op : HistoryOp) (s : State) : State :=
  match op with
  | OpCommit l => commit l s
  | OpUndo => handleUndo s
  | OpRedo => handleRedo s
  | OpClear => handleClear s
  end.

(** Operations are applied left to right. *)
Definition runOps (ops : list HistoryOp) (s : State) : State :=
  fold_left (fun st op => applyOp op st) ops s.

Definition isClear (op : HistoryOp) : bool :=
  match op with OpClear => true | _ => false end.

Definition clearFree (ops : list HistoryOp) : bool :=
  forallb (fun op => negb (isClear op)) ops.

(** The cursor indexes a stored snapshot: [0 <= historyStep < history.length]. *)
Definition cursorValid (s : State) : Prop :=
  0 <= historyStep s < length (history s).

(** ** Numbers and geometry *)

Open Scope float_scope.

(** A JavaScript number is falsy when it is [0], [-0] or [NaN]. *)
Definition truthy (v : float) : bool := negb (v =? 0) && negb (is_nan v).

(** [v || d] on an optional number. *)
Definition orNumber (v : option float) (d : float) : float :=
  match v with
  | Some w => if truthy w then w else d
  | None => d
  end.

(** [Math.min] and [Math.max] of two numbers: [NaN] if either is, and [-0]
    below [+0]. *)
Definition Math_min (a b : float) : float :=
  if is_nan a || is_nan b then nan
  else if a <? b then a
  else if b <? a then b
  else if get_sign a then a else b.

Definition Math_max (a b : float) : float :=
  if is_nan a || is_nan b then nan
  else if a <? b then b
  else if b <? a then a
  else if get_sign a then b else a.

(** [Math.sqrt(Math.pow(p.x - q.x, 2) + Math.pow(p.y - q.y, 2))] *)
Definition distance (p q : Point) : float :=
  sqrt ((x p - x q) * (x p - x q) + (y p - y q) * (y p - y q)).

(** The test of both erasers: [distance < eraserSize / 2]. *)
Definition withinEraser (eraserSize : float) (p eraserPoint : Point) : bool :=
  distance p eraserPoint <? eraserSize / 2.

(** ** Hit testing *)

Definition isImage (element : DrawingElement) : bool :=
  ElementType_eqb (type element) Image.

Definition hasType (t : Tool) (element : DrawingElement) : bool :=
  ElementType_eqb (type element) (OfTool t).

(** The image test of [findElementAtPoint]. *)
Definition hitsImage (point : Point) (element : DrawingElement) : bool :=
  match startPoint element, width element, height element with
  | Some sp, Some w, Some h =>
      isImage element && truthy w && truthy h &&
      (x sp <=? x point) && (x point <=? x sp + w) &&
      (y sp <=? y point) && (y point <=? y sp + h)
  | _, _, _ => false
  end.

(** The text test: the baseline is at [startPoint.y]; [0x1.3333333333333p-2]
    is the binary64 value of the literal [0.3]. *)
Definition hitsText (point : Point) (element : DrawingElement) : bool :=
  match startPoint element with
  | Some sp =>
      let textWidth := orNumber (width element) 100 in
      let fontSize := orNumber (option_map fontSize (textFormat element)) 24 in
      hasType Ttext element &&
      (x sp - 5 <=? x point) && (x point <=? x sp + textWidth + 5) &&
      (y sp - fontSize <=? y point) && (y point <=? y sp + fontSize * 0x1.3333333333333p-2)
  | None => false
  end.

(** The shape test: the bounding box of start and end, with a margin of 10. *)
Definition hitsShape (point : Point) (element : DrawingElement) : bool :=
  match startPoint element, endPoint element with
  | Some sp, Some ep =>
      let margin := 10 in
      let minX := Math_min (x sp) (x ep) - margin in
      let maxX := Math_max (x sp) (x ep) + margin in
      let minY := Math_min (y sp) (y ep) - margin in
      let maxY := Math_max (y sp) (y ep) + margin in
      negb (hasType Ttext element) && negb (isImage element) &&
      (minX <=? x point) && (x point <=? maxX) &&
      (minY <=? y point) && (y point <=? maxY)
  | _, _ => false
  end.

(** The brush test: some path point closer than [(brushSize || 5) + 5]. *)
Fixpoint hitsPath (point : Point) (brush : float) (pts : list Point) : bool :=
  match pts with
  | [] => false
  | p :: rest =>
      if sqrt ((x p - x point) * (x p - x point) + (y p - y point) * (y p - y point))
           <? (if truthy brush then brush else 5) + 5
      then true
      else hitsPath point brush rest
  end.

Definition hitsElement (point : Point) (element : DrawingElement) : bool :=
  hitsImage point element
  || hitsText point element
  || hitsShape point element
  || match points element with
     | Some pts => hitsPath point (brushSize element) pts
     | None => false
     end.

(** [findElementAtPoint]: the scan runs from the last element to the first. *)
Definition findElementAtPoint (els : list DrawingElement) (point : Point)
  : option DrawingElement :=
  find (hitsElement point) (rev els).

(** ** The page around the component *)

(** [canvasRef.current]: its bounding rectangle and whether [getContext('2d')]
    yields a context. *)
Record Canvas := mkCanvas {
  rectLeft : float;
  rectTop : float;
  hasContext2d : bool
}.

(** What the handlers read from the document: the mounted canvas, whether the
    temporary canvas of a given size yields a 2D context, and the JPEG data URL
    of a crop [(x, y, width, height)]. *)
Record Dom := mkDom {
  canvasRef : option Canvas;
  tempContext : float -> float -> bool;
  toDataURL : float -> float -> float -> float -> string
}.

Record MouseEvent := mkMouseEvent {
  button : nat;
  altKey : bool;
  clientX : float;
  clientY : float
}.

(** [getMousePos] *)
Definition getMousePos (dom : Dom) (s : State) (e : MouseEvent) : Point :=
  match canvasRef dom with
  | None => mkPoint 0 0
  | Some canvas =>
      mkPoint ((clientX e - rectLeft canvas - x (offset s)) / scale s)
              ((clientY e - rectTop canvas - y (offset s)) / scale s)
  end.

(** ** Crop export *)

(** [handleGetSelection]: the result is the list of arguments [callback] was
    called with, in order ([None] is [null]). *)
Definition handleGetSelection (dom : Dom) (s : State) : list (option string) :=
  match selectionRect s, canvasRef dom with
  | Some (rstart, rend), Some canvas =>
      if negb (hasContext2d canvas) then [None]
      else
        let cx := Math_min (x rstart) (x rend) * scale s + x (offset s) in
        let cy := Math_min (y rstart) (y rend) * scale s + y (offset s) in
        let w := abs (x rend - x rstart) * scale s in
        let h := abs (y rend - y rstart) * scale s in
        if tempContext dom w h then [Some (toDataURL dom cx cy w h)]
        else [None]
  | _, _ => [None]
  end.

Close Scope float_scope.

(** ** Eraser engine *)

(** The innermost loop of both erasers:
    [for (const eraserPoint of eraserPoints) { if (distance < eraserSize / 2) { flag = true; break; } }] *)
Fixpoint nearEraserPath (eraserSize : float) (eraserPoints : list Point)
                        (point : Point) : bool :=
  match eraserPoints with
  | [] => false
  | eraserPoint :: rest =>
      if withinEraser eraserSize point eraserPoint then true
      else nearEraserPath eraserSize rest point
  end.

(** The loop over [element.points] with its [if (flag) break]. *)
Fixpoint anyPointNear (eraserSize : float) (eraserPoints : list Point)
                      (pts : list Point) : bool :=
  match pts with
  | [] => false
  | point :: rest =>
      if nearEraserPath eraserSize eraserPoints point then true
      else anyPointNear eraserSize eraserPoints rest
  end.

(** The loop of the [else if (element.startPoint)] branch: per eraser point,
    first the start point, then the end point if there is one. *)
Fixpoint shapeNear (eraserSize : float) (eraserPoints : list Point)
                   (sp : Point) (ep : option Point) : bool :=
  match eraserPoints with
  | [] => false
  | eraserPoint :: rest =>
      if withinEraser eraserSize sp eraserPoint then true
      else
        match ep with
        | Some ep' =>
            if withinEraser eraserSize ep' eraserPoint then true
            else shapeNear eraserSize rest sp ep
        | None => shapeNear eraserSize rest sp ep
        end
  end.

(** The flag both erasers compute for an element they do not split
    ([shouldDelete] of the pixel eraser, [intersects] of the stroke eraser):
    the path points if the element has [points], else its start and end. *)
Definition intersects (eraserSize : float) (eraserPoints : list Point)
                      (element : DrawingElement) : bool :=
  match points element with
  | Some pts => anyPointNear eraserSize eraserPoints pts
  | None =>
      match startPoint element with
      | Some sp => shapeNear eraserSize eraserPoints sp (endPoint element)
      | None => false
      end
  end.

Definition isEraserElement (element : DrawingElement) : bool :=
  hasType Teraser element || hasType TstrokeEraser element.

(** The splitting loop of the pixel eraser over [element.points], with its two
    variables [segments] and [currentSegment]. *)
Fixpoint splitLoop (eraserSize : float) (eraserPoints : list Point)
                   (pts : list Point)
                   (segments : list (list Point)) (currentSegment : list Point)
  : list (list Point) * list Point :=
  match pts with
  | [] => (segments, currentSegment)
  | point :: rest =>
      if nearEraserPath eraserSize eraserPoints point then
        splitLoop eraserSize eraserPoints rest
          (if 1 <? length currentSegment then segments ++ [currentSegment]
           else segments)
          []
      else
        splitLoop eraserSize eraserPoints rest segments (currentSegment ++ [point])
  end.

(** [segments] after the loop and the "save last segment" step. *)
Definition splitSegments (eraserSize : float) (eraserPoints : list Point)
                         (pts : list Point) : list (list Point) :=
  let '(segments, currentSegment) := splitLoop eraserSize eraserPoints pts [] [] in
  if 1 <? length currentSegment then segments ++ [currentSegment] else segments.

(** [{ ...element, points: segment, id: newId }] *)
Definition withPointsId (element : DrawingElement) (segment : list Point)
                        (newId : option string) : DrawingElement :=
  mkElement (type element) (Some segment) (startPoint element) (endPoint element)
    (color element) (brushSize element) (opacity element) (text element)
    (textFormat element) (imageData element) (width element) (height element)
    newId (isTemporary element) (isGeneratedAi element).

(** The elements pushed for the segments after the first: each takes the next
    value of [generateId()]; [n] counts the calls made so far. *)
Fixpoint laterSegments (element : DrawingElement) (rnd : nat -> string) (n : nat)
                       (segs : list (list Point)) : list DrawingElement * nat :=
  match segs with
  | [] => ([], n)
  | segment :: rest =>
      let '(out, n') := laterSegments element rnd (S n) rest in
      (withPointsId element segment (Some (rnd n)) :: out, n')
  end.

(** [for (const segment of segments) newElements.push({...element, points: segment,
     id: segment === segments[0] ? element.id : generateId()})]:
    the segments are distinct arrays, so only the first is [segments[0]]. *)
Definition segmentElements (element : DrawingElement) (rnd : nat -> string) (n : nat)
                           (segs : list (list Point)) : list DrawingElement * nat :=
  match segs with
  | [] => ([], n)
  | segment :: rest =>
      let '(out, n') := laterSegments element rnd n rest in
      (withPointsId element segment (id element) :: out, n')
  end.

(** [element.type === 'brush' && element.points && element.points.length > 1] *)
Definition splittable (element : DrawingElement) : option (list Point) :=
  match points element with
  | Some pts => if hasType Tbrush element && (1 <? length pts) then Some pts else None
  | None => None
  end.

(** What one iteration of the pixel eraser's loop pushes onto [newElements]
    for an element that is not an eraser, and the calls of [generateId] after it. *)
Definition pixelEraseElement (eraserSize : float) (eraserPoints : list Point)
                             (rnd : nat -> string) (n : nat)
                             (element : DrawingElement)
  : list DrawingElement * nat :=
  match splittable element with
  | Some pts =>
      segmentElements element rnd n (splitSegments eraserSize eraserPoints pts)
  | None =>
      if intersects eraserSize eraserPoints element then ([], n)
      else ([element], n)
  end.

(** [for (const element of elements) { ... }] of the pixel eraser. *)
Fixpoint pixelEraseLoop (eraserSize : float) (eraserPoints : list Point)
                        (rnd : nat -> string) (n : nat)
                        (els : list DrawingElement)
                        (newElements : list DrawingElement)
  : list DrawingElement * nat :=
  match els with
  | [] => (newElements, n)
  | element :: rest =>
      if isEraserElement element then
        pixelEraseLoop eraserSize eraserPoints rnd n rest newElements
      else
        let '(out, n') := pixelEraseElement eraserSize eraserPoints rnd n element in
        pixelEraseLoop eraserSize eraserPoints rnd n' rest (newElements ++ out)
  end.

Definition pixelErase (eraserSize : float) (eraserPoints : list Point)
                      (rnd : nat -> string) (n : nat)
                      (els : list DrawingElement) : list DrawingElement * nat :=
  pixelEraseLoop eraserSize eraserPoints rnd n els [].

(** [elements.filter(element => ...)] of the stroke eraser. *)
Definition strokeErase (eraserSize : float) (eraserPoints : list Point)
                       (els : list DrawingElement) : list DrawingElement :=
  filter (fun element =>
            if isEraserElement element then false
            else negb (intersects eraserSize eraserPoints element))
         els.

(** ** Pointer gestures *)

(** A JavaScript string is falsy when empty; [null] is falsy. *)
Definition truthyString (v : option string) : option string :=
  match v with
  | Some EmptyString => None
  | other => other
  end.

(** [el.id === selectedElementId] for a string [selectedElementId]. *)
Definition idIs (selected : string) (el : DrawingElement) : bool :=
  match id el with
  | Some i => String.eqb i selected
  | None => false
  end.

(** The component's [generateId]: the next random value. *)
Definition generateId (s : State) : string := randomIds s (idCalls s).

(** The provisional element of a freehand gesture. *)
Definition newPathElement (t : Tool) (point : Point) (c : string)
                          (size alpha : float) (newId : string) : DrawingElement :=
  mkElement (OfTool t) (Some [point]) None None c size alpha
            None None None None None (Some newId) None None.

(** The provisional element of a shape gesture. *)
Definition newShapeElement (t : Tool) (point : Point) (c : string)
                           (size alpha : float) (newId : string) : DrawingElement :=
  mkElement (OfTool t) None (Some point) (Some point) c size alpha
            None None None None None (Some newId) None None.

Open Scope float_scope.

(** [handleMouseDown] *)
Definition handleMouseDown (props : DrawingCanvasProps) (dom : Dom)
                           (e : MouseEvent) (s : State) : State :=
  if Nat.eqb (button e) 1 || (Nat.eqb (button e) 0 && altKey e) then
    setPanStart (mkPoint (clientX e - x (offset s)) (clientY e - y (offset s)))
      (setIsPanning true s)
  else if isSelectionMode s || Tool_eqb (currentTool props) TselectionArea then
    let pos := getMousePos dom s e in
    setSelectionRect (Some (pos, pos))
      (setIsSelectionMode true (setIsSelecting true s))
  else
    let point := getMousePos dom s e in
    let cfg := settings props in
    match currentTool props with
    | Ttext =>
        setTextInput EmptyString
          (setShowTextPanel true (setTextPosition (Some point) s))
    | TstrokeEraser =>
        setIdCalls (S (idCalls s))
          (setCurrentElement
             (Some (newPathElement TstrokeEraser point
                      (DrawingSettings.color cfg)
                      (DrawingSettings.brushSize cfg * 2) 1 (generateId s)))
             (setIsDrawing true s))
    | Tselect =>
        match findElementAtPoint (elements s) point with
        | Some clickedElement =>
            let s1 :=
              setHasDragStarted false
                (setIsDragging true
                   (setDragStart (Some point)
                      (setSelectedElementId (truthyString (id clickedElement)) s))) in
            match text clickedElement with
            | Some txt =>
                if hasType Ttext clickedElement
                   && negb (String.eqb txt EmptyString) then
                  setShowTextPanel true
                    (setTextPosition
                       (Some (match startPoint clickedElement with
                              | Some sp => sp
                              | None => point
                              end))
                       (setTextFormat
                          (match textFormat clickedElement with
                           | Some fmt => fmt
                           | None => defaultTextFormat
                           end)
                          (setTextInput txt s1)))
                else s1
            | None => s1
            end
        | None => setShowTextPanel false (setSelectedElementId None s)
        end
    | Tbrush | Teraser =>
        setIdCalls (S (idCalls s))
          (setCurrentElement
             (Some (newPathElement (currentTool props) point
                      (DrawingSettings.color cfg) (DrawingSettings.brushSize cfg)
                      (DrawingSettings.opacity cfg) (generateId s)))
             (setIsDrawing true s))
    | other =>
        setIdCalls (S (idCalls s))
          (setCurrentElement
             (Some (newShapeElement other point
                      (DrawingSettings.color cfg) (DrawingSettings.brushSize cfg)
                      (DrawingSettings.opacity cfg) (generateId s)))
             (setIsDrawing true s))
    end.

(** The copy of a dragged element: start, end and path points moved by
    [(dx, dy)]. *)
Definition translated (dx dy : float) (el : DrawingElement) : DrawingElement :=
  let move := fun p : Point => mkPoint (x p + dx) (y p + dy) in
  mkElement (type el) (option_map (map move) (points el))
    (option_map move (startPoint el)) (option_map move (endPoint el))
    (color el) (brushSize el) (opacity el) (text el) (textFormat el)
    (imageData el) (width el) (height el) (id el) (isTemporary el)
    (isGeneratedAi el).

(** The drag threshold of [handleMouseMove]: [Math.sqrt(dx * dx + dy * dy) < 3]. *)
Definition underDragThreshold (currentPos start : Point) : bool :=
  let dx := x currentPos - x start in
  let dy := y currentPos - y start in
  sqrt (dx * dx + dy * dy) <? 3.

(** [handleMouseMove] *)
Definition handleMouseMove (props : DrawingCanvasProps) (dom : Dom)
                           (e : MouseEvent) (s : State) : State :=
  if isPanning s then
    setOffset (mkPoint (clientX e - x (panStart s)) (clientY e - y (panStart s))) s
  else
    match (if isSelecting s then selectionRect s else None) with
    | Some (rstart, _) =>
        setSelectionRect (Some (rstart, getMousePos dom s e)) s
    | None =>
        match (if isDragging s then truthyString (selectedElementId s) else None),
              dragStart s with
        | Some selected, Some start =>
            let currentPos := getMousePos dom s e in
            let dx := x currentPos - x start in
            let dy := y currentPos - y start in
            if negb (hasDragStarted s) && underDragThreshold currentPos start
            then s
            else
              let s1 :=
                if hasDragStarted s then s
                else
                  let s' := setHasDragStarted true s in
                  if showTextPanel s then setShowTextPanel false s' else s' in
              let newElements :=
                map (fun el => if idIs selected el then translated dx dy el else el)
                    (elements s) in
              setDragStart (Some currentPos) (setElements newElements s1)
        | _, _ =>
            match (if isDrawing s then currentElement s else None) with
            | None => s
            | Some cur =>
                let point := getMousePos dom s e in
                match currentTool props with
                | Tbrush | Teraser | TstrokeEraser =>
                    setCurrentElement
                      (Some (mkElement (type cur)
                               (Some (match points cur with
                                      | Some pts => pts
                                      | None => []
                                      end ++ [point]))
                               (startPoint cur) (endPoint cur) (color cur)
                               (brushSize cur) (opacity cur) (text cur)
                               (textFormat cur) (imageData cur) (width cur)
                               (height cur) (id cur) (isTemporary cur)
                               (isGeneratedAi cur)))
                      s
                | _ =>
                    setCurrentElement
                      (Some (mkElement (type cur) (points cur) (startPoint cur)
                               (Some point) (color cur) (brushSize cur)
                               (opacity cur) (text cur) (textFormat cur)
                               (imageData cur) (width cur) (height cur) (id cur)
                               (isTemporary cur) (isGeneratedAi cur)))
                      s
                end
            end
        end
    end.

Close Scope float_scope.

(** The end of a drawing gesture in [handleMouseUp], for the provisional
    element [cur]: the pixel eraser, the stroke eraser, or the commit of the
    drawn element. *)
Definition finishDrawing (cur : DrawingElement) (s : State) : State :=
  match (if hasType Teraser cur then points cur else None) with
  | Some eraserPoints =>
      let '(newElements, n) :=
        pixelErase (brushSize cur) eraserPoints (randomIds s) (idCalls s)
                   (elements s) in
      setIdCalls n (setCurrentElement None (commit newElements s))
  | None =>
      match (if hasType TstrokeEraser cur then points cur else None) with
      | Some eraserPoints =>
          let newElements := strokeErase (brushSize cur) eraserPoints (elements s) in
          setCurrentElement None (commit newElements s)
      | None =>
          let newElements := elements s ++ [cur] in
          setCurrentElement None (commit newElements s)
      end
  end.

(** [handleMouseUp] (also bound to [onMouseLeave]).  The
    ['canvas-selection-complete'] event it dispatches changes no state here. *)
Definition handleMouseUp (s : State) : State :=
  if isPanning s then setIsPanning false s
  else if isSelecting s then setIsSelectionMode false (setIsSelecting false s)
  else if isDragging s then
    let s1 := setHasDragStarted false (setDragStart None (setIsDragging false s)) in
    match truthyString (selectedElementId s) with
    | Some _ => if hasDragStarted s then saveToHistory (elements s) s1 else s1
    | None => s1
    end
  else
    match (if isDrawing s then currentElement s else None) with
    | Some cur => setIsDrawing false (finishDrawing cur s)
    | None => setIsDrawing false s
    end.

(** ** Runs of gestures and of history operations *)

(** The tools whose gesture records a path: [currentTool === 'brush' ||
    currentTool === 'eraser' || currentTool === 'stroke-eraser']. *)
Definition freehandTool (t : Tool) : bool :=
  match t with
  | Tbrush | Teraser | TstrokeEraser => true
  | _ => false
  end.

Definition commits (lists : list (list DrawingElement)) (s : State) : State :=
  runOps (map OpCommit lists) s.

Definition runMoves (props : DrawingCanvasProps) (dom : Dom)
                    (moves : list MouseEvent) (s : State) : State :=
  fold_left (fun st e => handleMouseMove props dom e st) moves s.

(** No gesture is in progress. *)
Definition idle (s : State) : Prop :=
  isPanning s = false /\ isSelecting s = false /\ isDragging s = false
  /\ isDrawing s = false.

(** A press that is neither a pan gesture nor a selection-rectangle gesture. *)
Definition plainPress (e : MouseEvent) (s : State) : Prop :=
  (Nat.eqb (button e) 1 || (Nat.eqb (button e) 0 && altKey e)) = false
  /\ isSelectionMode s = false.

(** ** The properties in the words of the specification *)

(** [p] lies within the eraser radius of some point of the eraser path. *)
Definition Within (eraserSize : float) (eraserPoints : list Point) (p : Point) : Prop :=
  exists q, In q eraserPoints /\ withinEraser eraserSize p q = true.

(** [p] lies farther than the eraser radius from every point of the eraser path. *)
Definition Far (eraserSize : float) (eraserPoints : list Point) (p : Point) : Prop :=
  forall q, In q eraserPoints -> withinEraser eraserSize p q = false.

(** [MaximalRuns size path pts runs]: [runs] are, in order, the maximal runs
    of consecutive points of [pts] that are all [Far]; the points between two
    runs, before the first and after the last are [Within].  A run is maximal
    because it ends at the end of [pts] or before a [Within] point, and begins
    at the start of [pts] or after one. *)
Inductive MaximalRuns (eraserSize : float) (eraserPoints : list Point)
  : list Point -> list (list Point) -> Prop :=
| MaximalRuns_nil :
    MaximalRuns eraserSize eraserPoints [] []
| MaximalRuns_erased p rest runs :
    Within eraserSize eraserPoints p ->
    MaximalRuns eraserSize eraserPoints rest runs ->
    MaximalRuns eraserSize eraserPoints (p :: rest) runs
| MaximalRuns_run run rest runs :
    run <> [] ->
    Forall (Far eraserSize eraserPoints) run ->
    match rest with
    | [] => True
    | p :: _ => Within eraserSize eraserPoints p
    end ->
    MaximalRuns eraserSize eraserPoints rest runs ->
    MaximalRuns eraserSize eraserPoints (run ++ rest) (run :: runs).

(** A run the pixel eraser keeps: more than one point. *)
Definition longRun (run : list Point) : bool := 1 <? length run.

(** The "save last segment" step on the pair the splitting loop ends with. *)
Definition finishSplit (r : list (list Point) * list Point) : list (list Point) :=
  if 1 <? length (snd r) then fst r ++ [snd r] else fst r.

Definition isCommit (op : HistoryOp) : bool :=
  match op with OpCommit _ => true | _ => false end.

(** The elements the specification describes for the surviving runs: the
    first keeps the identifier of the stroke, the later ones take the values
    of the calls number [n], [n + 1], ... of [generateId], in order. *)
Definition runElements (element : DrawingElement) (rnd : nat -> string) (n : nat)
                       (surviving : list (list Point)) : list DrawingElement :=
  match surviving with
  | [] => []
  | first :: later =>
      withPointsId element first (id element)
      :: map (fun kr => withPointsId element (snd kr) (Some (rnd (fst kr))))
             (combine (seq n (length later)) later)
  end.

(** The defining points of an element: its path points, or else its anchor
    and opposite points. *)
Definition definingPoints (element : DrawingElement) : list Point :=
  match points element with
  | Some pts => pts
  | None =>
      match startPoint element with
      | Some sp => sp :: match endPoint element with
                         | Some ep => [ep]
                         | None => []
                         end
      | None => []
      end
  end.

(** Some defining point of [element] lies strictly within [radius] of some
    point of [path]. *)
Definition pointWithin (radius : float) (path : list Point)
                       (element : DrawingElement) : bool :=
  existsb (fun p => existsb (fun q => (distance p q <? radius)%float) path)
          (definingPoints element).

(** Some defining point of [element] lies within the eraser radius of some
    eraser-path point. *)
Definition Touched (eraserSize : float) (eraserPoints : list Point)
                   (element : DrawingElement) : Prop :=
  exists p, In p (definingPoints element) /\ Within eraserSize eraserPoints p.

(** [clear()] as the specification words it: [commit([])]. *)
Definition clearAsCommit (s : State) : State := commit [] s.

(** The cursor invariant as stated: valid in every reachable state. *)
Definition cursorAlwaysValid : Prop :=
  forall rnd ops, cursorValid (runOps ops (initialState rnd)).

(** The round-trip law as stated: [N] undos after [N] commits empty the live
    list, and [N] redos restore the last committed list. *)
Definition undoAllEmptiesThenRedoRestores : Prop :=
  forall rnd (lists : list (list DrawingElement)),
    1 <= length lists ->
    let n := length lists in
    let undone := Nat.iter n handleUndo (commits lists (initialState rnd)) in
    elements undone = []
    /\ elements (Nat.iter n handleRedo undone) = last lists [].

(** The brush sizes the toolbar's slider offers: [min = 1], [max = 20],
    [step = 1]. *)
Definition sliderValues : list float :=
  Eval cbv in
    map (fun k => PrimFloat.of_uint63 (Uint63.of_Z (Z.of_nat k))) (seq 1 20).

Definition sliderBrushSize (b : float) : Prop := In b sliderValues.

(** ** Sample values *)

Definition sampleIds (n : nat) : string := String.concat "" (repeat "r" (S n)).

Definition strokeA : DrawingElement :=
  newPathElement Tbrush (mkPoint 0 0) "#000000" 3 1 "a".

Definition rectB : DrawingElement :=
  newShapeElement Trectangle (mkPoint 20 20) "#000000" 3 1 "b".

(** Ten points on a straight line, [(0,0), (10,0), ..., (90,0)]. *)
Definition tenPoints : list Point :=
  Eval cbv in
    map (fun k => mkPoint (PrimFloat.of_uint63 (Uint63.of_Z (Z.of_nat (10 * k)))) 0)
        (seq 0 10).

Definition tenPointStroke : DrawingElement :=
  mkElement (OfTool Tbrush) (Some tenPoints) None None "#000000" 3 1
            None None None None None (Some "s") None None.

(** An eraser path of one point at the middle of [tenPointStroke]. *)
Definition midEraserPath : list Point := [mkPoint 45 0].

(** A text element and an image, which have an anchor only. *)
Definition textC : DrawingElement :=
  mkElement (OfTool Ttext) None (Some (mkPoint 44 3)) None "#000000" 3 1
            (Some "note") (Some defaultTextFormat) None (Some 40%float)
            (Some 24%float) (Some "c") None None.

Definition imageD : DrawingElement :=
  mkElement Image None (Some (mkPoint 200 200)) None "#000000" 0 1
            None None (Some "data:image/png;base64,AAAA") (Some 100%float)
            (Some 50%float) (Some "d") None None.

(** A page with the canvas at the origin, every context available. *)
Definition sampleDom : Dom :=
  mkDom (Some (mkCanvas 0 0 true)) (fun _ _ => true)
        (fun _ _ _ _ => "data:image/jpeg;base64,AAAA").

Definition sampleSettings : DrawingSettings.t := DrawingSettings.mk "#000000" 3 1.

Definition selectProps : DrawingCanvasProps := mkProps Tselect sampleSettings 1.

Definition strokeEraserProps : DrawingCanvasProps :=
  mkProps TstrokeEraser sampleSettings 1.

(** The canvas after one rectangle was committed. *)
Definition oneRectState : State := commit [rectB] (initialState sampleIds).

(** The canvas after the ten-point stroke and a rectangle were committed. *)
Definition strokeAndRectState : State :=
  commit [tenPointStroke; rectB] (initialState sampleIds).

(** A left press on the rectangle, two moves that stay near it and one that
    leaves. *)
Definition pressOnRect : MouseEvent := mkMouseEvent 0 false 25 25.

Definition nearMoves : list MouseEvent :=
  [mkMouseEvent 0 false 26 25; mkMouseEvent 0 false 25 27].

Definition farMove : MouseEvent := mkMouseEvent 0 false 40 25.

(** A left press next to the middle of the ten-point stroke. *)
Definition pressOnStroke : MouseEvent := mkMouseEvent 0 false 45 2.

(** A stroke through [(45, 0)], which the press at [(45, 2)] passes at
    distance 2: within the brush size 3, not within half of it. *)
Definition passedStroke : DrawingElement :=
  mkElement (OfTool Tbrush) (Some [mkPoint 45 0; mkPoint 45 (-10)])
            None None "#000000" 3 1 None None None None None (Some "s") None None.

Definition passedStrokeState : State :=
  commit [passedStroke; rectB] (initialState sampleIds).

Definition eraserProps : DrawingCanvasProps := mkProps Teraser sampleSettings 1.

(** ** Further handlers of the component *)

Definition setScale (v : float) (s : State) : State :=
  mkState (isDrawing s) (elements s) (currentElement s) (history s)
    (historyStep s) v (offset s) (isPanning s) (panStart s) (isSelectionMode s)
    (selectionRect s) (isSelecting s) (selectedElementId s) (isDragging s)
    (dragStart s) (hasDragStarted s) (showTextPanel s) (textInput s)
    (textPosition s) (panelTextFormat s) (randomIds s) (idCalls s).

Open Scope float_scope.

(** [const delta = e.deltaY > 0 ? 0.9 : 1.1]; the literals are the binary64
    values of [0.9] and [1.1]. *)
Definition wheelDelta (deltaY : float) : float :=
  if 0 <? deltaY then 0x1.ccccccccccccdp-1 else 0x1.199999999999ap+0.

(** [handleWheel]: [setScale(prev => Math.min(Math.max(prev * delta, 0.1), 5))];
    [0x1.999999999999ap-4] is the binary64 value of [0.1]. *)
Definition handleWheel (deltaY : float) (s : State) : State :=
  setScale (Math_min (Math_max (scale s * wheelDelta deltaY) 0x1.999999999999ap-4) 5) s.

(** The image size of [handleImportImage] and [handleConvertToSketch]:
    [if (width > maxWidth || height > maxHeight) { ratio = Math.min(maxWidth / width,
     maxHeight / height); width = width * ratio; height = height * ratio }]. *)
Definition fitWithin (maxWidth maxHeight w h : float) : float * float :=
  if (maxWidth <? w) || (maxHeight <? h) then
    let ratio := Math_min (maxWidth / w) (maxHeight / h) in
    (w * ratio, h * ratio)
  else (w, h).

(** The element which [img.onload] of [handleImportImage] builds. *)
Definition importedImage (dataUrl : string) (w h : float) (newId : string)
  : DrawingElement :=
  let '(w', h') := fitWithin 400 400 w h in
  mkElement Image None (Some (mkPoint 50 50)) None "#000000" 0 1
            None None (Some dataUrl) (Some w') (Some h') (Some newId) None None.

Close Scope float_scope.

(** [img.onload] of [handleImportImage].  The closure holds [elements],
    [history] and [historyStep] of the render in which the import was
    requested ([captured]); the [setX] calls act on the state at load time. *)
Definition importImageLoaded (captured : State) (dataUrl : string)
                             (w h : float) (s : State) : State :=
  let imageElement := importedImage dataUrl w h (generateId s) in
  let newElements := elements captured ++ [imageElement] in
  let newHistory :=
    firstn (historyStep captured + 1) (history captured) ++ [newElements] in
  setIdCalls (S (idCalls s))
    (setHistoryStep (length newHistory - 1)
       (setHistory newHistory (setElements newElements s))).

(** [handleStartSelection] *)
Definition handleStartSelection (s : State) : State :=
  setSelectionRect None (setIsSelectionMode true s).

(** [handleDeleteSelected]: only a generated image can be deleted. *)
Definition handleDeleteSelected (s : State) : State :=
  match truthyString (selectedElementId s) with
  | None => s
  | Some selected =>
      match find (idIs selected) (elements s) with
      | None => s
      | Some el =>
          if isImage el && match isGeneratedAi el with
                           | Some flag => flag
                           | None => false
                           end
          then
            let newElements := filter (fun e => negb (idIs selected e)) (elements s) in
            setSelectedElementId None (commit newElements s)
          else s
      end
  end.

(** *** Downloads and the full export *)

(** ['png' | 'svg'], the formats [App] sends with ['canvas-export']. *)
Inductive ExportFormat := FormatPng | FormatSvg.

(** What the encoders of the page return for the mounted canvas:
    [canvas.width], [canvas.height], [canvas.toDataURL()],
    [canvas.toDataURL('image/jpeg', 0.9)], the PNG of a white temporary
    canvas with the crop [(x, y, width, height)] drawn on it, and the JPEG of
    a white temporary canvas with the whole canvas drawn on it. *)
Record Encoders := mkEncoders {
  canvasWidth : float;
  canvasHeight : float;
  canvasPng : string;
  canvasJpeg : string;
  cropPng : float -> float -> float -> float -> string;
  flatJpeg : string
}.

(** A click on a link with [download] and [href] set. *)
Record Download := mkDownload { download : string; href : string }.

(** [el.id === selectedElementId && el.type === 'image' && el.isGeneratedAi
    && el.imageData] of [handleExport]. *)
Definition isSelectedGeneratedImage (selected : option string)
                                    (el : DrawingElement) : bool :=
  match id el, selected with
  | Some i, Some j => String.eqb i j
  | _, _ => false
  end
  && isImage el
  && match isGeneratedAi el with Some flag => flag | None => false end
  && match imageData el with
     | Some data => negb (String.eqb data EmptyString)
     | None => false
     end.

Open Scope float_scope.

(** [handleExport]: the result is the list of downloads started. *)
Definition handleExport (dom : Dom) (enc : Encoders) (format : ExportFormat)
                        (s : State) : list Download :=
  match canvasRef dom with
  | None => []
  | Some canvas =>
      match format with
      | FormatSvg => []
      | FormatPng =>
          match find (isSelectedGeneratedImage (selectedElementId s)) (elements s) with
          | Some aiImage =>
              [mkDownload "generated-image.png"
                 (match imageData aiImage with
                  | Some data => data
                  | None => EmptyString
                  end)]
          | None =>
              match selectionRect s with
              | Some (rstart, rend) =>
                  if negb (hasContext2d canvas) then []
                  else
                    let cx := Math_min (x rstart) (x rend) * scale s + x (offset s) in
                    let cy := Math_min (y rstart) (y rend) * scale s + y (offset s) in
                    let w := abs (x rend - x rstart) * scale s in
                    let h := abs (y rend - y rstart) * scale s in
                    if tempContext dom w h
                    then [mkDownload "drawing.png" (cropPng enc cx cy w h)]
                    else [mkDownload "drawing.png" (canvasPng enc)]
              | None => [mkDownload "drawing.png" (canvasPng enc)]
              end
          end
      end
  end.

Close Scope float_scope.

(** [handleGetFull]: the result is the list of arguments [callback] was
    called with. *)
Definition handleGetFull (dom : Dom) (enc : Encoders) : list string :=
  match canvasRef dom with
  | None => [EmptyString]
  | Some _ =>
      if tempContext dom (canvasWidth enc) (canvasHeight enc)
      then [flatJpeg enc]
      else [canvasJpeg enc]
  end.

(** *** Events *)

(** The events of the canvas and of the toolbar; a pointer event comes with
    the props of the render it arrives in. *)
Inductive CanvasEvent :=
| EvMouseDown (props : DrawingCanvasProps) (e : MouseEvent)
| EvMouseMove (props : DrawingCanvasProps) (e : MouseEvent)
| EvMouseUp
| EvWheel (deltaY : float)
| EvUndo
| EvRedo
| EvClear
| EvStartSelection
| EvDeleteSelected.

Definition handleEvent (dom : Dom) (ev : CanvasEvent) (s : State) : State :=
  match ev with
  | EvMouseDown props e => handleMouseDown props dom e s
  | EvMouseMove props e => handleMouseMove props dom e s
  | EvMouseUp => handleMouseUp s
  | EvWheel deltaY => handleWheel deltaY s
  | EvUndo => handleUndo s
  | EvRedo => handleRedo s
  | EvClear => handleClear s
  | EvStartSelection => handleStartSelection s
  | EvDeleteSelected => handleDeleteSelected s
  end.

Definition runEvents (dom : Dom) (evs : list CanvasEvent) (s : State) : State :=
  fold_left (fun st ev => handleEvent dom ev st) evs s.

Definition isClearEvent (ev : CanvasEvent) : bool :=
  match ev with EvClear => true | _ => false end.

(** *** Invariants *)

Definition notEraser (el : DrawingElement) : Prop := isEraserElement el = false.

(** No eraser path is in the live list or in a snapshot, and a provisional
    eraser element has its path. *)
Definition NoEraserPersisted (s : State) : Prop :=
  Forall notEraser (elements s)
  /\ Forall (Forall notEraser) (history s)
  /\ (forall cur, currentElement s = Some cur ->
                  isEraserElement cur = true -> points cur <> None).

(** A provisional element exists only while a drawing gesture is in progress. *)
Definition ProvisionalWhileDrawing (s : State) : Prop :=
  currentElement s <> None -> isDrawing s = true.

(** The cursor is [0] with no snapshot stored, or it indexes a snapshot. *)
Definition HistoryUsable (s : State) : Prop :=
  (history s = [] /\ historyStep s = 0) \/ cursorValid s.

(** The shape tools. *)
Definition shapeTool (t : Tool) : bool :=
  match t with
  | Trectangle | Tcircle | Tline | Tarrow => true
  | _ => false
  end.

(** A press that starts a pan: the middle button, or the left button with Alt. *)
Definition panPress (e : MouseEvent) : bool :=
  Nat.eqb (button e) 1 || (Nat.eqb (button e) 0 && altKey e).

(** The point of the last event of a gesture, or of the press if there is no
    move. *)
Definition lastPoint (dom : Dom) (s : State) (e : MouseEvent)
                     (moves : list MouseEvent) : Point :=
  getMousePos dom s (last moves e).

(** [{ ...currentElement, endPoint: point }] *)
Definition withEndPoint (cur : DrawingElement) (point : Point) : DrawingElement :=
  mkElement (type cur) (points cur) (startPoint cur) (Some point) (color cur)
    (brushSize cur) (opacity cur) (text cur) (textFormat cur) (imageData cur)
    (width cur) (height cur) (id cur) (isTemporary cur) (isGeneratedAi cur).

(** The element a shape gesture commits: drawn from the press point to the
    last pointer position with the configured style. *)
Definition drawnShape (props : DrawingCanvasProps) (dom : Dom) (s : State)
                      (e : MouseEvent) (moves : list MouseEvent) : DrawingElement :=
  mkElement (OfTool (currentTool props)) None
    (Some (getMousePos dom s e)) (Some (lastPoint dom s e moves))
    (DrawingSettings.color (settings props))
    (DrawingSettings.brushSize (settings props))
    (DrawingSettings.opacity (settings props))
    None None None None None (Some (generateId s)) None None.

(** The element a brush gesture commits: the path through the press point and
    the pointer positions, with the configured style. *)
Definition drawnStroke (props : DrawingCanvasProps) (dom : Dom) (s : State)
                       (e : MouseEvent) (moves : list MouseEvent) : DrawingElement :=
  mkElement (OfTool Tbrush)
    (Some (getMousePos dom s e :: map (getMousePos dom s) moves)) None None
    (DrawingSettings.color (settings props))
    (DrawingSettings.brushSize (settings props))
    (DrawingSettings.opacity (settings props))
    None None None None None (Some (generateId s)) None None.

(** A drag of the elements with identifier [selected] is armed: a press hit
    such an element and no other gesture is in progress. *)
Definition DragArmed (selected : string) (s : State) : Prop :=
  isPanning s = false /\ isSelecting s = false /\ isDragging s = true
  /\ truthyString (selectedElementId s) = Some selected
  /\ exists start, dragStart s = Some start.

(** What a move of a running drag does to the live list: the elements with
    the selected identifier are moved by [(dx, dy)]. *)
Definition draggedBy (selected : string) (dx dy : float)
                     (els : list DrawingElement) : list DrawingElement :=
  map (fun el => if idIs selected el then translated dx dy el else el) els.

(** A generated image, and the canvas with it selected. *)
Definition generatedE : DrawingElement :=
  mkElement Image None (Some (mkPoint 80 80)) None "#000000" 0 1
            None None (Some "data:image/png;base64,BBBB") (Some 300%float)
            (Some 200%float) (Some "g") None (Some true).

Definition generatedSelectedState : State :=
  setSelectedElementId (Some "g") (commit [rectB; generatedE] (initialState sampleIds)).

(** *** Text editing *)

(** The characters of a [string] stand for the UTF-16 code units below 256;
    among them [String.prototype.trim] removes TAB, LF, VT, FF, CR, SPACE and
    NO-BREAK SPACE. *)
Definition isWhiteSpace (c : Ascii.ascii) : bool :=
  let n := Ascii.nat_of_ascii c in
  Nat.eqb n 9 || Nat.eqb n 10 || Nat.eqb n 11 || Nat.eqb n 12 || Nat.eqb n 13
  || Nat.eqb n 32 || Nat.eqb n 160.

(** [!textInput.trim()]: the trimmed string is empty. *)
Fixpoint isBlank (t : string) : bool :=
  match t with
  | EmptyString => true
  | String c rest => isWhiteSpace c && isBlank rest
  end.

(** The element [handleTextConfirm] builds; [textWidth] is
    [ctx.measureText(textInput).width] for the font of the panel's format. *)
Definition confirmedText (props : DrawingCanvasProps) (s : State)
                         (position : Point) (textWidth : float)
                         (newId : string) : DrawingElement :=
  mkElement (OfTool Ttext) None (Some position) None
    (DrawingSettings.color (settings props))
    (DrawingSettings.brushSize (settings props))
    (DrawingSettings.opacity (settings props))
    (Some (textInput s)) (Some (panelTextFormat s)) None
    (Some textWidth)
    (Some (if truthy (fontSize (panelTextFormat s))
           then fontSize (panelTextFormat s) else 24%float))
    (Some newId) None None.

(** The state after the [setX] calls that close the panel. *)
Definition closeTextPanel (s : State) : State :=
  setTextFormat defaultTextFormat
    (setSelectedElementId None (setTextInput EmptyString (setShowTextPanel false s))).

(** [handleTextConfirm]; [measure fmt t] is the width [ctx.measureText(t)]
    reports once [ctx.font] is set from [fmt]. *)
Definition handleTextConfirm (props : DrawingCanvasProps) (dom : Dom)
                             (measure : TextFormat -> string -> float)
                             (s : State) : State :=
  if isBlank (textInput s) then s
  else
    match textPosition s, canvasRef dom with
    | Some position, Some canvas =>
        if negb (hasContext2d canvas) then s
        else
          let textWidth := measure (panelTextFormat s) (textInput s) in
          match truthyString (selectedElementId s) with
          | Some selected =>
              let newElement := confirmedText props s position textWidth selected in
              let newElements :=
                map (fun el => if idIs selected el then newElement else el)
                    (elements s) in
              closeTextPanel (commit newElements s)
          | None =>
              let newElement :=
                confirmedText props s position textWidth (generateId s) in
              let newElements := elements s ++ [newElement] in
              setIdCalls (S (idCalls s)) (closeTextPanel (commit newElements s))
          end
    | _, _ => s
    end.

(** [handleTextCancel] *)
Definition handleTextCancel (s : State) : State := closeTextPanel s.

(** A text element, committed and then hit by a press of the select tool. *)
Definition textState : State := commit [rectB; textC] (initialState sampleIds).

Definition pressOnText : MouseEvent := mkMouseEvent 0 false 50 0.

(** * Proofs *)

(** ** History manager *)

Lemma commit_history (l : list DrawingElement) (s : State) :
  history (commit l s) = firstn (historyStep s + 1) (history s) ++ [l].
Proof. reflexivity. Qed.

Lemma commit_historyStep (l : list DrawingElement) (s : State) :
  historyStep (commit l s) = length (firstn (historyStep s + 1) (history s)).
Proof.
  unfold commit, saveToHistory; simpl.
  rewrite length_app; simpl; lia.
Qed.

Lemma commit_elements (l : list DrawingElement) (s : State) :
  elements (commit l s) = l.
Proof. reflexivity. Qed.

Lemma commit_Live (l : list DrawingElement) (s : State) : Live (commit l s).
Proof.
  unfold Live.
  rewrite commit_history, commit_historyStep, commit_elements.
  split.
  - rewrite length_app; simpl; lia.
  - rewrite app_nth2 by lia. now rewrite Nat.sub_diag.
Qed.

Lemma commit_cursorValid (l : list DrawingElement) (s : State) :
  cursorValid (commit l s).
Proof.
  destruct (commit_Live l s) as [H _]. unfold cursorValid. lia.
Qed.

Lemma handleUndo_Live (s : State) :
  Live s ->
  history (handleUndo s) = history s
  /\ historyStep (handleUndo s) = historyStep s - 1
  /\ Live (handleUndo s).
Proof.
  intros [Hlt Hel]. unfold handleUndo.
  destruct (0 <? historyStep s) eqn:Hpos.
  - apply Nat.ltb_lt in Hpos. unfold Live. simpl.
    split; [reflexivity | split; [reflexivity | split; [lia |]]].
    destruct (nth_error (history s) (historyStep s - 1)) as [snap|] eqn:Hn.
    + symmetry. now apply nth_error_nth.
    + apply nth_error_None in Hn. lia.
  - apply Nat.ltb_ge in Hpos. unfold Live.
    repeat split; try assumption; lia.
Qed.

(** Under its guard [handleRedo] reads a stored snapshot. *)
Lemma handleRedo_in_range (s : State) :
  (historyStep s <? length (history s) - 1) = true ->
  historyStep s + 1 < length (history s).
Proof. intros H. apply Nat.ltb_lt in H. lia. Qed.

Lemma handleRedo_Live (s : State) :
  Live s ->
  history (handleRedo s) = history s
  /\ historyStep (handleRedo s) = Nat.min (historyStep s + 1) (length (history s) - 1)
  /\ Live (handleRedo s).
Proof.
  intros [Hlt Hel]. unfold handleRedo.
  destruct (historyStep s <? length (history s) - 1) eqn:Hg.
  - apply Nat.ltb_lt in Hg. unfold Live. simpl.
    split; [reflexivity | split; [lia | split; [lia | reflexivity]]].
  - apply Nat.ltb_ge in Hg. unfold Live.
    repeat split; try assumption; lia.
Qed.

Lemma undo_iter (k : nat) (s : State) :
  Live s ->
  history (Nat.iter k handleUndo s) = history s
  /\ historyStep (Nat.iter k handleUndo s) = historyStep s - k
  /\ Live (Nat.iter k handleUndo s).
Proof.
  intros HL. induction k as [|k IH]; simpl.
  - repeat split; try apply HL; lia.
  - destruct IH as (Hh & Hs & HLk).
    destruct (handleUndo_Live _ HLk) as (Hh' & Hs' & HL').
    repeat split; try apply HL'; congruence || lia.
Qed.

Lemma redo_iter (k : nat) (s : State) :
  Live s ->
  history (Nat.iter k handleRedo s) = history s
  /\ historyStep (Nat.iter k handleRedo s)
     = Nat.min (historyStep s + k) (length (history s) - 1)
  /\ Live (Nat.iter k handleRedo s).
Proof.
  intros HL. induction k as [|k IH]; simpl.
  - repeat split; try apply HL. destruct HL; lia.
  - destruct IH as (Hh & Hs & HLk).
    destruct (handleRedo_Live _ HLk) as (Hh' & Hs' & HL').
    repeat split; try apply HL'; try congruence.
    rewrite Hs', Hs, Hh. lia.
Qed.

Lemma commits_cons (l : list DrawingElement) (ls : list (list DrawingElement))
                   (s : State) :
  commits (l :: ls) s = commits ls (commit l s).
Proof. reflexivity. Qed.

(** Commits made with the cursor on the last snapshot (or with no snapshot)
    append to the history. *)
Lemma commits_at_tail (lists : list (list DrawingElement)) (s : State) :
  length (history s) <= historyStep s + 1 ->
  history (commits lists s) = history s ++ lists
  /\ (lists <> [] ->
      historyStep (commits lists s) = length (history s ++ lists) - 1
      /\ Live (commits lists s)).
Proof.
  revert s. induction lists as [|l ls IH]; intros s Htail.
  - simpl. rewrite app_nil_r. split; [reflexivity | congruence].
  - rewrite commits_cons.
    assert (Hh : history (commit l s) = history s ++ [l]).
    { rewrite commit_history, firstn_all2 by lia. reflexivity. }
    assert (Hs : historyStep (commit l s) = length (history s)).
    { rewrite commit_historyStep, firstn_all2 by lia. reflexivity. }
    destruct (IH (commit l s)) as [IH1 IH2].
    { rewrite Hh, Hs, length_app. simpl. lia. }
    rewrite IH1, Hh, <- app_assoc. simpl.
    split; [reflexivity | intros _].
    destruct ls as [|l' ls'].
    + change (commits [] (commit l s)) with (commit l s). split.
      * rewrite Hs, length_app. simpl. lia.
      * apply commit_Live.
    + destruct IH2 as [H1 H2]; [discriminate|].
      split; [|exact H2].
      rewrite H1, Hh, <- app_assoc. reflexivity.
Qed.

Lemma commits_from_initial (rnd : nat -> string) (lists : list (list DrawingElement)) :
  1 <= length lists ->
  let s := commits lists (initialState rnd) in
  history s = lists /\ historyStep s = length lists - 1 /\ Live s.
Proof.
  intros Hn s.
  destruct (commits_at_tail lists (initialState rnd)) as [H1 H2].
  { simpl. lia. }
  destruct H2 as [H2 H3].
  { destruct lists; [simpl in Hn; lia | discriminate]. }
  repeat split; try apply H3; assumption.
Qed.

(** C8: starting from the initial empty state, commit [[A]], commit [[A; B]],
    then [undo()] makes the live list [[A]] and [redo()] makes it [[A; B]]. *)
Theorem commit_commit_undo_redo (rnd : nat -> string) (A B : DrawingElement) :
  let s := commit [A; B] (commit [A] (initialState rnd)) in
  elements (handleUndo s) = [A]
  /\ elements (handleRedo (handleUndo s)) = [A; B].
Proof. split; reflexivity. Qed.

Lemma nth_pred_length_last (A : Type) (l : list A) (d : A) :
  nth (length l - 1) l d = last l d.
Proof.
  induction l as [|a l IH]; [reflexivity|].
  destruct l as [|b l]; [reflexivity|].
  simpl length in *. simpl last.
  replace (S (S (length l)) - 1) with (S (S (length l) - 1)) by lia.
  simpl nth. exact IH.
Qed.

(** C3 (amended): after [N >= 1] commits from the initial state, [N] undos
    leave the live list equal to the list of the FIRST commit (the cursor
    stops on the first snapshot; the empty canvas is not a snapshot), and
    [N] redos then restore the list of the final commit. *)
Theorem undo_all_then_redo_all (rnd : nat -> string)
                               (lists : list (list DrawingElement)) :
  1 <= length lists ->
  let n := length lists in
  let undone := Nat.iter n handleUndo (commits lists (initialState rnd)) in
  elements undone = hd [] lists
  /\ elements (Nat.iter n handleRedo undone) = last lists [].
Proof.
  intros Hn n undone.
  destruct (commits_from_initial rnd lists Hn) as (Hh & Hs & HL).
  destruct (undo_iter n _ HL) as (Hh1 & Hs1 & HL1).
  fold undone in Hh1, Hs1, HL1.
  destruct (redo_iter n _ HL1) as (Hh2 & Hs2 & HL2).
  rewrite Hh in Hh1. rewrite Hh1 in Hh2.
  rewrite Hs in Hs1. rewrite Hs1, Hh1 in Hs2.
  split.
  - destruct HL1 as [_ He]. rewrite He, Hs1, Hh1.
    replace (length lists - 1 - n) with 0 by (unfold n; lia).
    destruct lists; reflexivity.
  - destruct HL2 as [_ He]. rewrite He, Hs2, Hh2.
    replace (Nat.min (length lists - 1 - n + n) (length lists - 1))
      with (length lists - 1) by (unfold n; lia).
    apply nth_pred_length_last.
Qed.

Lemma undo_all_then_redo_all_witness :
  1 <= length [[strokeA]; [strokeA; rectB]]
  /\ elements (Nat.iter 2 handleUndo
                 (commits [[strokeA]; [strokeA; rectB]] (initialState sampleIds)))
     = [strokeA]
  /\ elements (Nat.iter 2 handleRedo
                 (Nat.iter 2 handleUndo
                    (commits [[strokeA]; [strokeA; rectB]] (initialState sampleIds))))
     = [strokeA; rectB].
Proof.
  split; [simpl; lia|].
  apply (undo_all_then_redo_all sampleIds [[strokeA]; [strokeA; rectB]]).
  simpl; lia.
Defined.

(** C3 as stated fails: one commit of [[strokeA]] followed by one undo leaves
    the live list [[strokeA]], not the empty list. *)
Lemma undo_all_does_not_empty : ~ undoAllEmptiesThenRedoRestores.
Proof.
  intros H.
  destruct (H sampleIds [[strokeA]]) as [Hempty _]; [simpl; lia|].
  discriminate Hempty.
Qed.

(** ** The cursor invariant *)

Lemma handleUndo_cursorValid (s : State) :
  cursorValid s -> cursorValid (handleUndo s).
Proof.
  unfold cursorValid, handleUndo. intros H.
  destruct (0 <? historyStep s); simpl; lia.
Qed.

Lemma handleRedo_cursorValid (s : State) :
  cursorValid s -> cursorValid (handleRedo s).
Proof.
  unfold cursorValid, handleRedo. intros H.
  destruct (historyStep s <? length (history s) - 1) eqn:Hg; simpl; [|lia].
  apply Nat.ltb_lt in Hg. lia.
Qed.

Lemma runOps_cursorValid (ops : list HistoryOp) (s : State) :
  clearFree ops = true -> cursorValid s -> cursorValid (runOps ops s).
Proof.
  revert s. induction ops as [|op ops IH]; intros s Hc Hv; [exact Hv|].
  simpl in Hc. apply andb_true_iff in Hc as [Hop Hc].
  simpl. apply IH; [exact Hc|].
  destruct op; simpl in *; try discriminate.
  - apply commit_cursorValid.
  - now apply handleUndo_cursorValid.
  - now apply handleRedo_cursorValid.
Qed.

Lemma runOps_from_empty (ops : list HistoryOp) (s : State) :
  clearFree ops = true ->
  history s = [] -> historyStep s = 0 ->
  if existsb isCommit ops then cursorValid (runOps ops s)
  else history (runOps ops s) = [] /\ historyStep (runOps ops s) = 0.
Proof.
  revert s. induction ops as [|op ops IH]; intros s Hc Hh Hs; [now split|].
  simpl in Hc. apply andb_true_iff in Hc as [Hop Hc].
  destruct op; simpl in Hop; try discriminate.
  - simpl. apply runOps_cursorValid; [exact Hc | apply commit_cursorValid].
  - simpl existsb. simpl runOps. unfold handleUndo. rewrite Hs. simpl.
    now apply IH.
  - simpl existsb. simpl runOps. unfold handleRedo. rewrite Hs, Hh. simpl.
    now apply IH.
Qed.

(** C2 (amended): in every state reached from the initial state by commits,
    undos and redos, the cursor indexes a stored snapshot
    ([0 <= historyStep < history.length]) once a commit has been made;
    before the first commit no snapshot is stored and the cursor is [0]. *)
Theorem cursor_valid_after_first_commit (rnd : nat -> string)
                                        (ops : list HistoryOp) :
  clearFree ops = true ->
  let s := runOps ops (initialState rnd) in
  if existsb isCommit ops then cursorValid s
  else history s = [] /\ historyStep s = 0.
Proof.
  intros Hc s. now apply runOps_from_empty.
Qed.

Lemma cursor_valid_after_first_commit_witness :
  clearFree [OpCommit [strokeA]; OpCommit [strokeA; rectB]; OpUndo; OpRedo; OpUndo] = true
  /\ cursorValid (runOps [OpCommit [strokeA]; OpCommit [strokeA; rectB];
                          OpUndo; OpRedo; OpUndo]
                         (initialState sampleIds)).
Proof.
  split; [reflexivity|].
  apply (cursor_valid_after_first_commit sampleIds
           [OpCommit [strokeA]; OpCommit [strokeA; rectB]; OpUndo; OpRedo; OpUndo]).
  reflexivity.
Defined.

(** C2 as stated fails in the initial state itself: no snapshot is stored,
    so the cursor [0] indexes none. *)
Lemma cursor_invalid_initially : ~ cursorAlwaysValid.
Proof.
  intros H. specialize (H sampleIds []).
  unfold cursorValid in H. simpl in H. lia.
Qed.

(** ** Clear *)

Lemma handleClear_fields (s : State) :
  elements (handleClear s) = []
  /\ history (handleClear s) = [elements s]
  /\ historyStep (handleClear s) = length (history s).
Proof. repeat split. Qed.

(** Whenever a snapshot is stored, [handleClear] leaves the cursor past the
    end of the history. *)
Lemma handleClear_cursor_out_of_range (s : State) :
  1 <= length (history s) -> ~ cursorValid (handleClear s).
Proof.
  intros Hlen. unfold cursorValid. simpl. lia.
Qed.

(** With no snapshot stored, [handleClear] and [commit([])] agree on the
    history and the cursor. *)
Lemma handleClear_on_empty_canvas (rnd : nat -> string) :
  history (handleClear (initialState rnd)) = history (clearAsCommit (initialState rnd))
  /\ historyStep (handleClear (initialState rnd))
     = historyStep (clearAsCommit (initialState rnd)).
Proof. split; reflexivity. Qed.

(** C1: [handleClear] empties the live list, but it is not [commit([])].
    After the commits [[strokeA]] and [[strokeA; rectB]], [commit([])] keeps
    both snapshots, appends the empty one and puts the cursor on it;
    [handleClear] replaces the whole history by the single snapshot
    [[strokeA; rectB]] and sets the cursor to [2], past its end. *)
Theorem handleClear_drops_history :
  let s := commits [[strokeA]; [strokeA; rectB]] (initialState sampleIds) in
  elements (handleClear s) = []
  /\ history (clearAsCommit s) = [[strokeA]; [strokeA; rectB]; []]
  /\ historyStep (clearAsCommit s) = 2
  /\ history (handleClear s) = [[strokeA; rectB]]
  /\ historyStep (handleClear s) = 2
  /\ ~ cursorValid (handleClear s).
Proof.
  repeat split.
  unfold cursorValid. simpl. lia.
Qed.

(** ** Eraser engine *)

Section Eraser.

Variable eraserSize : float.
Variable eraserPoints : list Point.

Lemma nearEraserPath_Within (p : Point) :
  nearEraserPath eraserSize eraserPoints p = true
  <-> Within eraserSize eraserPoints p.
Proof.
  unfold Within. induction eraserPoints as [|q qs IH]; simpl.
  - split; [discriminate | intros (q & [] & _)].
  - destruct (withinEraser eraserSize p q) eqn:Hq.
    + split; [|reflexivity]. intros _. exists q. auto.
    + rewrite IH. split.
      * intros (q' & Hin & Hw). exists q'. auto.
      * intros (q' & [Heq | Hin] & Hw).
        -- subst q'. congruence.
        -- exists q'. auto.
Qed.

Lemma nearEraserPath_Far (p : Point) :
  nearEraserPath eraserSize eraserPoints p = false
  <-> Far eraserSize eraserPoints p.
Proof.
  split.
  - intros Hn q Hin.
    destruct (withinEraser eraserSize p q) eqn:Hw; [|reflexivity].
    assert (nearEraserPath eraserSize eraserPoints p = true) as Ht
        by (apply nearEraserPath_Within; exists q; auto).
    congruence.
  - intros Hfar.
    destruct (nearEraserPath eraserSize eraserPoints p) eqn:Hn; [|reflexivity].
    apply nearEraserPath_Within in Hn as (q & Hin & Hw).
    rewrite (Hfar q Hin) in Hw. discriminate.
Qed.

Lemma anyPointNear_exists (pts : list Point) :
  anyPointNear eraserSize eraserPoints pts = true
  <-> exists p, In p pts /\ Within eraserSize eraserPoints p.
Proof.
  induction pts as [|p ps IH]; simpl.
  - split; [discriminate | intros (p & [] & _)].
  - destruct (nearEraserPath eraserSize eraserPoints p) eqn:Hp.
    + split; [|reflexivity]. intros _. exists p.
      split; [now left | now apply nearEraserPath_Within].
    + rewrite IH. split.
      * intros (p' & Hin & Hw). exists p'. auto.
      * intros (p' & [Heq | Hin] & Hw).
        -- subst p'. apply nearEraserPath_Within in Hw. congruence.
        -- exists p'. auto.
Qed.

Lemma shapeNear_exists (sp : Point) (ep : option Point) :
  shapeNear eraserSize eraserPoints sp ep = true
  <-> Within eraserSize eraserPoints sp
      \/ exists ep', ep = Some ep' /\ Within eraserSize eraserPoints ep'.
Proof.
  unfold Within. induction eraserPoints as [|q qs IH]; simpl.
  - split; [discriminate|].
    intros [(q & [] & _) | (ep' & _ & q & [] & _)].
  - destruct (withinEraser eraserSize sp q) eqn:Hs.
    { split; [|reflexivity]. intros _. left. exists q. auto. }
    destruct ep as [ep'|].
    + destruct (withinEraser eraserSize ep' q) eqn:He.
      { split; [|reflexivity]. intros _. right. exists ep'.
        split; [reflexivity|]. exists q. auto. }
      rewrite IH. split.
      * intros [(q' & Hin & Hw) | (e & Heq & q' & Hin & Hw)].
        -- left. exists q'. auto.
        -- right. exists e. split; [exact Heq|]. exists q'. auto.
      * intros [(q' & [Hq | Hin] & Hw) | (e & Heq & q' & [Hq | Hin] & Hw)].
        -- subst q'. congruence.
        -- left. exists q'. auto.
        -- injection Heq as <-. subst q'. congruence.
        -- right. exists e. split; [exact Heq|]. exists q'. auto.
    + rewrite IH. split.
      * intros [(q' & Hin & Hw) | (e & Heq & _)]; [|discriminate].
        left. exists q'. auto.
      * intros [(q' & [Hq | Hin] & Hw) | (e & Heq & _)]; [| |discriminate].
        -- subst q'. congruence.
        -- left. exists q'. auto.
Qed.

(** The flag of the erasers is exactly "some defining point is within the
    radius of some eraser-path point". *)
Lemma intersects_Touched (element : DrawingElement) :
  intersects eraserSize eraserPoints element = true
  <-> Touched eraserSize eraserPoints element.
Proof.
  unfold intersects, Touched, definingPoints.
  destruct (points element) as [pts|].
  - apply anyPointNear_exists.
  - destruct (startPoint element) as [sp|].
    + rewrite shapeNear_exists. split.
      * intros [Hs | (ep' & Heq & He)].
        -- exists sp. split; [now left | exact Hs].
        -- exists ep'. rewrite Heq. split; [right; now left | exact He].
      * intros (p & [Hp | Hin] & Hw).
        -- subst p. now left.
        -- destruct (endPoint element) as [ep'|]; [|destruct Hin].
           destruct Hin as [Hp | []]. subst p.
           right. exists ep'. auto.
    + split; [discriminate | intros (p & [] & _)].
Qed.

(** *** Splitting a stroke *)

Lemma splitLoop_runs (pts : list Point) :
  forall segments currentSegment,
    Forall (Far eraserSize eraserPoints) currentSegment ->
    exists runs,
      MaximalRuns eraserSize eraserPoints (currentSegment ++ pts) runs
      /\ finishSplit (splitLoop eraserSize eraserPoints pts segments currentSegment)
         = segments ++ filter longRun runs.
Proof.
  induction pts as [|p rest IH]; intros segments cur Hcur.
  - rewrite app_nil_r. unfold finishSplit. simpl.
    destruct cur as [|c cur'].
    + exists []. split; [constructor | now rewrite app_nil_r].
    + exists [c :: cur']. split.
      * rewrite <- (app_nil_r (c :: cur')) at 1.
        constructor; [discriminate | exact Hcur | exact I | constructor].
      * simpl filter. unfold longRun.
        destruct (1 <? length (c :: cur')); [reflexivity | now rewrite app_nil_r].
  - simpl splitLoop.
    destruct (nearEraserPath eraserSize eraserPoints p) eqn:Hp.
    + apply nearEraserPath_Within in Hp.
      destruct (IH (if 1 <? length cur then segments ++ [cur] else segments) [])
        as (runs & Hruns & Heq); [constructor|].
      simpl app in Hruns.
      destruct cur as [|c cur'].
      * exists runs. split.
        -- simpl. now constructor.
        -- exact Heq.
      * exists ((c :: cur') :: runs). split.
        -- constructor; [discriminate | exact Hcur | exact Hp |].
           now constructor.
        -- rewrite Heq. simpl filter. unfold longRun at 2.
           destruct (1 <? length (c :: cur')); [|reflexivity].
           now rewrite <- app_assoc.
    + apply nearEraserPath_Far in Hp.
      destruct (IH segments (cur ++ [p])) as (runs & Hruns & Heq).
      { apply Forall_app. split; [exact Hcur | now constructor]. }
      exists runs. split; [|exact Heq].
      now rewrite <- app_assoc in Hruns.
Qed.

Lemma splitSegments_runs (pts : list Point) :
  exists runs,
    MaximalRuns eraserSize eraserPoints pts runs
    /\ splitSegments eraserSize eraserPoints pts = filter longRun runs.
Proof.
  destruct (splitLoop_runs pts [] []) as (runs & Hruns & Heq); [constructor|].
  exists runs. split; [exact Hruns|].
  unfold splitSegments. unfold finishSplit in Heq.
  destruct (splitLoop eraserSize eraserPoints pts [] []) as [segments cur].
  exact Heq.
Qed.

End Eraser.

Lemma Within_not_Far (eraserSize : float) (eraserPoints : list Point) (p : Point) :
  Within eraserSize eraserPoints p -> Far eraserSize eraserPoints p -> False.
Proof.
  intros (q & Hin & Hw) Hfar. rewrite (Hfar q Hin) in Hw. discriminate.
Qed.

(** A sequence starts with at most one run: the first [Within] point ends it. *)
Lemma run_prefix_unique (eraserSize : float) (eraserPoints : list Point)
      (run1 run2 rest1 rest2 : list Point) :
  Forall (Far eraserSize eraserPoints) run1 ->
  Forall (Far eraserSize eraserPoints) run2 ->
  match rest1 with [] => True | p :: _ => Within eraserSize eraserPoints p end ->
  match rest2 with [] => True | p :: _ => Within eraserSize eraserPoints p end ->
  run1 ++ rest1 = run2 ++ rest2 ->
  run1 = run2 /\ rest1 = rest2.
Proof.
  revert run2. induction run1 as [|a r1 IH]; intros run2 H1 H2 Hr1 Hr2 Heq.
  - destruct run2 as [|b r2]; [auto|].
    simpl in Heq. subst rest1. inversion H2; subst.
    exfalso. eapply Within_not_Far; eassumption.
  - destruct run2 as [|b r2].
    + simpl in Heq. subst rest2. inversion H1; subst.
      exfalso. eapply Within_not_Far; eassumption.
    + simpl in Heq. injection Heq as -> Heq.
      inversion H1; subst. inversion H2; subst.
      destruct (IH r2) as [-> ->]; auto.
Qed.

(** The maximal runs of a point sequence are determined by it. *)
Lemma MaximalRuns_unique (eraserSize : float) (eraserPoints : list Point)
      (pts : list Point) (runs1 runs2 : list (list Point)) :
  MaximalRuns eraserSize eraserPoints pts runs1 ->
  MaximalRuns eraserSize eraserPoints pts runs2 ->
  runs1 = runs2.
Proof.
  intros H1. revert runs2.
  induction H1 as [| p rest runs Hp _ IH | run rest runs Hne Hfar Hrest _ IH];
    intros runs2 H2.
  - inversion H2 as [| |run' rest' runs' Hne' _ _ _ Heq]; subst; [reflexivity|].
    destruct run'; [congruence | discriminate].
  - inversion H2 as [| p' rest' runs' _ Hr |run' rest' runs' Hne' Hfar' _ _ Heq];
      subst.
    + now apply IH.
    + destruct run' as [|a run']; [congruence|].
      simpl in Heq. injection Heq as -> _. inversion Hfar'; subst.
      exfalso. eapply Within_not_Far; eassumption.
  - remember (run ++ rest) as pts eqn:Epts.
    destruct H2 as [| p' rest' runs' Hp' Hr |run' rest' runs' Hne' Hfar' Hrest' Hr].
    + destruct run; [congruence | discriminate].
    + destruct run as [|a run]; [congruence|].
      simpl in Epts. injection Epts as -> _. inversion Hfar; subst.
      exfalso. eapply Within_not_Far; eassumption.
    + destruct (run_prefix_unique eraserSize eraserPoints run' run rest' rest)
        as [-> ->]; auto.
      f_equal. now apply IH.
Qed.

Lemma MaximalRuns_all_far (eraserSize : float) (eraserPoints : list Point)
      (pts : list Point) :
  pts <> [] ->
  Forall (Far eraserSize eraserPoints) pts ->
  MaximalRuns eraserSize eraserPoints pts [pts].
Proof.
  intros Hne Hfar. rewrite <- (app_nil_r pts) at 1.
  constructor; [exact Hne | exact Hfar | exact I | constructor].
Qed.

Lemma laterSegments_spec (element : DrawingElement) (rnd : nat -> string)
      (segs : list (list Point)) :
  forall n,
    laterSegments element rnd n segs
    = (map (fun kr => withPointsId element (snd kr) (Some (rnd (fst kr))))
           (combine (seq n (length segs)) segs),
       n + length segs).
Proof.
  induction segs as [|segment rest IH]; intros n; simpl.
  - now rewrite Nat.add_0_r.
  - rewrite IH. f_equal. lia.
Qed.

Lemma segmentElements_spec (element : DrawingElement) (rnd : nat -> string)
      (n : nat) (segs : list (list Point)) :
  segmentElements element rnd n segs
  = (runElements element rnd n segs, n + (length segs - 1)).
Proof.
  destruct segs as [|segment rest]; simpl.
  - now rewrite Nat.add_0_r.
  - rewrite laterSegments_spec. now rewrite Nat.sub_0_r.
Qed.


Lemma withPointsId_same (element : DrawingElement) (pts : list Point) :
  points element = Some pts ->
  withPointsId element pts (id element) = element.
Proof.
  intros H. destruct element. simpl in *. subst. reflexivity.
Qed.





(** The scenario of the specification: radius 10 at the midpoint of a
    ten-point straight stroke leaves two elements, of four points each. *)
Example pixel_eraser_midpoint :
  let pushed := pixelEraseElement 20 midEraserPath sampleIds 0 tenPointStroke in
  map points (fst pushed) = [Some (firstn 4 tenPoints); Some (skipn 6 tenPoints)]
  /\ map id (fst pushed) = [Some "s"; Some "r"]
  /\ map color (fst pushed) = [color tenPointStroke; color tenPointStroke]
  /\ snd pushed = 1.
Proof. vm_compute. repeat split. Qed.


(** *** The loop over the committed list *)

Lemma pixelEraseLoop_acc (eraserSize : float) (eraserPoints : list Point)
      (rnd : nat -> string) (els : list DrawingElement) :
  forall n acc,
    pixelEraseLoop eraserSize eraserPoints rnd n els acc
    = (acc ++ fst (pixelEraseLoop eraserSize eraserPoints rnd n els []),
       snd (pixelEraseLoop eraserSize eraserPoints rnd n els [])).
Proof.
  induction els as [|element rest IH]; intros n acc; simpl.
  - now rewrite app_nil_r.
  - destruct (isEraserElement element); [apply IH|].
    destruct (pixelEraseElement eraserSize eraserPoints rnd n element) as [out n'].
    rewrite (IH n' (acc ++ out)), (IH n' out). simpl.
    now rewrite app_assoc.
Qed.

Lemma pixelEraseLoop_app (eraserSize : float) (eraserPoints : list Point)
      (rnd : nat -> string) (before after : list DrawingElement) :
  forall n acc,
    pixelEraseLoop eraserSize eraserPoints rnd n (before ++ after) acc
    = pixelEraseLoop eraserSize eraserPoints rnd
        (snd (pixelEraseLoop eraserSize eraserPoints rnd n before acc))
        after
        (fst (pixelEraseLoop eraserSize eraserPoints rnd n before acc)).
Proof.
  induction before as [|element rest IH]; intros n acc; simpl; [reflexivity|].
  destruct (isEraserElement element); [apply IH|].
  destruct (pixelEraseElement eraserSize eraserPoints rnd n element) as [out n'].
  apply IH.
Qed.

Lemma brush_not_eraser (element : DrawingElement) :
  hasType Tbrush element = true -> isEraserElement element = false.
Proof.
  unfold isEraserElement, hasType.
  destruct (type element) as [[]|]; simpl; congruence.
Qed.

Lemma anyPointNear_all_far (eraserSize : float) (eraserPoints pts : list Point) :
  Forall (Far eraserSize eraserPoints) pts ->
  anyPointNear eraserSize eraserPoints pts = false.
Proof.
  intros Hfar.
  destruct (anyPointNear eraserSize eraserPoints pts) eqn:Hn; [|reflexivity].
  apply anyPointNear_exists in Hn as (p & Hin & Hw).
  rewrite Forall_forall in Hfar.
  exfalso. eapply Within_not_Far; [exact Hw | now apply Hfar].
Qed.

(** C9: when no point of a stroke lies within the eraser radius of any
    eraser-path point, the pixel eraser pushes the stroke itself, with the
    same point sequence and identifier, and calls [generateId] for nothing;
    wherever the stroke stands in the committed list, it is in the result. *)
Theorem pixel_eraser_identity
        (eraserSize : float) (eraserPoints : list Point)
        (rnd : nat -> string) (n : nat)
        (element : DrawingElement) (pts : list Point) :
  hasType Tbrush element = true ->
  points element = Some pts ->
  Forall (Far eraserSize eraserPoints) pts ->
  pixelEraseElement eraserSize eraserPoints rnd n element = ([element], n)
  /\ forall before after,
       In element
          (fst (pixelErase eraserSize eraserPoints rnd n (before ++ element :: after))).
Proof.
  intros Ht Hp Hfar.
  assert (Hone : forall m,
             pixelEraseElement eraserSize eraserPoints rnd m element
             = ([element], m)).
  { intros m. unfold pixelEraseElement, splittable. rewrite Hp, Ht. simpl.
    destruct (1 <? length pts) eqn:Hlen.
    - destruct (splitSegments_runs eraserSize eraserPoints pts)
        as (runs & Hruns & Heq).
      assert (Hne : pts <> []) by (destruct pts; [discriminate | discriminate]).
      rewrite (MaximalRuns_unique _ _ _ _ _ Hruns
                 (MaximalRuns_all_far _ _ _ Hne Hfar)) in Heq.
      simpl in Heq. unfold longRun in Heq. rewrite Hlen in Heq.
      rewrite Heq, segmentElements_spec. simpl.
      now rewrite (withPointsId_same element pts Hp), Nat.add_0_r.
    - unfold intersects. rewrite Hp.
      now rewrite (anyPointNear_all_far _ _ _ Hfar). }
  split; [apply Hone|].
  intros before after. unfold pixelErase.
  rewrite pixelEraseLoop_app. simpl.
  rewrite (brush_not_eraser element Ht), Hone.
  rewrite pixelEraseLoop_acc. simpl.
  apply in_or_app. left. apply in_or_app. right. now left.
Qed.

Lemma pixel_eraser_identity_witness :
  hasType Tbrush tenPointStroke = true
  /\ points tenPointStroke = Some tenPoints
  /\ Forall (Far 20 [mkPoint 45 30]) tenPoints
  /\ pixelEraseElement 20 [mkPoint 45 30] sampleIds 0 tenPointStroke
     = ([tenPointStroke], 0)
  /\ forall before after,
       In tenPointStroke
          (fst (pixelErase 20 [mkPoint 45 30] sampleIds 0
                  (before ++ tenPointStroke :: after))).
Proof.
  assert (Hfar : Forall (Far 20 [mkPoint 45 30]) tenPoints).
  { apply Forall_forall. intros p Hp q [<- | []].
    repeat (destruct Hp as [<- | Hp]; [vm_compute; reflexivity|]).
    destruct Hp. }
  split; [reflexivity|]. split; [reflexivity|]. split; [exact Hfar|].
  apply (pixel_eraser_identity 20 [mkPoint 45 30] sampleIds 0
           tenPointStroke tenPoints); [reflexivity | reflexivity | exact Hfar].
Defined.

(** C5: on a committed list (which holds no eraser path), the stroke eraser
    deletes an element, whole, if and only if one of its defining points
    lies within the radius [eraserSize / 2] of an eraser-path point; the
    other elements are kept as they are, in order. *)
Theorem stroke_eraser_deletes_touched
        (eraserSize : float) (eraserPoints : list Point)
        (els : list DrawingElement) :
  Forall (fun element => isEraserElement element = false) els ->
  strokeErase eraserSize eraserPoints els
  = filter (fun element => negb (intersects eraserSize eraserPoints element)) els
  /\ (forall element,
        intersects eraserSize eraserPoints element = true
        <-> Touched eraserSize eraserPoints element)
  /\ (forall element,
        In element els ->
        (~ In element (strokeErase eraserSize eraserPoints els)
         <-> Touched eraserSize eraserPoints element)).
Proof.
  intros Hno.
  assert (Hfilter :
            strokeErase eraserSize eraserPoints els
            = filter (fun element => negb (intersects eraserSize eraserPoints element))
                     els).
  { unfold strokeErase. apply filter_ext_in. intros e Hin.
    rewrite Forall_forall in Hno. now rewrite (Hno e Hin). }
  split; [exact Hfilter|]. split; [apply intersects_Touched|].
  intros e Hin. rewrite Hfilter, filter_In, <- intersects_Touched.
  destruct (intersects eraserSize eraserPoints e); simpl; split.
  - reflexivity.
  - intros _ [_ H]. discriminate.
  - intros H. exfalso. apply H. auto.
  - discriminate.
Qed.

Example stroke_eraser_sample :
  strokeErase 20 midEraserPath [tenPointStroke; rectB; textC; imageD]
  = [rectB; imageD].
Proof. vm_compute. reflexivity. Qed.

Lemma stroke_eraser_deletes_touched_witness :
  Forall (fun element => isEraserElement element = false)
         [tenPointStroke; rectB; textC; imageD]
  /\ strokeErase 20 midEraserPath [tenPointStroke; rectB; textC; imageD]
     = filter (fun element => negb (intersects 20 midEraserPath element))
              [tenPointStroke; rectB; textC; imageD]
  /\ (forall element,
        intersects 20 midEraserPath element = true
        <-> Touched 20 midEraserPath element)
  /\ (forall element,
        In element [tenPointStroke; rectB; textC; imageD] ->
        (~ In element
             (strokeErase 20 midEraserPath [tenPointStroke; rectB; textC; imageD])
         <-> Touched 20 midEraserPath element)).
Proof.
  assert (Hno : Forall (fun element => isEraserElement element = false)
                       [tenPointStroke; rectB; textC; imageD])
    by (repeat constructor).
  split; [exact Hno|].
  apply (stroke_eraser_deletes_touched 20 midEraserPath
           [tenPointStroke; rectB; textC; imageD]).
  exact Hno.
Defined.

(** ** Gestures *)

Section Gestures.

Variable props : DrawingCanvasProps.
Variable dom : Dom.

Lemma setCurrentElement_eta (s : State) :
  setCurrentElement (currentElement s) s = s.
Proof. now destruct s. Qed.

(** A press with a freehand tool on an idle canvas starts a provisional
    element with the press point as its path. *)
Lemma handleMouseDown_strokeEraser (e : MouseEvent) (s : State) :
  plainPress e s ->
  currentTool props = TstrokeEraser ->
  handleMouseDown props dom e s
  = setIdCalls (S (idCalls s))
      (setCurrentElement
         (Some (newPathElement TstrokeEraser (getMousePos dom s e)
                  (DrawingSettings.color (settings props))
                  (DrawingSettings.brushSize (settings props) * 2) 1
                  (generateId s)))
         (setIsDrawing true s)).
Proof.
  intros [Hb Hm] Ht. unfold handleMouseDown. rewrite Hb, Hm, Ht. reflexivity.
Qed.

Lemma handleMouseDown_eraser (e : MouseEvent) (s : State) :
  plainPress e s ->
  currentTool props = Teraser ->
  handleMouseDown props dom e s
  = setIdCalls (S (idCalls s))
      (setCurrentElement
         (Some (newPathElement Teraser (getMousePos dom s e)
                  (DrawingSettings.color (settings props))
                  (DrawingSettings.brushSize (settings props))
                  (DrawingSettings.opacity (settings props))
                  (generateId s)))
         (setIsDrawing true s)).
Proof.
  intros [Hb Hm] Ht. unfold handleMouseDown. rewrite Hb, Hm, Ht. reflexivity.
Qed.

(** While a freehand gesture is in progress, every move appends its point to
    the path of the provisional element and changes nothing else. *)
Lemma runMoves_freehand (moves : list MouseEvent) :
  forall (s : State) (cur : DrawingElement) (pts : list Point),
    freehandTool (currentTool props) = true ->
    isPanning s = false -> isSelecting s = false -> isDragging s = false ->
    isDrawing s = true ->
    currentElement s = Some cur ->
    points cur = Some pts ->
    runMoves props dom moves s
    = setCurrentElement
        (Some (withPointsId cur (pts ++ map (getMousePos dom s) moves) (id cur)))
        s.
Proof.
  induction moves as [|e moves IH]; intros s cur pts Htool Hp Hs Hd Hw Hc Hpts.
  - simpl. rewrite app_nil_r, (withPointsId_same cur pts Hpts), <- Hc.
    symmetry. apply setCurrentElement_eta.
  - simpl runMoves.
    assert (Hmove : handleMouseMove props dom e s
                    = setCurrentElement
                        (Some (withPointsId cur (pts ++ [getMousePos dom s e]) (id cur)))
                        s).
    { unfold handleMouseMove. rewrite Hp, Hs, Hd, Hw, Hc, Hpts.
      destruct (currentTool props); try discriminate; reflexivity. }
    unfold runMoves in IH |- *. simpl fold_left. rewrite Hmove.
    rewrite (IH _ (withPointsId cur (pts ++ [getMousePos dom s e]) (id cur))
                (pts ++ [getMousePos dom s e]));
      try assumption; try reflexivity.
    simpl map. rewrite <- app_assoc. reflexivity.
Qed.

End Gestures.

(** For the sizes the slider offers, doubling and halving are exact. *)
Lemma slider_double_half (b : float) :
  sliderBrushSize b ->
  (b * 2 / 2 = b /\ b = 2 * (b / 2))%float.
Proof.
  unfold sliderBrushSize, sliderValues. simpl In. intros H.
  repeat (destruct H as [<- | H]; [split; reflexivity|]).
  destruct H.
Qed.

(** Outside the slider's range the two need not be: doubling [2^1023]
    overflows to infinity, and halving the least subnormal rounds to zero. *)
Example double_half_not_exact_at_extremes :
  (0x1p+1023 * 2 / 2 =? 0x1p+1023)%float = false
  /\ (2 * (0x1p-1074 / 2) =? 0x1p-1074)%float = false.
Proof. split; reflexivity. Qed.

(** ** The drag protocol *)

Section Drag.

Variable props : DrawingCanvasProps.
Variable dom : Dom.

Lemma getMousePos_same_view (s s' : State) (m : MouseEvent) :
  offset s' = offset s -> scale s' = scale s ->
  getMousePos dom s' m = getMousePos dom s m.
Proof. intros Ho Hs. unfold getMousePos. now rewrite Ho, Hs. Qed.

(** A press with the select tool on an idle canvas mutates no element and no
    history; it either starts a candidate drag at the press point or starts
    no drag. *)
Lemma handleMouseDown_select (e : MouseEvent) (s : State) :
  idle s -> plainPress e s -> currentTool props = Tselect ->
  let s1 := handleMouseDown props dom e s in
  elements s1 = elements s /\ history s1 = history s
  /\ historyStep s1 = historyStep s
  /\ offset s1 = offset s /\ scale s1 = scale s
  /\ isPanning s1 = false /\ isSelecting s1 = false /\ isDrawing s1 = false
  /\ (isDragging s1 = false
      \/ (isDragging s1 = true /\ hasDragStarted s1 = false
          /\ dragStart s1 = Some (getMousePos dom s e))).
Proof.
  intros (Hpan & Hsel & Hdrag & Hdraw) [Hb Hm] Htool s1. subst s1.
  unfold handleMouseDown. rewrite Hb, Hm, Htool. simpl.
  destruct (findElementAtPoint (elements s) (getMousePos dom s e)) as [clicked|].
  - destruct (text clicked) as [txt|].
    + destruct (hasType Ttext clicked && negb (txt =? ""))%string; simpl;
        repeat split; auto.
    + simpl. repeat split; auto.
  - simpl. repeat split; auto.
Qed.

(** A move is ignored when no drag is in progress, or when the candidate drag
    has not started and the pointer is under the threshold. *)
Lemma handleMouseMove_ignored (m : MouseEvent) (s : State) :
  isPanning s = false -> isSelecting s = false -> isDrawing s = false ->
  (isDragging s = false
   \/ (hasDragStarted s = false
       /\ exists start, dragStart s = Some start
            /\ underDragThreshold (getMousePos dom s m) start = true)) ->
  handleMouseMove props dom m s = s.
Proof.
  intros Hpan Hsel Hdraw Hcase. unfold handleMouseMove.
  rewrite Hpan, Hsel, Hdraw.
  destruct Hcase as [Hdrag | (Hstarted & start & Hstart & Hunder)].
  - rewrite Hdrag. reflexivity.
  - rewrite Hstart, Hstarted, Hunder.
    destruct (if isDragging s then truthyString (selectedElementId s) else None);
      reflexivity.
Qed.

(** A release with no started drag adds no history entry. *)
Lemma handleMouseUp_no_entry (s : State) :
  isPanning s = false -> isSelecting s = false -> isDrawing s = false ->
  (isDragging s = false \/ hasDragStarted s = false) ->
  history (handleMouseUp s) = history s
  /\ historyStep (handleMouseUp s) = historyStep s
  /\ elements (handleMouseUp s) = elements s.
Proof.
  intros Hpan Hsel Hdraw Hcase. unfold handleMouseUp.
  rewrite Hpan, Hsel, Hdraw.
  destruct (isDragging s) eqn:Hdrag.
  - destruct Hcase as [|Hstarted]; [discriminate|]. rewrite Hstarted.
    destruct (truthyString (selectedElementId s)); repeat split.
  - repeat split.
Qed.

Lemma all_true_or_some_false (A : Type) (f : A -> bool) (l : list A) :
  Forall (fun a => f a = true) l \/ Exists (fun a => f a = false) l.
Proof.
  induction l as [|a l [IH | IH]].
  - left. constructor.
  - destruct (f a) eqn:Ha.
    + left. now constructor.
    + right. now constructor.
  - right. now constructor 2.
Qed.

End Drag.

(** C6: after a press with the select tool (on an element or not), moves
    that stay under the 3-unit distance from the press point leave the whole
    state, hence every element, as it was; a release then adds no history
    entry; a history entry at release implies that some move was not under
    the threshold; and a plain click leaves the history as it was. *)
Theorem drag_threshold_protocol
        (props : DrawingCanvasProps) (dom : Dom)
        (e : MouseEvent) (moves : list MouseEvent) (s : State) :
  idle s ->
  plainPress e s ->
  currentTool props = Tselect ->
  let press := getMousePos dom s e in
  let s1 := handleMouseDown props dom e s in
  let released := handleMouseUp (runMoves props dom moves s1) in
  (elements s1 = elements s /\ history s1 = history s
   /\ historyStep s1 = historyStep s)
  /\ (history (handleMouseUp s1) = history s
      /\ historyStep (handleMouseUp s1) = historyStep s
      /\ elements (handleMouseUp s1) = elements s)
  /\ (Forall (fun m => underDragThreshold (getMousePos dom s m) press = true) moves ->
      runMoves props dom moves s1 = s1
      /\ history released = history s
      /\ historyStep released = historyStep s
      /\ elements released = elements s)
  /\ (history released <> history s ->
      Exists (fun m => underDragThreshold (getMousePos dom s m) press = false) moves).
Proof.
  intros Hidle Hpress Htool press s1 released.
  destruct (handleMouseDown_select props dom e s Hidle Hpress Htool)
    as (He & Hh & Hk & Ho & Hsc & Hpan & Hsel & Hdraw & Hcase).
  fold s1 in He, Hh, Hk, Ho, Hsc, Hpan, Hsel, Hdraw, Hcase.
  assert (Hrelease : history (handleMouseUp s1) = history s
                     /\ historyStep (handleMouseUp s1) = historyStep s
                     /\ elements (handleMouseUp s1) = elements s).
  { rewrite <- He, <- Hh, <- Hk. apply handleMouseUp_no_entry; auto.
    destruct Hcase as [H | (_ & H & _)]; auto. }
  assert (Hquiet :
            Forall (fun m => underDragThreshold (getMousePos dom s m) press = true)
                   moves ->
            runMoves props dom moves s1 = s1).
  { intros Hall. unfold runMoves.
    induction Hall as [|m ms Hm _ IH]; [reflexivity|].
    simpl. rewrite (handleMouseMove_ignored props dom m s1); auto.
    destruct Hcase as [H | (_ & Hst & Hds)]; [now left | right].
    split; [exact Hst|]. exists press. split; [exact Hds|].
    now rewrite (getMousePos_same_view dom s s1 m Ho Hsc). }
  split; [auto|]. split; [exact Hrelease|]. split.
  - intros Hall. unfold released. rewrite (Hquiet Hall). auto.
  - intros Hchanged.
    destruct (all_true_or_some_false _
                (fun m => underDragThreshold (getMousePos dom s m) press) moves)
      as [Hall | Hex]; [|exact Hex].
    exfalso. apply Hchanged. unfold released. rewrite (Hquiet Hall).
    apply Hrelease.
Qed.

(** ** Crop export *)

(** C7: [handleGetSelection] invokes the callback exactly once on every
    path.  It answers [null] when there is no selection rectangle, when no
    canvas is mounted, when the canvas gives no 2D context, and when the
    temporary canvas of this request, of the width and height of the selected
    rectangle on screen, gives none; in every other case it answers the data
    URL of that crop. *)
Theorem crop_export_calls_back_once (dom : Dom) (s : State) :
  length (handleGetSelection dom s) = 1
  /\ (selectionRect s = None
      \/ canvasRef dom = None
      \/ (exists canvas, canvasRef dom = Some canvas /\ hasContext2d canvas = false)
      \/ (exists rstart rend,
             selectionRect s = Some (rstart, rend)
             /\ tempContext dom (abs (x rend - x rstart) * scale s)
                                (abs (y rend - y rstart) * scale s) = false)%float ->
      handleGetSelection dom s = [None])
  /\ (forall rstart rend canvas,
        selectionRect s = Some (rstart, rend) ->
        canvasRef dom = Some canvas -> hasContext2d canvas = true ->
        (tempContext dom (abs (x rend - x rstart) * scale s)
                         (abs (y rend - y rstart) * scale s) = true)%float ->
        handleGetSelection dom s
        = [Some (toDataURL dom
                   (Math_min (x rstart) (x rend) * scale s + x (offset s))
                   (Math_min (y rstart) (y rend) * scale s + y (offset s))
                   (abs (x rend - x rstart) * scale s)
                   (abs (y rend - y rstart) * scale s))%float]).
Proof.
  unfold handleGetSelection.
  destruct (selectionRect s) as [[rstart rend]|];
    [|split; [reflexivity | split; [reflexivity | discriminate]]].
  destruct (canvasRef dom) as [canvas|];
    [|split; [reflexivity | split; [reflexivity | discriminate]]].
  destruct (hasContext2d canvas) eqn:Hctx; simpl.
  - destruct (tempContext dom (abs (x rend - x rstart) * scale s)
                              (abs (y rend - y rstart) * scale s)) eqn:Htmp.
    + split; [reflexivity|]. split.
      * intros [H | [H | [(c & Hc & Hf) | (a & b & Hab & Hf)]]]; try discriminate.
        -- injection Hc as <-. congruence.
        -- injection Hab as <- <-. congruence.
      * intros a b c Hab _ _ _. injection Hab as <- <-. reflexivity.
    + split; [reflexivity|]. split; [reflexivity|].
      intros a b c Hab _ _ H. injection Hab as <- <-. congruence.
  - split; [reflexivity|]. split; [reflexivity|].
    intros a b c _ Hc H _. injection Hc as <-. congruence.
Qed.

(** ** The theorems on sample gestures *)

(** A drag past the threshold moves the rectangle and adds a history entry. *)
Example drag_past_threshold_commits :
  let released :=
    handleMouseUp
      (runMoves selectProps sampleDom [farMove]
         (handleMouseDown selectProps sampleDom pressOnRect oneRectState)) in
  length (history released) = 2
  /\ historyStep released = 1
  /\ map startPoint (elements released) = [Some (mkPoint 35 20)].
Proof. vm_compute. repeat split. Qed.

Lemma drag_threshold_protocol_witness :
  idle oneRectState
  /\ plainPress pressOnRect oneRectState
  /\ currentTool selectProps = Tselect
  /\ (elements (handleMouseDown selectProps sampleDom pressOnRect oneRectState)
      = elements oneRectState
      /\ history (handleMouseDown selectProps sampleDom pressOnRect oneRectState)
         = history oneRectState
      /\ historyStep (handleMouseDown selectProps sampleDom pressOnRect oneRectState)
         = historyStep oneRectState)
  /\ (history (handleMouseUp
                 (handleMouseDown selectProps sampleDom pressOnRect oneRectState))
      = history oneRectState
      /\ historyStep (handleMouseUp
                        (handleMouseDown selectProps sampleDom pressOnRect oneRectState))
         = historyStep oneRectState
      /\ elements (handleMouseUp
                     (handleMouseDown selectProps sampleDom pressOnRect oneRectState))
         = elements oneRectState)
  /\ (Forall (fun m => underDragThreshold
                         (getMousePos sampleDom oneRectState m)
                         (getMousePos sampleDom oneRectState pressOnRect) = true)
             nearMoves ->
      runMoves selectProps sampleDom nearMoves
        (handleMouseDown selectProps sampleDom pressOnRect oneRectState)
      = handleMouseDown selectProps sampleDom pressOnRect oneRectState
      /\ history (handleMouseUp
                    (runMoves selectProps sampleDom nearMoves
                       (handleMouseDown selectProps sampleDom pressOnRect oneRectState)))
         = history oneRectState
      /\ historyStep (handleMouseUp
                        (runMoves selectProps sampleDom nearMoves
                           (handleMouseDown selectProps sampleDom pressOnRect
                              oneRectState)))
         = historyStep oneRectState
      /\ elements (handleMouseUp
                     (runMoves selectProps sampleDom nearMoves
                        (handleMouseDown selectProps sampleDom pressOnRect
                           oneRectState)))
         = elements oneRectState)
  /\ (history (handleMouseUp
                 (runMoves selectProps sampleDom nearMoves
                    (handleMouseDown selectProps sampleDom pressOnRect oneRectState)))
      <> history oneRectState ->
      Exists (fun m => underDragThreshold
                         (getMousePos sampleDom oneRectState m)
                         (getMousePos sampleDom oneRectState pressOnRect) = false)
             nearMoves).
Proof.
  split; [repeat split|]. split; [split; reflexivity|]. split; [reflexivity|].
  apply (drag_threshold_protocol selectProps sampleDom pressOnRect nearMoves
           oneRectState).
  - repeat split.
  - split; reflexivity.
  - reflexivity.
Defined.

(** The moves of [nearMoves] are under the threshold. *)
Example nearMoves_under_threshold :
  Forall (fun m => underDragThreshold
                     (getMousePos sampleDom oneRectState m)
                     (getMousePos sampleDom oneRectState pressOnRect) = true)
         nearMoves.
Proof. repeat constructor. Qed.

(** With brush size 3 the stroke eraser, pressed 2 units from two points of
    the ten-point stroke, deletes the stroke: its radius is 3, not 1.5. *)
Example stroke_eraser_press_deletes_stroke :
  elements (handleMouseUp
              (handleMouseDown strokeEraserProps sampleDom pressOnStroke
                 (commit [mkElement (OfTool Tbrush)
                            (Some [mkPoint 45 0; mkPoint 45 (-10)])
                            None None "#000000" 3 1 None None None None None
                            (Some "s") None None; rectB]
                         (initialState sampleIds))))
  = [rectB].
Proof. vm_compute. reflexivity. Qed.

(** The crop export on the sample page: one call, with a data URL when a
    rectangle is selected, with [null] when none is. *)
Example crop_export_samples :
  handleGetSelection sampleDom
    (setSelectionRect (Some (mkPoint 10 10, mkPoint 110 60)) oneRectState)
  = [Some "data:image/jpeg;base64,AAAA"]
  /\ handleGetSelection sampleDom oneRectState = [None].
Proof. split; reflexivity. Qed.

(** The buffer of one request: a page whose temporary canvas gives no
    context at the width 100 answers [null] for a rectangle that wide and a
    data URL for a narrower one. *)
Example crop_export_buffer_failure :
  let dom := mkDom (Some (mkCanvas 0 0 true)) (fun w _ => negb (w =? 100)%float)
                   (fun _ _ _ _ => "data:image/jpeg;base64,AAAA") in
  handleGetSelection dom
    (setSelectionRect (Some (mkPoint 10 10, mkPoint 110 60)) oneRectState)
  = [None]
  /\ handleGetSelection dom
       (setSelectionRect (Some (mkPoint 10 10, mkPoint 60 60)) oneRectState)
     = [Some "data:image/jpeg;base64,AAAA"].
Proof. split; reflexivity. Qed.

(** * Further properties of the code *)

(** ** History: how undo, redo, commit and clear compose *)

Lemma setElements_setHistoryStep_same (s : State) :
  setElements (elements s) (setHistoryStep (historyStep s) s) = s.
Proof. now destruct s. Qed.

(** X1: away from the ends of the history, undo and redo are inverse to each
    other on the whole state: with the live list equal to the snapshot under
    the cursor, redo after undo (cursor above [0]) and undo after redo
    (cursor below the last snapshot) give the state back. *)
Theorem undo_redo_inverse (s : State) :
  Live s ->
  (0 < historyStep s -> handleRedo (handleUndo s) = s)
  /\ (historyStep s + 1 < length (history s) -> handleUndo (handleRedo s) = s).
Proof.
  intros [Hlt Hel]. split; intros Hpos.
  - unfold handleUndo.
    assert (H0 : (0 <? historyStep s) = true) by now apply Nat.ltb_lt.
    rewrite H0. unfold handleRedo. simpl.
    assert (Hg : (historyStep s - 1 <? length (history s) - 1) = true)
      by (apply Nat.ltb_lt; lia).
    rewrite Hg.
    replace (historyStep s - 1 + 1) with (historyStep s) by lia.
    rewrite <- Hel.
    etransitivity; [|apply setElements_setHistoryStep_same]. reflexivity.
  - unfold handleRedo.
    assert (Hg : (historyStep s <? length (history s) - 1) = true)
      by (apply Nat.ltb_lt; lia).
    rewrite Hg. unfold handleUndo. simpl.
    assert (H0 : (0 <? historyStep s + 1) = true) by (apply Nat.ltb_lt; lia).
    rewrite H0.
    replace (historyStep s + 1 - 1) with (historyStep s) by lia.
    change (history (setElements (nth (historyStep s + 1) (history s) [])
                       (setHistoryStep (historyStep s + 1) s)))
      with (history s).
    rewrite (nth_error_nth' (history s) [] Hlt), <- Hel.
    etransitivity; [|apply setElements_setHistoryStep_same]. reflexivity.
Qed.

Lemma undo_redo_inverse_witness :
  Live (commits [[strokeA]; [strokeA; rectB]] (initialState sampleIds))
  /\ (0 < historyStep (commits [[strokeA]; [strokeA; rectB]] (initialState sampleIds)) ->
      handleRedo (handleUndo (commits [[strokeA]; [strokeA; rectB]]
                                      (initialState sampleIds)))
      = commits [[strokeA]; [strokeA; rectB]] (initialState sampleIds))
  /\ (historyStep (commits [[strokeA]; [strokeA; rectB]] (initialState sampleIds)) + 1
      < length (history (commits [[strokeA]; [strokeA; rectB]] (initialState sampleIds))) ->
      handleUndo (handleRedo (commits [[strokeA]; [strokeA; rectB]]
                                      (initialState sampleIds)))
      = commits [[strokeA]; [strokeA; rectB]] (initialState sampleIds)).
Proof.
  assert (HL : Live (commits [[strokeA]; [strokeA; rectB]] (initialState sampleIds))).
  { split; [simpl; lia | reflexivity]. }
  split; [exact HL|].
  apply (undo_redo_inverse
           (commits [[strokeA]; [strokeA; rectB]] (initialState sampleIds)) HL).
Defined.

(** X2: [n] undos followed by [n] redos restore the live list and the cursor
    whenever the cursor is at least [n] (and the live list is the snapshot
    under it); the history is untouched. *)
Theorem undo_n_redo_n (n : nat) (s : State) :
  Live s ->
  n <= historyStep s ->
  let back := Nat.iter n handleRedo (Nat.iter n handleUndo s) in
  elements back = elements s
  /\ historyStep back = historyStep s
  /\ history back = history s.
Proof.
  intros HL Hn back.
  destruct (undo_iter n s HL) as (Hh1 & Hs1 & HL1).
  destruct (redo_iter n _ HL1) as (Hh2 & Hs2 & HL2).
  fold back in Hh2, Hs2, HL2.
  destruct HL as [Hlt Hel].
  assert (Hstep : historyStep back = historyStep s).
  { rewrite Hs2, Hs1, Hh1. lia. }
  split; [|split; [exact Hstep | congruence]].
  destruct HL2 as [_ He2]. rewrite He2, Hstep, Hh2, Hh1. now symmetry.
Qed.

Lemma undo_n_redo_n_witness :
  Live (commits [[strokeA]; [strokeA; rectB]] (initialState sampleIds))
  /\ 1 <= historyStep (commits [[strokeA]; [strokeA; rectB]] (initialState sampleIds))
  /\ elements (Nat.iter 1 handleRedo
                 (Nat.iter 1 handleUndo
                    (commits [[strokeA]; [strokeA; rectB]] (initialState sampleIds))))
     = elements (commits [[strokeA]; [strokeA; rectB]] (initialState sampleIds))
  /\ historyStep (Nat.iter 1 handleRedo
                    (Nat.iter 1 handleUndo
                       (commits [[strokeA]; [strokeA; rectB]] (initialState sampleIds))))
     = historyStep (commits [[strokeA]; [strokeA; rectB]] (initialState sampleIds))
  /\ history (Nat.iter 1 handleRedo
                (Nat.iter 1 handleUndo
                   (commits [[strokeA]; [strokeA; rectB]] (initialState sampleIds))))
     = history (commits [[strokeA]; [strokeA; rectB]] (initialState sampleIds)).
Proof.
  assert (HL : Live (commits [[strokeA]; [strokeA; rectB]] (initialState sampleIds))).
  { split; [simpl; lia | reflexivity]. }
  split; [exact HL|]. split; [simpl; lia|].
  apply (undo_n_redo_n 1
           (commits [[strokeA]; [strokeA; rectB]] (initialState sampleIds)) HL).
  simpl; lia.
Defined.

(** Past the cursor the round trip is lost: two undos and two redos from
    cursor [1] of three snapshots end on the third snapshot. *)
Example undo_redo_overshoot :
  let s := handleUndo (commits [[strokeA]; [strokeA; rectB]; []]
                               (initialState sampleIds)) in
  historyStep s = 1
  /\ historyStep (Nat.iter 2 handleRedo (Nat.iter 2 handleUndo s)) = 2.
Proof. split; reflexivity. Qed.

Lemma handleUndo_positive (s : State) :
  0 < historyStep s ->
  elements (handleUndo s)
  = match nth_error (history s) (historyStep s - 1) with
    | Some snapshot => snapshot
    | None => []
    end
  /\ historyStep (handleUndo s) = historyStep s - 1
  /\ history (handleUndo s) = history s.
Proof.
  intros Hpos. unfold handleUndo.
  replace (0 <? historyStep s) with true by (symmetry; now apply Nat.ltb_lt).
  repeat split.
Qed.

(** One undo after a commit gives back the list and the cursor it was made
    from. *)
Lemma commit_discards_redo_tail_core (l : list DrawingElement) (s : State) :
  Live s ->
  elements (handleUndo (commit l s)) = elements s
  /\ historyStep (handleUndo (commit l s)) = historyStep s.
Proof.
  intros [Hlt Hel].
  assert (Hlen : length (firstn (historyStep s + 1) (history s)) = historyStep s + 1)
    by (rewrite length_firstn; lia).
  pose proof (commit_historyStep l s) as Hs. rewrite Hlen in Hs.
  pose proof (commit_history l s) as Hh.
  destruct (handleUndo_positive (commit l s)) as (He' & Hs' & _); [lia|].
  rewrite He', Hs', Hs, Hh.
  replace (historyStep s + 1 - 1) with (historyStep s) by lia.
  split; [|reflexivity].
  rewrite nth_error_app1 by lia.
  rewrite nth_error_firstn.
  replace (historyStep s <? historyStep s + 1) with true
    by (symmetry; apply Nat.ltb_lt; lia).
  rewrite (nth_error_nth' (history s) [] Hlt). now symmetry.
Qed.

(** X3: a commit discards the redo tail and can be undone: after any commit
    redo is a no-op, the snapshots up to the old cursor are kept and the new
    list is the last one; if the live list was the snapshot under the cursor,
    one undo restores that list and the old cursor. *)
Theorem commit_discards_redo_tail (l : list DrawingElement) (s : State) :
  handleRedo (commit l s) = commit l s
  /\ history (commit l s) = firstn (historyStep s + 1) (history s) ++ [l]
  /\ (Live s ->
      elements (handleUndo (commit l s)) = elements s
      /\ historyStep (handleUndo (commit l s)) = historyStep s).
Proof.
  split; [|split; [reflexivity|]].
  - unfold handleRedo.
    rewrite commit_history, commit_historyStep, length_app. simpl.
    replace (length (firstn (historyStep s + 1) (history s))
             <? length (firstn (historyStep s + 1) (history s)) + 1 - 1)
      with false; [reflexivity|].
    symmetry. apply Nat.ltb_ge. lia.
  - intros [Hlt Hel].
    assert (Hlen : length (firstn (historyStep s + 1) (history s)) = historyStep s + 1)
      by (rewrite length_firstn; lia).
    pose proof (commit_historyStep l s) as Hs. rewrite Hlen in Hs.
    pose proof (commit_history l s) as Hh.
    destruct (handleUndo_positive (commit l s)) as (He' & Hs' & _); [lia|].
    rewrite He', Hs', Hs, Hh.
    replace (historyStep s + 1 - 1) with (historyStep s) by lia.
    split; [|reflexivity].
    rewrite nth_error_app1 by lia.
    rewrite nth_error_firstn.
    replace (historyStep s <? historyStep s + 1) with true
      by (symmetry; apply Nat.ltb_lt; lia).
    rewrite (nth_error_nth' (history s) [] Hlt). now symmetry.
Qed.

Lemma commit_discards_redo_tail_witness :
  handleRedo (commit [strokeA] oneRectState) = commit [strokeA] oneRectState
  /\ history (commit [strokeA] oneRectState)
     = firstn (historyStep oneRectState + 1) (history oneRectState) ++ [[strokeA]]
  /\ (Live oneRectState ->
      elements (handleUndo (commit [strokeA] oneRectState)) = elements oneRectState
      /\ historyStep (handleUndo (commit [strokeA] oneRectState))
         = historyStep oneRectState).
Proof. exact (commit_discards_redo_tail [strokeA] oneRectState). Defined.

Lemma runOps_Live (ops : list HistoryOp) (s : State) :
  clearFree ops = true -> Live s -> Live (runOps ops s).
Proof.
  revert s. induction ops as [|op ops IH]; intros s Hc HL; [exact HL|].
  simpl in Hc. apply andb_true_iff in Hc as [Hop Hc].
  simpl. apply IH; [exact Hc|].
  destruct op; simpl in *; try discriminate.
  - apply commit_Live.
  - now apply handleUndo_Live.
  - now apply handleRedo_Live.
Qed.

(** X4: once a commit has been made, after any further commits, undos and
    redos the live list is the snapshot under the cursor. *)
Theorem live_list_is_cursor_snapshot (rnd : nat -> string) (ops : list HistoryOp) :
  clearFree ops = true ->
  existsb isCommit ops = true ->
  let s := runOps ops (initialState rnd) in
  elements s = nth (historyStep s) (history s) []
  /\ historyStep s < length (history s).
Proof.
  intros Hc He s.
  assert (Hgen : forall ops' st,
             clearFree ops' = true -> existsb isCommit ops' = true ->
             history st = [] -> historyStep st = 0 ->
             Live (runOps ops' st)).
  { induction ops' as [|op ops' IH]; intros st Hc' He' Hh Hs; [discriminate|].
    simpl in Hc'. apply andb_true_iff in Hc' as [Hop Hc'].
    destruct op; simpl in Hop; try discriminate.
    - simpl. apply runOps_Live; [exact Hc' | apply commit_Live].
    - simpl in He'. simpl runOps. unfold handleUndo. rewrite Hs. simpl.
      now apply IH.
    - simpl in He'. simpl runOps. unfold handleRedo. rewrite Hs, Hh. simpl.
      now apply IH. }
  destruct (Hgen ops (initialState rnd) Hc He eq_refl eq_refl) as [H1 H2].
  now split.
Qed.

Lemma live_list_is_cursor_snapshot_witness :
  clearFree [OpUndo; OpCommit [strokeA]; OpCommit [strokeA; rectB]; OpUndo] = true
  /\ existsb isCommit [OpUndo; OpCommit [strokeA]; OpCommit [strokeA; rectB]; OpUndo]
     = true
  /\ elements (runOps [OpUndo; OpCommit [strokeA]; OpCommit [strokeA; rectB]; OpUndo]
                      (initialState sampleIds))
     = nth (historyStep
              (runOps [OpUndo; OpCommit [strokeA]; OpCommit [strokeA; rectB]; OpUndo]
                      (initialState sampleIds)))
           (history
              (runOps [OpUndo; OpCommit [strokeA]; OpCommit [strokeA; rectB]; OpUndo]
                      (initialState sampleIds)))
           []
  /\ historyStep (runOps [OpUndo; OpCommit [strokeA]; OpCommit [strokeA; rectB]; OpUndo]
                         (initialState sampleIds))
     < length (history
                 (runOps [OpUndo; OpCommit [strokeA]; OpCommit [strokeA; rectB]; OpUndo]
                         (initialState sampleIds))).
Proof.
  split; [reflexivity|]. split; [reflexivity|].
  apply (live_list_is_cursor_snapshot sampleIds
           [OpUndo; OpCommit [strokeA]; OpCommit [strokeA; rectB]; OpUndo]);
    reflexivity.
Defined.

Lemma undo_after_clear (old : list DrawingElement) (k : nat) :
  forall s,
    history s = [old] ->
    elements s = [] ->
    forall n, historyStep s = n -> k <= n -> 1 <= k ->
    elements (Nat.iter k handleUndo s) = (if n - k =? 0 then old else [])
    /\ historyStep (Nat.iter k handleUndo s) = n - k
    /\ history (Nat.iter k handleUndo s) = [old].
Proof.
  induction k as [|k IH]; intros s Hh He n Hs Hk H1; [lia|].
  simpl Nat.iter.
  destruct (Nat.eq_dec k 0) as [-> | Hk0].
  - simpl Nat.iter.
    destruct (handleUndo_positive s) as (He' & Hs' & Hh'); [lia|].
    rewrite He', Hs', Hh', Hh, Hs. repeat split.
    destruct (n - 1) as [|m] eqn:Hn; simpl; [reflexivity|].
    now destruct m.
  - destruct (IH s Hh He n Hs) as (He1 & Hs1 & Hh1); [lia | lia |].
    destruct (handleUndo_positive (Nat.iter k handleUndo s)) as (He' & Hs' & Hh');
      [lia|].
    rewrite He', Hs', Hh', Hh1, Hs1.
    replace (n - k - 1) with (n - S k) by lia. repeat split.
    destruct (n - S k) as [|m] eqn:Hn; simpl; [reflexivity|].
    now destruct m.
Qed.

(** X5: a clear can be undone: when [n >= 1] snapshots were stored, [n]
    undos after [clear()] bring back the list that was live before it. *)
Theorem clear_then_undos_restore (s : State) :
  1 <= length (history s) ->
  elements (Nat.iter (length (history s)) handleUndo (handleClear s)) = elements s.
Proof.
  intros Hn.
  destruct (undo_after_clear (elements s) (length (history s)) (handleClear s)
              eq_refl eq_refl (length (history s)) eq_refl)
    as (He & _); [lia | lia |].
  rewrite He, Nat.sub_diag. reflexivity.
Qed.

Lemma clear_then_undos_restore_witness :
  1 <= length (history strokeAndRectState)
  /\ elements (Nat.iter (length (history strokeAndRectState)) handleUndo
                 (handleClear strokeAndRectState))
     = elements strokeAndRectState.
Proof.
  split; [simpl; lia|].
  apply (clear_then_undos_restore strokeAndRectState). simpl; lia.
Defined.

(** X6: the first commit after [clear()] leaves exactly two snapshots, the
    list that was live before the clear and the committed list, with the
    cursor on the second; whatever the history held before the clear is
    gone. *)
Theorem commit_after_clear (l : list DrawingElement) (s : State) :
  history (commit l (handleClear s)) = [elements s; l]
  /\ historyStep (commit l (handleClear s)) = 1
  /\ elements (commit l (handleClear s)) = l.
Proof.
  assert (Hf : firstn (length (history s) + 1) [elements s] = [elements s]).
  { apply firstn_all2. simpl. lia. }
  split; [|split; [|reflexivity]].
  - rewrite commit_history.
    change (historyStep (handleClear s)) with (length (history s)).
    change (history (handleClear s)) with [elements s].
    now rewrite Hf.
  - rewrite commit_historyStep.
    change (historyStep (handleClear s)) with (length (history s)).
    change (history (handleClear s)) with [elements s].
    now rewrite Hf.
Qed.

(** ** Erasers: what they leave behind *)

Section EraserResults.

Variable eraserSize : float.
Variable eraserPoints : list Point.
Variable rnd : nat -> string.

Lemma splittable_inv (element : DrawingElement) (pts : list Point) :
  splittable element = Some pts ->
  points element = Some pts /\ hasType Tbrush element = true /\ 1 < length pts.
Proof.
  unfold splittable. destruct (points element) as [ps|]; [|discriminate].
  destruct (hasType Tbrush element) eqn:Ht; [|discriminate]. simpl.
  destruct (1 <? length ps) eqn:Hl; [|discriminate].
  intros [= <-]. apply Nat.ltb_lt in Hl. auto.
Qed.

Lemma anyPointNear_false_far (pts : list Point) :
  anyPointNear eraserSize eraserPoints pts = false ->
  Forall (Far eraserSize eraserPoints) pts.
Proof.
  induction pts as [|p ps IH]; simpl; [constructor|].
  destruct (nearEraserPath eraserSize eraserPoints p) eqn:Hp; [discriminate|].
  intros H. constructor; [now apply nearEraserPath_Far | now apply IH].
Qed.

Lemma MaximalRuns_far (pts : list Point) (runs : list (list Point)) :
  MaximalRuns eraserSize eraserPoints pts runs ->
  Forall (Forall (Far eraserSize eraserPoints)) runs.
Proof. induction 1; auto. Qed.

Lemma MaximalRuns_contiguous (pts : list Point) (runs : list (list Point)) :
  MaximalRuns eraserSize eraserPoints pts runs ->
  forall run, In run runs -> exists before after, pts = before ++ run ++ after.
Proof.
  induction 1 as [| p rest runs _ _ IH | run0 rest runs _ _ _ _ IH];
    intros run Hin.
  - destruct Hin.
  - destruct (IH run Hin) as (b & a & ->). now exists (p :: b), a.
  - destruct Hin as [<- | Hin].
    + now exists [], rest.
    + destruct (IH run Hin) as (b & a & ->).
      exists (run0 ++ b), a. now rewrite <- app_assoc.
Qed.

(** A stroke none of whose points is within the radius goes through the
    splitting branch unchanged. *)
Lemma pixelEraseElement_far_stroke (n : nat) (element : DrawingElement)
      (pts : list Point) :
  splittable element = Some pts ->
  Forall (Far eraserSize eraserPoints) pts ->
  pixelEraseElement eraserSize eraserPoints rnd n element = ([element], n).
Proof.
  intros Hsp Hfar. unfold pixelEraseElement. rewrite Hsp.
  destruct (splittable_inv element pts Hsp) as (Hp & _ & Hlen).
  destruct (splitSegments_runs eraserSize eraserPoints pts) as (runs & Hruns & Heq).
  assert (Hne : pts <> []) by (destruct pts; [simpl in Hlen; lia | discriminate]).
  rewrite (MaximalRuns_unique _ _ _ _ _ Hruns (MaximalRuns_all_far _ _ _ Hne Hfar))
    in Heq.
  simpl in Heq. unfold longRun in Heq.
  apply Nat.ltb_lt in Hlen. rewrite Hlen in Heq.
  rewrite Heq, segmentElements_spec. simpl.
  now rewrite (withPointsId_same element pts Hp), Nat.add_0_r.
Qed.

Lemma pixelEraseElement_untouched (n : nat) (element : DrawingElement) :
  intersects eraserSize eraserPoints element = false ->
  pixelEraseElement eraserSize eraserPoints rnd n element = ([element], n).
Proof.
  intros Hno.
  destruct (splittable element) as [pts|] eqn:Hsp.
  - apply (pixelEraseElement_far_stroke n element pts Hsp).
    destruct (splittable_inv element pts Hsp) as (Hp & _ & _).
    unfold intersects in Hno. rewrite Hp in Hno.
    now apply anyPointNear_false_far.
  - unfold pixelEraseElement. now rewrite Hsp, Hno.
Qed.

Lemma not_Touched_intersects (element : DrawingElement) :
  ~ Touched eraserSize eraserPoints element ->
  intersects eraserSize eraserPoints element = false.
Proof.
  intros H. destruct (intersects eraserSize eraserPoints element) eqn:Hi;
    [|reflexivity].
  exfalso. apply H. now apply intersects_Touched.
Qed.

Lemma pixelEraseLoop_untouched (els : list DrawingElement) :
  Forall (fun element => notEraser element
                         /\ ~ Touched eraserSize eraserPoints element) els ->
  forall n acc,
    pixelEraseLoop eraserSize eraserPoints rnd n els acc = (acc ++ els, n).
Proof.
  induction 1 as [|element rest [Hne Hnt] _ IH]; intros n acc; simpl.
  - now rewrite app_nil_r.
  - unfold notEraser in Hne. rewrite Hne.
    rewrite (pixelEraseElement_untouched n element
               (not_Touched_intersects element Hnt)).
    rewrite IH, <- app_assoc. reflexivity.
Qed.

(** What one element leaves: no eraser path and nothing within the radius. *)
Lemma pixelEraseElement_clean (n : nat) (element : DrawingElement) :
  notEraser element ->
  Forall (fun e => notEraser e /\ ~ Touched eraserSize eraserPoints e)
         (fst (pixelEraseElement eraserSize eraserPoints rnd n element)).
Proof.
  intros Hne. unfold pixelEraseElement.
  destruct (splittable element) as [pts|] eqn:Hsp.
  - destruct (splittable_inv element pts Hsp) as (_ & Ht & _).
    destruct (splitSegments_runs eraserSize eraserPoints pts) as (runs & Hruns & Heq).
    rewrite Heq, segmentElements_spec. simpl fst.
    pose proof (MaximalRuns_far pts runs Hruns) as Hfar.
    assert (Hfar' : Forall (Forall (Far eraserSize eraserPoints))
                           (filter longRun runs)).
    { apply Forall_forall. intros r Hr. apply filter_In in Hr as [Hr _].
      rewrite Forall_forall in Hfar. now apply Hfar. }
    assert (Hpiece : forall seg newId,
               Forall (Far eraserSize eraserPoints) seg ->
               notEraser (withPointsId element seg newId)
               /\ ~ Touched eraserSize eraserPoints (withPointsId element seg newId)).
    { intros seg newId Hseg. split; [exact Hne|].
      rewrite <- intersects_Touched. unfold intersects. simpl.
      now rewrite (anyPointNear_all_far _ _ _ Hseg). }
    destruct (filter longRun runs) as [|first later]; simpl; [constructor|].
    inversion Hfar' as [|? ? Hfirst Hlater]; subst.
    constructor; [now apply Hpiece|].
    apply Forall_forall. intros e' He'.
    apply in_map_iff in He' as ([k seg] & <- & Hin). simpl.
    apply Hpiece. apply in_combine_r in Hin.
    rewrite Forall_forall in Hlater. now apply Hlater.
  - destruct (intersects eraserSize eraserPoints element) eqn:Hi; simpl;
      [constructor|].
    constructor; [|constructor]. split; [exact Hne|].
    rewrite <- intersects_Touched. congruence.
Qed.

Lemma pixelEraseLoop_clean (els : list DrawingElement) :
  forall n acc,
    Forall (fun e => notEraser e /\ ~ Touched eraserSize eraserPoints e) acc ->
    Forall (fun e => notEraser e /\ ~ Touched eraserSize eraserPoints e)
           (fst (pixelEraseLoop eraserSize eraserPoints rnd n els acc)).
Proof.
  induction els as [|element rest IH]; intros n acc Hacc; simpl; [exact Hacc|].
  destruct (isEraserElement element) eqn:He; [now apply IH|].
  pose proof (pixelEraseElement_clean n element He) as Hout.
  destruct (pixelEraseElement eraserSize eraserPoints rnd n element) as [out n'].
  apply IH. apply Forall_app. now split.
Qed.

(** X7: the pixel eraser is the identity on a committed list none of whose
    elements has a defining point within the eraser radius: every element,
    of whatever kind, is kept as it is and in order, and [generateId] is not
    called. *)
Theorem pixel_eraser_untouched_list (n : nat) (els : list DrawingElement) :
  Forall (fun element => notEraser element
                         /\ ~ Touched eraserSize eraserPoints element) els ->
  pixelErase eraserSize eraserPoints rnd n els = (els, n).
Proof.
  intros H. unfold pixelErase. now rewrite (pixelEraseLoop_untouched els H).
Qed.

(** X8: whatever the committed list, the pixel eraser leaves no eraser path
    and no element with a defining point within the eraser radius of an
    eraser-path point. *)
Theorem pixel_eraser_result_clean (n : nat) (els : list DrawingElement) :
  Forall (fun e => notEraser e /\ ~ Touched eraserSize eraserPoints e)
         (fst (pixelErase eraserSize eraserPoints rnd n els)).
Proof. apply pixelEraseLoop_clean. constructor. Qed.

(** X9: erasing twice along the same path is erasing once: a second pass of
    the pixel eraser over the result of the first changes nothing and draws
    no identifier. *)
Theorem pixel_eraser_idempotent (n : nat) (els : list DrawingElement) :
  let once := pixelErase eraserSize eraserPoints rnd n els in
  pixelErase eraserSize eraserPoints rnd (snd once) (fst once)
  = (fst once, snd once).
Proof.
  intros once. unfold pixelErase at 1.
  rewrite (pixelEraseLoop_untouched (fst once)); [reflexivity|].
  apply pixelEraseLoop_clean. constructor.
Qed.

Lemma pixelEraseLoop_unsplit (els : list DrawingElement) :
  Forall (fun element => splittable element = None) els ->
  forall n acc,
    pixelEraseLoop eraserSize eraserPoints rnd n els acc
    = (acc ++ strokeErase eraserSize eraserPoints els, n).
Proof.
  induction 1 as [|element rest Hsp _ IH]; intros n acc; simpl.
  - now rewrite app_nil_r.
  - destruct (isEraserElement element); [apply IH|].
    unfold pixelEraseElement. rewrite Hsp.
    destruct (intersects eraserSize eraserPoints element); simpl.
    + rewrite IH, app_nil_r. reflexivity.
    + rewrite IH, <- app_assoc. reflexivity.
Qed.

(** X10: the two erasers differ on strokes only: on a list without a brush
    stroke of more than one point, the pixel eraser gives the list the stroke
    eraser gives for the same size and path. *)
Theorem erasers_agree_without_strokes (n : nat) (els : list DrawingElement) :
  Forall (fun element => splittable element = None) els ->
  pixelErase eraserSize eraserPoints rnd n els
  = (strokeErase eraserSize eraserPoints els, n).
Proof.
  intros H. unfold pixelErase. now rewrite (pixelEraseLoop_unsplit els H).
Qed.

(** X11: each element the pixel eraser leaves of a stroke holds a contiguous
    piece of the stroke's path, of more than one point. *)
Theorem pixel_eraser_pieces_contiguous (n : nat) (element : DrawingElement)
                                       (pts : list Point) :
  splittable element = Some pts ->
  forall piece,
    In piece (fst (pixelEraseElement eraserSize eraserPoints rnd n element)) ->
    exists before seg after,
      points piece = Some seg /\ pts = before ++ seg ++ after /\ 1 < length seg.
Proof.
  intros Hsp piece Hin. unfold pixelEraseElement in Hin. rewrite Hsp in Hin.
  destruct (splitSegments_runs eraserSize eraserPoints pts) as (runs & Hruns & Heq).
  rewrite Heq, segmentElements_spec in Hin. simpl fst in Hin.
  assert (Hseg : forall seg, In seg (filter longRun runs) ->
                   exists before after,
                     pts = before ++ seg ++ after /\ 1 < length seg).
  { intros seg Hs. apply filter_In in Hs as [Hs Hl].
    destruct (MaximalRuns_contiguous pts runs Hruns seg Hs) as (b & a & ->).
    exists b, a. split; [reflexivity | now apply Nat.ltb_lt]. }
  destruct (filter longRun runs) as [|first later]; [destruct Hin|].
  simpl in Hin. destruct Hin as [<- | Hin].
  - destruct (Hseg first (or_introl eq_refl)) as (b & a & Hp & Hl).
    now exists b, first, a.
  - apply in_map_iff in Hin as ([k seg] & <- & Hin). simpl.
    apply in_combine_r in Hin.
    destruct (Hseg seg (or_intror Hin)) as (b & a & Hp & Hl).
    now exists b, seg, a.
Qed.

End EraserResults.

Lemma pixel_eraser_untouched_list_witness :
  Forall (fun element => notEraser element
                         /\ ~ Touched 20 [mkPoint 45 30] element)
         [tenPointStroke; rectB; imageD]
  /\ pixelErase 20 [mkPoint 45 30] sampleIds 0 [tenPointStroke; rectB; imageD]
     = ([tenPointStroke; rectB; imageD], 0).
Proof.
  assert (H : Forall (fun element => notEraser element
                                     /\ ~ Touched 20 [mkPoint 45 30] element)
                     [tenPointStroke; rectB; imageD]).
  { repeat constructor;
      rewrite <- intersects_Touched; vm_compute; discriminate. }
  split; [exact H|].
  apply (pixel_eraser_untouched_list 20 [mkPoint 45 30] sampleIds 0
           [tenPointStroke; rectB; imageD] H).
Defined.

Lemma erasers_agree_without_strokes_witness :
  Forall (fun element => splittable element = None) [rectB; textC; imageD]
  /\ pixelErase 20 midEraserPath sampleIds 0 [rectB; textC; imageD]
     = (strokeErase 20 midEraserPath [rectB; textC; imageD], 0).
Proof.
  assert (H : Forall (fun element => splittable element = None)
                     [rectB; textC; imageD]) by (repeat constructor).
  split; [exact H|].
  apply (erasers_agree_without_strokes 20 midEraserPath sampleIds 0
           [rectB; textC; imageD] H).
Defined.

Lemma pixel_eraser_pieces_contiguous_witness :
  splittable tenPointStroke = Some tenPoints
  /\ forall piece,
       In piece (fst (pixelEraseElement 20 midEraserPath sampleIds 0 tenPointStroke)) ->
       exists before seg after,
         points piece = Some seg /\ tenPoints = before ++ seg ++ after
         /\ 1 < length seg.
Proof.
  split; [reflexivity|].
  apply (pixel_eraser_pieces_contiguous 20 midEraserPath sampleIds 0
           tenPointStroke tenPoints).
  reflexivity.
Defined.

(** ** The radii of the two erasers *)

Lemma pointWithin_Touched (eraserSize : float) (eraserPoints : list Point)
      (element : DrawingElement) :
  pointWithin (eraserSize / 2) eraserPoints element = true
  <-> Touched eraserSize eraserPoints element.
Proof.
  unfold pointWithin, Touched, Within, withinEraser.
  rewrite existsb_exists. split.
  - intros (p & Hp & Hq). apply existsb_exists in Hq as (q & Hq & Hd).
    exists p. split; [exact Hp|]. exists q. auto.
  - intros (p & Hp & q & Hq & Hd). exists p. split; [exact Hp|].
    apply existsb_exists. exists q. auto.
Qed.

Lemma pointWithin_exists (radius : float) (path : list Point)
      (element : DrawingElement) :
  pointWithin radius path element = true
  <-> exists p q, In p (definingPoints element) /\ In q path
                  /\ (distance p q <? radius)%float = true.
Proof.
  unfold pointWithin. rewrite existsb_exists. split.
  - intros (p & Hp & Hq). apply existsb_exists in Hq as (q & Hq & Hd).
    exists p, q. auto.
  - intros (p & q & Hp & Hq & Hd). exists p. split; [exact Hp|].
    apply existsb_exists. exists q. auto.
Qed.

Lemma intersects_pointWithin (eraserSize : float) (eraserPoints : list Point)
      (element : DrawingElement) :
  intersects eraserSize eraserPoints element
  = pointWithin (eraserSize / 2) eraserPoints element.
Proof.
  apply eq_true_iff_eq.
  rewrite intersects_Touched, pointWithin_Touched. reflexivity.
Qed.

Lemma strokeErase_filter (eraserSize : float) (eraserPoints : list Point)
      (els : list DrawingElement) :
  strokeErase eraserSize eraserPoints els
  = filter (fun element =>
              negb (isEraserElement element)
              && negb (pointWithin (eraserSize / 2) eraserPoints element))
           els.
Proof.
  unfold strokeErase. apply filter_ext. intros element.
  rewrite intersects_pointWithin. now destruct (isEraserElement element).
Qed.

(** The pixel eraser keeps, as it is, an element no defining point of which
    is within its radius. *)
Lemma pixelErase_keeps (eraserSize : float) (eraserPoints : list Point)
      (rnd : nat -> string) (element : DrawingElement)
      (els : list DrawingElement) :
  In element els ->
  isEraserElement element = false ->
  pointWithin (eraserSize / 2) eraserPoints element = false ->
  forall n, In element (fst (pixelErase eraserSize eraserPoints rnd n els)).
Proof.
  intros Hin Hne Hfar. rewrite <- intersects_pointWithin in Hfar.
  unfold pixelErase.
  induction els as [|a rest IH]; intros n; [destruct Hin|].
  simpl. destruct (isEraserElement a) eqn:Ha.
  - destruct Hin as [-> | Hin]; [congruence | now apply IH].
  - destruct (pixelEraseElement eraserSize eraserPoints rnd n a) as [out n'] eqn:Hout.
    rewrite pixelEraseLoop_acc. cbn [fst]. apply in_or_app.
    destruct Hin as [-> | Hin].
    + left. rewrite (pixelEraseElement_untouched eraserSize eraserPoints rnd n
                       element Hfar) in Hout.
      injection Hout as <- _. now left.
    + right. now apply IH.
Qed.

(** C10: a stroke-eraser gesture starts a provisional element whose
    [brushSize] is twice the configured brush size [b], and its release
    removes from the committed list every element with a defining point
    strictly within [(b * 2) / 2] of a point of the eraser path, keeping the
    others in order; for the sizes the slider offers that radius is [b]
    itself, the full brush size, and an element goes exactly when a defining
    point is strictly within [b] of a path point.  A pixel-eraser gesture
    starts with [brushSize = b] and works within [b / 2], half of that
    radius: no element it leaves has a defining point strictly within [b / 2]
    of a path point, and it keeps every element that has none. *)
Theorem stroke_eraser_uses_full_brush_size
        (props : DrawingCanvasProps) (dom : Dom)
        (e : MouseEvent) (moves : list MouseEvent) (s : State) :
  idle s ->
  plainPress e s ->
  let b := DrawingSettings.brushSize (settings props) in
  let path := getMousePos dom s e :: map (getMousePos dom s) moves in
  let s1 := runMoves props dom moves (handleMouseDown props dom e s) in
  (currentTool props = TstrokeEraser ->
      (exists cur,
          currentElement s1 = Some cur /\ hasType TstrokeEraser cur = true
          /\ brushSize cur = (b * 2)%float /\ points cur = Some path)
      /\ elements (handleMouseUp s1)
         = filter (fun element =>
                     negb (isEraserElement element)
                     && negb (pointWithin (b * 2 / 2) path element))
                  (elements s)
      /\ (sliderBrushSize b ->
          elements (handleMouseUp s1)
          = filter (fun element =>
                      negb (isEraserElement element)
                      && negb (pointWithin b path element))
                   (elements s)
          /\ forall element,
               In element (elements s) -> isEraserElement element = false ->
               (~ In element (elements (handleMouseUp s1))
                <-> exists p q, In p (definingPoints element) /\ In q path
                                /\ (distance p q <? b)%float = true)))
  /\ (currentTool props = Teraser ->
      (exists cur,
          currentElement s1 = Some cur /\ hasType Teraser cur = true
          /\ brushSize cur = b /\ points cur = Some path)
      /\ (forall element,
            In element (elements (handleMouseUp s1)) ->
            isEraserElement element = false
            /\ pointWithin (b / 2) path element = false)
      /\ (forall element,
            In element (elements s) -> isEraserElement element = false ->
            pointWithin (b / 2) path element = false ->
            In element (elements (handleMouseUp s1))))
  /\ (sliderBrushSize b -> (b * 2 / 2 = b /\ b = 2 * (b / 2))%float).
Proof.
  intros (Hpan & Hsel & Hdrag & Hdraw) Hpress b path s1.
  split; [|split; [|apply slider_double_half]].
  - intros Htool.
    assert (Hs1 : s1 = setCurrentElement
                         (Some (let cur :=
                                  newPathElement TstrokeEraser (getMousePos dom s e)
                                    (DrawingSettings.color (settings props))
                                    (b * 2)%float 1 (generateId s) in
                                withPointsId cur path (id cur)))
                         (setIdCalls (S (idCalls s)) (setIsDrawing true s))).
    { unfold s1. rewrite (handleMouseDown_strokeEraser props dom e s Hpress Htool).
      rewrite (runMoves_freehand props dom moves _
                 (newPathElement TstrokeEraser (getMousePos dom s e)
                    (DrawingSettings.color (settings props))
                    (b * 2)%float 1 (generateId s))
                 [getMousePos dom s e]);
        [reflexivity | now rewrite Htool | assumption | assumption | assumption
         | reflexivity | reflexivity | reflexivity]. }
    assert (Hup : elements (handleMouseUp s1)
                  = strokeErase (b * 2)%float path (elements s)).
    { rewrite Hs1. unfold handleMouseUp. simpl. rewrite Hpan, Hsel, Hdrag.
      reflexivity. }
    split; [|split].
    + eexists. rewrite Hs1. simpl. repeat split.
    + rewrite Hup. apply strokeErase_filter.
    + intros Hslider.
      destruct (slider_double_half b Hslider) as [Hhalf _].
      assert (Hb : elements (handleMouseUp s1)
                   = filter (fun element =>
                               negb (isEraserElement element)
                               && negb (pointWithin b path element))
                            (elements s)).
      { rewrite Hup, strokeErase_filter, Hhalf. reflexivity. }
      split; [exact Hb|].
      intros element Hin Hne.
      rewrite Hb, filter_In, Hne, <- pointWithin_exists. simpl.
      destruct (pointWithin b path element); simpl; split.
      * reflexivity.
      * intros _ [_ H]. discriminate.
      * intros H. exfalso. apply H. auto.
      * discriminate.
  - intros Htool.
    assert (Hs1 : s1 = setCurrentElement
                         (Some (let cur :=
                                  newPathElement Teraser (getMousePos dom s e)
                                    (DrawingSettings.color (settings props))
                                    b (DrawingSettings.opacity (settings props))
                                    (generateId s) in
                                withPointsId cur path (id cur)))
                         (setIdCalls (S (idCalls s)) (setIsDrawing true s))).
    { unfold s1. rewrite (handleMouseDown_eraser props dom e s Hpress Htool).
      rewrite (runMoves_freehand props dom moves _
                 (newPathElement Teraser (getMousePos dom s e)
                    (DrawingSettings.color (settings props))
                    b (DrawingSettings.opacity (settings props)) (generateId s))
                 [getMousePos dom s e]);
        [reflexivity | now rewrite Htool | assumption | assumption | assumption
         | reflexivity | reflexivity | reflexivity]. }
    assert (Hup : elements (handleMouseUp s1)
                  = fst (pixelErase b path (randomIds s) (S (idCalls s)) (elements s))).
    { rewrite Hs1. unfold handleMouseUp. simpl. rewrite Hpan, Hsel, Hdrag.
      unfold finishDrawing. simpl.
      destruct (pixelErase b path (randomIds s) (S (idCalls s)) (elements s)).
      reflexivity. }
    split; [|split].
    + eexists. rewrite Hs1. simpl. repeat split.
    + intros element Hin. rewrite Hup in Hin.
      pose proof (pixelEraseLoop_clean b path (randomIds s) (elements s)
                    (S (idCalls s)) [] (Forall_nil _)) as Hclean.
      rewrite Forall_forall in Hclean.
      destruct (Hclean element Hin) as [Hne Hnt].
      split; [exact Hne|].
      destruct (pointWithin (b / 2) path element) eqn:Hw; [|reflexivity].
      exfalso. apply Hnt. now apply pointWithin_Touched.
    + intros element Hin Hne Hfar. rewrite Hup.
      now apply pixelErase_keeps.
Qed.

(** A press of the stroke eraser at [(45, 2)] removes the stroke through
    [(45, 0)], at distance 2 and so within the brush size 3; the same press
    of the pixel eraser, whose radius is 1.5, leaves it. *)
Example eraser_radii_sample :
  elements (handleMouseUp
              (handleMouseDown strokeEraserProps sampleDom pressOnStroke
                 passedStrokeState))
  = [rectB]
  /\ elements (handleMouseUp
                 (handleMouseDown eraserProps sampleDom pressOnStroke
                    passedStrokeState))
     = [passedStroke; rectB].
Proof. vm_compute. split; reflexivity. Qed.

Lemma stroke_eraser_uses_full_brush_size_witness :
  idle passedStrokeState
  /\ plainPress pressOnStroke passedStrokeState
  /\ sliderBrushSize (DrawingSettings.brushSize (settings strokeEraserProps))
  /\ (3 * 2 / 2 = 3 /\ 3 = 2 * (3 / 2))%float
  /\ (exists cur,
         currentElement
           (handleMouseDown strokeEraserProps sampleDom pressOnStroke
              passedStrokeState)
         = Some cur
         /\ hasType TstrokeEraser cur = true
         /\ brushSize cur = (3 * 2)%float
         /\ points cur = Some [mkPoint 45 2])
  /\ elements
        (handleMouseUp
           (handleMouseDown strokeEraserProps sampleDom pressOnStroke
              passedStrokeState))
     = filter (fun element =>
                 negb (isEraserElement element)
                 && negb (pointWithin 3 [mkPoint 45 2] element))
              [passedStroke; rectB]
  /\ ~ In passedStroke
          (elements
             (handleMouseUp
                (handleMouseDown strokeEraserProps sampleDom pressOnStroke
                   passedStrokeState))).
Proof.
  split; [repeat split|]. split; [split; reflexivity|].
  assert (Hslider : sliderBrushSize
                      (DrawingSettings.brushSize (settings strokeEraserProps))).
  { unfold sliderBrushSize, sliderValues. simpl. auto. }
  split; [exact Hslider|].
  destruct (stroke_eraser_uses_full_brush_size strokeEraserProps sampleDom
              pressOnStroke [] passedStrokeState)
    as (Hstroke & _ & Harith).
  - repeat split.
  - split; reflexivity.
  - destruct (Hstroke eq_refl) as (Hcur & _ & Hb).
    destruct (Hb Hslider) as [Hels Hiff].
    split; [exact (Harith Hslider)|]. split; [exact Hcur|].
    split; [exact Hels|].
    apply (Hiff passedStroke); [now left | reflexivity|].
    exists (mkPoint 45 0), (mkPoint 45 2).
    split; [now left|]. split; [now left | reflexivity].
Defined.

(** ** Hit testing *)

Lemma find_app_first (A : Type) (f : A -> bool) (l1 l2 : list A) :
  find f (l1 ++ l2)
  = match find f l1 with
    | Some a => Some a
    | None => find f l2
    end.
Proof.
  induction l1 as [|a l1 IH]; simpl; [reflexivity|].
  destruct (f a); [reflexivity | exact IH].
Qed.

Lemma find_rev_last (A : Type) (f : A -> bool) (l : list A) :
  match find f (rev l) with
  | Some a =>
      exists below above,
        l = below ++ a :: above /\ f a = true
        /\ Forall (fun b => f b = false) above
  | None => Forall (fun b => f b = false) l
  end.
Proof.
  induction l as [|a l IH]; simpl; [constructor|].
  rewrite find_app_first.
  destruct (find f (rev l)) as [hit|].
  - destruct IH as (below & above & -> & Hf & Hab).
    now exists (a :: below), above.
  - simpl. destruct (f a) eqn:Ha.
    + exists [], l. auto.
    + now constructor.
Qed.

(** X12: [findElementAtPoint] answers with the topmost element under the
    point: the element it returns is in the list and is hit, no element
    above it (later in the list) is hit, and it returns nothing exactly when
    no element is hit. *)
Theorem findElementAtPoint_topmost (els : list DrawingElement) (point : Point) :
  (forall el,
      findElementAtPoint els point = Some el ->
      exists below above,
        els = below ++ el :: above
        /\ hitsElement point el = true
        /\ Forall (fun e => hitsElement point e = false) above)
  /\ (findElementAtPoint els point = None
      <-> Forall (fun e => hitsElement point e = false) els).
Proof.
  unfold findElementAtPoint.
  pose proof (find_rev_last _ (hitsElement point) els) as H.
  destruct (find (hitsElement point) (rev els)) as [hit|].
  - split.
    + intros el [= <-]. exact H.
    + split; [discriminate|]. intros Hall.
      destruct H as (below & above & -> & Hf & _).
      apply Forall_app in Hall as [_ Hall]. inversion Hall; subst. congruence.
  - split; [discriminate|]. split; auto.
Qed.

(** On the sample list the rectangle, drawn last, wins over the stroke. *)
Example hit_test_sample :
  findElementAtPoint
    [mkElement (OfTool Tbrush) (Some [mkPoint 24 24; mkPoint 30 30]) None None
               "#000000" 3 1 None None None None None (Some "s") None None;
     rectB]
    (mkPoint 25 25)
  = Some rectB.
Proof. vm_compute. reflexivity. Qed.

(** ** Whole gestures *)

Lemma last_cons_default (A : Type) (a d : A) (l : list A) :
  last (a :: l) d = last l a.
Proof.
  revert a d. induction l as [|b l IH]; intros a d; [reflexivity|].
  change (last (a :: b :: l) d) with (last (b :: l) d).
  now rewrite (IH b d), (IH b a).
Qed.

Lemma last_map_default (A B : Type) (f : A -> B) (l : list A) (d : A) :
  last (map f l) (f d) = f (last l d).
Proof.
  induction l as [|a l IH]; [reflexivity|].
  destruct l as [|b l]; [reflexivity|]. exact IH.
Qed.

Section WholeGestures.

Variable props : DrawingCanvasProps.
Variable dom : Dom.

Lemma setSelectionRect_eta (s : State) :
  setSelectionRect (selectionRect s) s = s.
Proof. now destruct s. Qed.

Lemma runMoves_pan (moves : list MouseEvent) :
  forall (m : MouseEvent) (s : State),
    isPanning s = true ->
    runMoves props dom (m :: moves) s
    = setOffset (mkPoint (clientX (last moves m) - x (panStart s))
                         (clientY (last moves m) - y (panStart s)))
                s.
Proof.
  induction moves as [|m' rest IH]; intros m s Hpan.
  - unfold runMoves. simpl. unfold handleMouseMove. now rewrite Hpan.
  - change (runMoves props dom (m :: m' :: rest) s)
      with (runMoves props dom (m' :: rest) (handleMouseMove props dom m s)).
    unfold handleMouseMove at 1. rewrite Hpan.
    rewrite IH by exact Hpan. rewrite last_cons_default. reflexivity.
Qed.

(** X13: a pan gesture (middle button, or Alt with the left button) from any
    state touches neither the elements, the history nor the provisional
    element; it ends with panning off and the offset at the last pointer
    position minus the press position relative to the old offset. *)
Theorem pan_gesture (e : MouseEvent) (moves : list MouseEvent) (s : State) :
  panPress e = true ->
  let final := handleMouseUp (runMoves props dom moves (handleMouseDown props dom e s)) in
  elements final = elements s
  /\ history final = history s
  /\ historyStep final = historyStep s
  /\ currentElement final = currentElement s
  /\ scale final = scale s
  /\ isPanning final = false
  /\ offset final
     = match moves with
       | [] => offset s
       | m :: rest =>
           mkPoint (clientX (last rest m) - (clientX e - x (offset s)))
                   (clientY (last rest m) - (clientY e - y (offset s)))
       end%float.
Proof.
  intros Hpress final.
  assert (Hdown : handleMouseDown props dom e s
                  = setPanStart (mkPoint (clientX e - x (offset s))
                                         (clientY e - y (offset s)))
                      (setIsPanning true s)).
  { unfold handleMouseDown. unfold panPress in Hpress. now rewrite Hpress. }
  unfold final. rewrite Hdown.
  destruct moves as [|m rest].
  - unfold runMoves, handleMouseUp. simpl. repeat split.
  - rewrite runMoves_pan by reflexivity.
    unfold handleMouseUp. simpl. repeat split.
Qed.

Lemma runMoves_selecting (moves : list MouseEvent) :
  forall (s : State) (a b : Point),
    isPanning s = false -> isSelecting s = true ->
    selectionRect s = Some (a, b) ->
    runMoves props dom moves s
    = setSelectionRect (Some (a, last (map (getMousePos dom s) moves) b)) s.
Proof.
  induction moves as [|m rest IH]; intros s a b Hpan Hsel Hrect.
  - simpl. rewrite <- Hrect. symmetry. apply setSelectionRect_eta.
  - change (runMoves props dom (m :: rest) s)
      with (runMoves props dom rest (handleMouseMove props dom m s)).
    unfold handleMouseMove at 1. rewrite Hpan, Hsel, Hrect.
    rewrite (IH _ a (getMousePos dom s m)); try reflexivity; try assumption.
    simpl map. rewrite last_cons_default. reflexivity.
Qed.

(** X14: a selection gesture (a plain press while selection mode is on or
    the selection-area tool is active, moves, release) leaves the elements
    and the history alone and ends with the rectangle from the press point to
    the last pointer position, with selection mode switched off; if the
    canvas and the temporary canvas give a context, the crop export then
    answers with a data URL, not with [null]. *)
Theorem selection_gesture (e : MouseEvent) (moves : list MouseEvent) (s : State) :
  isPanning s = false ->
  panPress e = false ->
  isSelectionMode s = true \/ currentTool props = TselectionArea ->
  let final := handleMouseUp (runMoves props dom moves (handleMouseDown props dom e s)) in
  selectionRect final = Some (getMousePos dom s e, lastPoint dom s e moves)
  /\ isSelectionMode final = false
  /\ isSelecting final = false
  /\ elements final = elements s
  /\ history final = history s
  /\ historyStep final = historyStep s
  /\ (forall canvas,
        canvasRef dom = Some canvas -> hasContext2d canvas = true ->
        (forall w h, tempContext dom w h = true) ->
        exists url, handleGetSelection dom final = [Some url]).
Proof.
  intros Hpan Hpress Hmode final.
  assert (Hdown : handleMouseDown props dom e s
                  = setSelectionRect (Some (getMousePos dom s e, getMousePos dom s e))
                      (setIsSelectionMode true (setIsSelecting true s))).
  { unfold handleMouseDown. unfold panPress in Hpress. rewrite Hpress.
    destruct Hmode as [Hm | Ht].
    - now rewrite Hm.
    - rewrite Ht. now rewrite orb_true_r. }
  assert (Hfinal : final
                   = setIsSelectionMode false
                       (setIsSelecting false
                          (setSelectionRect
                             (Some (getMousePos dom s e, lastPoint dom s e moves))
                             (setIsSelectionMode true (setIsSelecting true s))))).
  { unfold final. rewrite Hdown.
    rewrite (runMoves_selecting moves _ (getMousePos dom s e) (getMousePos dom s e));
      try reflexivity; try assumption.
    unfold handleMouseUp. simpl. rewrite Hpan.
    change (getMousePos dom
              (setSelectionRect (Some (getMousePos dom s e, getMousePos dom s e))
                 (setIsSelectionMode true (setIsSelecting true s))))
      with (getMousePos dom s).
    rewrite last_map_default. reflexivity. }
  rewrite Hfinal. simpl. repeat split.
  intros canvas Hc Hctx Htmp. unfold handleGetSelection. simpl.
  rewrite Hc, Hctx, Htmp. simpl. eexists. reflexivity.
Qed.

Lemma handleMouseDown_shape (e : MouseEvent) (s : State) :
  plainPress e s ->
  shapeTool (currentTool props) = true ->
  handleMouseDown props dom e s
  = setIdCalls (S (idCalls s))
      (setCurrentElement
         (Some (newShapeElement (currentTool props) (getMousePos dom s e)
                  (DrawingSettings.color (settings props))
                  (DrawingSettings.brushSize (settings props))
                  (DrawingSettings.opacity (settings props))
                  (generateId s)))
         (setIsDrawing true s)).
Proof.
  intros [Hb Hm] Ht. unfold handleMouseDown. rewrite Hb, Hm.
  destruct (currentTool props); try discriminate; reflexivity.
Qed.

Lemma handleMouseDown_brush (e : MouseEvent) (s : State) :
  plainPress e s ->
  currentTool props = Tbrush ->
  handleMouseDown props dom e s
  = setIdCalls (S (idCalls s))
      (setCurrentElement
         (Some (newPathElement Tbrush (getMousePos dom s e)
                  (DrawingSettings.color (settings props))
                  (DrawingSettings.brushSize (settings props))
                  (DrawingSettings.opacity (settings props))
                  (generateId s)))
         (setIsDrawing true s)).
Proof.
  intros [Hb Hm] Ht. unfold handleMouseDown. rewrite Hb, Hm, Ht. reflexivity.
Qed.

(** While a shape gesture is in progress, every move replaces the end point
    of the provisional element and changes nothing else. *)
Lemma runMoves_shape (moves : list MouseEvent) :
  forall (m : MouseEvent) (s : State) (cur : DrawingElement),
    shapeTool (currentTool props) = true ->
    isPanning s = false -> isSelecting s = false -> isDragging s = false ->
    isDrawing s = true ->
    currentElement s = Some cur ->
    runMoves props dom (m :: moves) s
    = setCurrentElement
        (Some (withEndPoint cur (getMousePos dom s (last moves m)))) s.
Proof.
  induction moves as [|m' rest IH]; intros m s cur Htool Hp Hs Hd Hw Hc.
  - unfold runMoves. simpl. unfold handleMouseMove.
    rewrite Hp, Hs, Hd, Hw, Hc.
    destruct (currentTool props); try discriminate; reflexivity.
  - change (runMoves props dom (m :: m' :: rest) s)
      with (runMoves props dom (m' :: rest) (handleMouseMove props dom m s)).
    assert (Hmove : handleMouseMove props dom m s
                    = setCurrentElement
                        (Some (withEndPoint cur (getMousePos dom s m))) s).
    { unfold handleMouseMove. rewrite Hp, Hs, Hd, Hw, Hc.
      destruct (currentTool props); try discriminate; reflexivity. }
    rewrite Hmove.
    rewrite (IH m' _ (withEndPoint cur (getMousePos dom s m)));
      try assumption; try reflexivity.
    rewrite last_cons_default. reflexivity.
Qed.

(** X15: a shape gesture (rectangle, circle, line or arrow) on an idle canvas
    commits exactly one element, on top of the list: the shape from the press
    point to the last pointer position (to the press point itself for a bare
    click), with the configured colour, width and opacity and a generated
    identifier; the redo tail goes, the new list is the last snapshot, and no
    provisional element is left. *)
Theorem shape_gesture_commits (e : MouseEvent) (moves : list MouseEvent) (s : State) :
  idle s ->
  plainPress e s ->
  shapeTool (currentTool props) = true ->
  let shape := drawnShape props dom s e moves in
  let final := handleMouseUp (runMoves props dom moves (handleMouseDown props dom e s)) in
  elements final = elements s ++ [shape]
  /\ history final = firstn (historyStep s + 1) (history s) ++ [elements s ++ [shape]]
  /\ historyStep final = length (firstn (historyStep s + 1) (history s))
  /\ currentElement final = None
  /\ isDrawing final = false
  /\ idCalls final = S (idCalls s).
Proof.
  intros (Hpan & Hsel & Hdrag & Hdraw) Hpress Htool shape final.
  assert (Hfinal :
            final
            = handleMouseUp
                (setCurrentElement (Some shape)
                   (setIdCalls (S (idCalls s)) (setIsDrawing true s)))).
  { unfold final. rewrite (handleMouseDown_shape e s Hpress Htool).
    destruct moves as [|m rest].
    - reflexivity.
    - rewrite (runMoves_shape rest m _
                 (newShapeElement (currentTool props) (getMousePos dom s e)
                    (DrawingSettings.color (settings props))
                    (DrawingSettings.brushSize (settings props))
                    (DrawingSettings.opacity (settings props)) (generateId s)));
        try assumption; try reflexivity.
      unfold shape, drawnShape, lastPoint. rewrite last_cons_default.
      reflexivity. }
  assert (Hnot : hasType Teraser shape = false /\ hasType TstrokeEraser shape = false).
  { unfold shape, drawnShape, hasType. simpl.
    destruct (currentTool props); try discriminate; split; reflexivity. }
  destruct Hnot as [Hne Hns].
  rewrite Hfinal. unfold handleMouseUp. simpl. rewrite Hpan, Hsel, Hdrag.
  unfold finishDrawing. rewrite Hne, Hns. simpl.
  repeat split. rewrite length_app. simpl. lia.
Qed.


(** X16: a brush gesture on an idle canvas commits exactly one stroke, on top
    of the list, whose path is the press point followed by every pointer
    position of the gesture, in order (a bare click commits a stroke of one
    point); the redo tail goes and no provisional element is left. *)
Theorem brush_gesture_commits (e : MouseEvent) (moves : list MouseEvent) (s : State) :
  idle s ->
  plainPress e s ->
  currentTool props = Tbrush ->
  let stroke := drawnStroke props dom s e moves in
  let final := handleMouseUp (runMoves props dom moves (handleMouseDown props dom e s)) in
  elements final = elements s ++ [stroke]
  /\ history final = firstn (historyStep s + 1) (history s) ++ [elements s ++ [stroke]]
  /\ historyStep final = length (firstn (historyStep s + 1) (history s))
  /\ currentElement final = None
  /\ isDrawing final = false
  /\ idCalls final = S (idCalls s).
Proof.
  intros (Hpan & Hsel & Hdrag & Hdraw) Hpress Htool stroke final.
  assert (Hfinal :
            final
            = handleMouseUp
                (setCurrentElement (Some stroke)
                   (setIdCalls (S (idCalls s)) (setIsDrawing true s)))).
  { unfold final. rewrite (handleMouseDown_brush e s Hpress Htool).
    rewrite (runMoves_freehand props dom moves _
               (newPathElement Tbrush (getMousePos dom s e)
                  (DrawingSettings.color (settings props))
                  (DrawingSettings.brushSize (settings props))
                  (DrawingSettings.opacity (settings props)) (generateId s))
               [getMousePos dom s e]);
      [reflexivity | now rewrite Htool | assumption | assumption | assumption
       | reflexivity | reflexivity | reflexivity]. }
  rewrite Hfinal. unfold handleMouseUp. simpl. rewrite Hpan, Hsel, Hdrag.
  unfold finishDrawing. simpl.
  repeat split. rewrite length_app. simpl. lia.
Qed.

(** *** Dragging *)

Lemma map_id_draggedBy (selected : string) (dx dy : float)
      (els : list DrawingElement) :
  map id (draggedBy selected dx dy els) = map id els
  /\ map type (draggedBy selected dx dy els) = map type els.
Proof.
  unfold draggedBy. rewrite !map_map. split; apply map_ext; intros el;
    destruct (idIs selected el); reflexivity.
Qed.

(** A move of a running drag, in full. *)
Lemma handleMouseMove_drag
      (m : MouseEvent) (selected : string) (start : Point) (s : State) :
  DragArmed selected s ->
  dragStart s = Some start ->
  hasDragStarted s = true
  \/ underDragThreshold (getMousePos dom s m) start = false ->
  let moved := handleMouseMove props dom m s in
  let dx := (x (getMousePos dom s m) - x start)%float in
  let dy := (y (getMousePos dom s m) - y start)%float in
  elements moved = draggedBy selected dx dy (elements s)
  /\ map id (elements moved) = map id (elements s)
  /\ map type (elements moved) = map type (elements s)
  /\ (forall k el,
        nth_error (elements s) k = Some el -> idIs selected el = false ->
        nth_error (elements moved) k = Some el)
  /\ history moved = history s
  /\ historyStep moved = historyStep s
  /\ hasDragStarted moved = true
  /\ dragStart moved = Some (getMousePos dom s m)
  /\ DragArmed selected moved.
Proof.
  intros (Hpan & Hsel & Hdrag & Hid & _) Hstart Hgo moved dx dy.
  assert (Hels : elements moved = draggedBy selected dx dy (elements s)
                 /\ history moved = history s
                 /\ historyStep moved = historyStep s
                 /\ hasDragStarted moved = true
                 /\ dragStart moved = Some (getMousePos dom s m)
                 /\ DragArmed selected moved).
  { unfold moved, handleMouseMove, DragArmed.
    rewrite Hpan, Hsel, Hdrag, Hid, Hstart.
    assert (Hc : negb (hasDragStarted s)
                 && underDragThreshold (getMousePos dom s m) start = false).
    { destruct Hgo as [-> | ->]; [reflexivity | apply andb_false_r]. }
    rewrite Hc.
    destruct (hasDragStarted s) eqn:Hst; [|destruct (showTextPanel s)]; simpl;
      rewrite ?Hst, ?Hpan, ?Hsel, ?Hdrag, ?Hid;
      repeat split; eauto. }
  destruct Hels as (He & Hh & Hk & Hst & Hds & Harmed).
  destruct (map_id_draggedBy selected dx dy (elements s)) as [Hids Htypes].
  rewrite He.
  split; [reflexivity|]. split; [exact Hids|]. split; [exact Htypes|].
  split; [|auto 10].
  intros k el Hk' Hno. unfold draggedBy. rewrite nth_error_map, Hk'. simpl.
  now rewrite Hno.
Qed.

(** X17: a move of a drag that has started, or that reaches the threshold,
    moves every element with the selected identifier by the pointer's
    displacement [(dx, dy)] since the last move: [dx] and [dy] are added to
    the coordinates of its start point, of its end point and of each point of
    its path, where it has them, and its other fields are kept.  Every other
    element, the order, the identifiers and kinds, and the history stay as
    they were; the drag is started and its reference point is the new pointer
    position. *)
Theorem drag_move_translates_selected
        (m : MouseEvent) (selected : string) (start : Point) (s : State) :
  DragArmed selected s ->
  dragStart s = Some start ->
  hasDragStarted s = true
  \/ underDragThreshold (getMousePos dom s m) start = false ->
  let moved := handleMouseMove props dom m s in
  let dx := (x (getMousePos dom s m) - x start)%float in
  let dy := (y (getMousePos dom s m) - y start)%float in
  let shift := fun p : Point => mkPoint (x p + dx)%float (y p + dy)%float in
  length (elements moved) = length (elements s)
  /\ (forall k el,
        nth_error (elements s) k = Some el -> idIs selected el = true ->
        nth_error (elements moved) k
        = Some (mkElement (type el) (option_map (map shift) (points el))
                  (option_map shift (startPoint el))
                  (option_map shift (endPoint el))
                  (color el) (brushSize el) (opacity el) (text el)
                  (textFormat el) (imageData el) (width el) (height el)
                  (id el) (isTemporary el) (isGeneratedAi el)))
  /\ (forall k el,
        nth_error (elements s) k = Some el -> idIs selected el = false ->
        nth_error (elements moved) k = Some el)
  /\ map id (elements moved) = map id (elements s)
  /\ map type (elements moved) = map type (elements s)
  /\ history moved = history s
  /\ historyStep moved = historyStep s
  /\ hasDragStarted moved = true
  /\ dragStart moved = Some (getMousePos dom s m).
Proof.
  intros Harmed Hstart Hgo.
  destruct (handleMouseMove_drag m selected start s Harmed Hstart Hgo)
    as (H1 & H2 & H3 & H4 & H5 & H6 & H7 & H8 & _).
  cbv zeta in *.
  split; [|split; [|auto 10]].
  - rewrite H1. unfold draggedBy. apply length_map.
  - intros k el Hk Hsel. rewrite H1. unfold draggedBy.
    rewrite nth_error_map, Hk. simpl. rewrite Hsel. reflexivity.
Qed.

Lemma runMoves_dragging (selected : string) (moves : list MouseEvent) :
  forall s,
    DragArmed selected s -> hasDragStarted s = true ->
    let s' := runMoves props dom moves s in
    DragArmed selected s' /\ hasDragStarted s' = true
    /\ history s' = history s /\ historyStep s' = historyStep s
    /\ map id (elements s') = map id (elements s).
Proof.
  induction moves as [|m rest IH]; intros s Harmed Hst; simpl.
  - repeat split; auto; apply Harmed.
  - pose proof Harmed as (_ & _ & _ & _ & start & Hstart).
    destruct (handleMouseMove_drag m selected start s Harmed Hstart
                (or_introl Hst))
      as (_ & Hids & _ & _ & Hh & Hk & Hst' & _ & Harmed').
    destruct (IH _ Harmed' Hst') as (Ha & Hb & Hc & Hd & He).
    unfold runMoves in *. simpl.
    split; [exact Ha|]. split; [exact Hb|].
    split; [congruence|]. split; congruence.
Qed.

End WholeGestures.
Lemma pan_gesture_witness :
  panPress (mkMouseEvent 1 false 25 25) = true
  /\ elements (handleMouseUp
                 (runMoves selectProps sampleDom nearMoves
                    (handleMouseDown selectProps sampleDom
                       (mkMouseEvent 1 false 25 25) oneRectState)))
     = elements oneRectState
  /\ offset (handleMouseUp
               (runMoves selectProps sampleDom nearMoves
                  (handleMouseDown selectProps sampleDom
                     (mkMouseEvent 1 false 25 25) oneRectState)))
     = mkPoint 0 2.
Proof.
  split; [reflexivity|].
  destruct (pan_gesture selectProps sampleDom (mkMouseEvent 1 false 25 25) nearMoves
              oneRectState eq_refl)
    as (He & _ & _ & _ & _ & _ & Ho).
  split; [exact He | exact Ho].
Defined.

Lemma selection_gesture_witness :
  isPanning (handleStartSelection oneRectState) = false
  /\ panPress pressOnRect = false
  /\ (isSelectionMode (handleStartSelection oneRectState) = true
      \/ currentTool selectProps = TselectionArea)
  /\ selectionRect
       (handleMouseUp
          (runMoves selectProps sampleDom [farMove]
             (handleMouseDown selectProps sampleDom pressOnRect
                (handleStartSelection oneRectState))))
     = Some (mkPoint 25 25, mkPoint 40 25)
  /\ isSelectionMode
       (handleMouseUp
          (runMoves selectProps sampleDom [farMove]
             (handleMouseDown selectProps sampleDom pressOnRect
                (handleStartSelection oneRectState))))
     = false.
Proof.
  split; [reflexivity|]. split; [reflexivity|]. split; [now left|].
  destruct (selection_gesture selectProps sampleDom pressOnRect [farMove]
              (handleStartSelection oneRectState) eq_refl eq_refl
              (or_introl eq_refl))
    as (Hrect & Hmode & _).
  split; [exact Hrect | exact Hmode].
Defined.

Lemma shape_gesture_commits_witness :
  idle oneRectState
  /\ plainPress pressOnRect oneRectState
  /\ shapeTool (currentTool (mkProps Tline sampleSettings 1)) = true
  /\ elements (handleMouseUp
                 (runMoves (mkProps Tline sampleSettings 1) sampleDom [farMove]
                    (handleMouseDown (mkProps Tline sampleSettings 1) sampleDom
                       pressOnRect oneRectState)))
     = [rectB;
        mkElement (OfTool Tline) None (Some (mkPoint 25 25)) (Some (mkPoint 40 25))
          "#000000" 3 1 None None None None None
          (Some (sampleIds 0)) None None].
Proof.
  split; [repeat split|]. split; [split; reflexivity|]. split; [reflexivity|].
  destruct (shape_gesture_commits (mkProps Tline sampleSettings 1) sampleDom
              pressOnRect [farMove] oneRectState) as (He & _).
  - repeat split.
  - split; reflexivity.
  - reflexivity.
  - exact He.
Defined.

Lemma brush_gesture_commits_witness :
  idle oneRectState
  /\ plainPress pressOnRect oneRectState
  /\ currentTool (mkProps Tbrush sampleSettings 1) = Tbrush
  /\ elements (handleMouseUp
                 (runMoves (mkProps Tbrush sampleSettings 1) sampleDom nearMoves
                    (handleMouseDown (mkProps Tbrush sampleSettings 1) sampleDom
                       pressOnRect oneRectState)))
     = elements oneRectState
       ++ [drawnStroke (mkProps Tbrush sampleSettings 1) sampleDom oneRectState
             pressOnRect nearMoves].
Proof.
  split; [repeat split|]. split; [split; reflexivity|]. split; [reflexivity|].
  destruct (brush_gesture_commits (mkProps Tbrush sampleSettings 1) sampleDom
              pressOnRect nearMoves oneRectState) as (He & _).
  - repeat split.
  - split; reflexivity.
  - reflexivity.
  - exact He.
Defined.

Lemma truthyString_idem (v : option string) :
  truthyString (truthyString v) = truthyString v.
Proof. destruct v as [[|c r]|]; reflexivity. Qed.

(** A press with the select tool that hits an element arms a drag of the
    elements with its identifier and mutates nothing. *)
Lemma handleMouseDown_select_hit
      (props : DrawingCanvasProps) (dom : Dom) (e : MouseEvent) (s : State)
      (el : DrawingElement) (selected : string) :
  idle s -> plainPress e s -> currentTool props = Tselect ->
  findElementAtPoint (elements s) (getMousePos dom s e) = Some el ->
  truthyString (id el) = Some selected ->
  let s1 := handleMouseDown props dom e s in
  DragArmed selected s1
  /\ hasDragStarted s1 = false
  /\ dragStart s1 = Some (getMousePos dom s e)
  /\ elements s1 = elements s /\ history s1 = history s
  /\ historyStep s1 = historyStep s
  /\ offset s1 = offset s /\ scale s1 = scale s.
Proof.
  intros (Hpan & Hsel & Hdrag & Hdraw) [Hb Hm] Htool Hhit Hid s1. subst s1.
  unfold handleMouseDown. rewrite Hb, Hm, Htool. simpl. rewrite Hhit.
  assert (Hsel' : truthyString (truthyString (id el)) = Some selected)
    by now rewrite truthyString_idem.
  destruct (text el) as [txt|];
    [destruct (hasType Ttext el && negb (txt =? ""))%string|];
    unfold DragArmed; simpl; rewrite Hsel'; repeat split; eauto.
Qed.

Lemma state_armed_drag_witness :
  DragArmed "b" (handleMouseDown selectProps sampleDom pressOnRect oneRectState)
  /\ dragStart (handleMouseDown selectProps sampleDom pressOnRect oneRectState)
     = Some (mkPoint 25 25).
Proof.
  split; [|reflexivity].
  unfold DragArmed. repeat split. now exists (mkPoint 25 25).
Qed.

Lemma drag_move_translates_selected_witness :
  DragArmed "b" (handleMouseDown selectProps sampleDom pressOnRect oneRectState)
  /\ dragStart (handleMouseDown selectProps sampleDom pressOnRect oneRectState)
     = Some (mkPoint 25 25)
  /\ (hasDragStarted (handleMouseDown selectProps sampleDom pressOnRect oneRectState)
      = true
      \/ underDragThreshold
           (getMousePos sampleDom
              (handleMouseDown selectProps sampleDom pressOnRect oneRectState)
              farMove)
           (mkPoint 25 25) = false)
  /\ nth_error
       (elements (handleMouseMove selectProps sampleDom farMove
                    (handleMouseDown selectProps sampleDom pressOnRect oneRectState)))
       0
     = Some (mkElement (OfTool Trectangle) None
               (Some (mkPoint 35 20)) (Some (mkPoint 35 20))
               "#000000" 3 1 None None None None None (Some "b") None None).
Proof.
  destruct state_armed_drag_witness as [Harmed Hstart].
  split; [exact Harmed|]. split; [exact Hstart|].
  split; [right; reflexivity|].
  destruct (drag_move_translates_selected selectProps sampleDom farMove "b"
              (mkPoint 25 25)
              (handleMouseDown selectProps sampleDom pressOnRect oneRectState)
              Harmed Hstart (or_intror eq_refl))
    as (_ & Hsel & _).
  exact (Hsel 0 rectB eq_refl eq_refl).
Defined.

(** A release of a started drag saves the live list. *)
Lemma handleMouseUp_started_drag (selected : string) (s : State) :
  DragArmed selected s -> hasDragStarted s = true ->
  history (handleMouseUp s)
  = firstn (historyStep s + 1) (history s) ++ [elements s]
  /\ historyStep (handleMouseUp s) = length (firstn (historyStep s + 1) (history s))
  /\ elements (handleMouseUp s) = elements s
  /\ isDragging (handleMouseUp s) = false
  /\ hasDragStarted (handleMouseUp s) = false
  /\ dragStart (handleMouseUp s) = None
  /\ selectedElementId (handleMouseUp s) = selectedElementId s.
Proof.
  intros (Hpan & Hsel & Hdrag & Hid & _) Hst. unfold handleMouseUp.
  rewrite Hpan, Hsel, Hdrag, Hid, Hst. simpl.
  repeat split. rewrite length_app. simpl. lia.
Qed.

(** X18: a drag that reaches the threshold ends in exactly one history entry:
    after a press with the select tool on an element and moves the first of
    which is 3 units or more from the press point, the release discards the
    redo tail and appends the live list, with the moved geometry, as the last
    snapshot; the elements keep their identifiers and order, and the drag
    state is reset. *)
Theorem drag_gesture_commits
        (props : DrawingCanvasProps) (dom : Dom)
        (e m : MouseEvent) (rest : list MouseEvent) (s : State)
        (el : DrawingElement) (selected : string) :
  idle s -> plainPress e s -> currentTool props = Tselect ->
  findElementAtPoint (elements s) (getMousePos dom s e) = Some el ->
  truthyString (id el) = Some selected ->
  underDragThreshold (getMousePos dom s m) (getMousePos dom s e) = false ->
  let final :=
    handleMouseUp (runMoves props dom (m :: rest) (handleMouseDown props dom e s)) in
  history final = firstn (historyStep s + 1) (history s) ++ [elements final]
  /\ historyStep final = length (firstn (historyStep s + 1) (history s))
  /\ map id (elements final) = map id (elements s)
  /\ isDragging final = false
  /\ hasDragStarted final = false
  /\ dragStart final = None.
Proof.
  intros Hidle Hpress Htool Hhit Hid Hfar final.
  destruct (handleMouseDown_select_hit props dom e s el selected
              Hidle Hpress Htool Hhit Hid)
    as (Harmed & Hst & Hds & He & Hh & Hk & Ho & Hsc).
  assert (Hfar1 : underDragThreshold
                    (getMousePos dom (handleMouseDown props dom e s) m)
                    (getMousePos dom s e) = false)
    by now rewrite (getMousePos_same_view dom s _ m Ho Hsc).
  destruct (handleMouseMove_drag props dom m selected (getMousePos dom s e) _
              Harmed Hds (or_intror Hfar1))
    as (_ & Hids1 & _ & _ & Hh1 & Hk1 & Hst1 & _ & Harmed1).
  destruct (runMoves_dragging props dom selected rest _ Harmed1 Hst1)
    as (Harmed2 & Hst2 & Hh2 & Hk2 & Hids2).
  destruct (handleMouseUp_started_drag selected _ Harmed2 Hst2)
    as (Hh3 & Hk3 & He3 & Hd3 & Hs3 & Hds3 & _).
  change (runMoves props dom rest
            (handleMouseMove props dom m (handleMouseDown props dom e s)))
    with (runMoves props dom (m :: rest) (handleMouseDown props dom e s))
    in Hh2, Hk2, Hids2, Hh3, Hk3, He3, Hd3, Hs3, Hds3.
  fold final in Hh3, Hk3, He3, Hd3, Hs3, Hds3.
  split; [|split; [|split; [|auto]]].
  - rewrite Hh3, He3, Hh2, Hk2, Hh1, Hk1, Hh, Hk. reflexivity.
  - rewrite Hk3, Hh2, Hk2, Hh1, Hk1, Hh, Hk. reflexivity.
  - rewrite He3, Hids2, Hids1, He. reflexivity.
Qed.

Lemma drag_gesture_commits_witness :
  idle oneRectState
  /\ plainPress pressOnRect oneRectState
  /\ currentTool selectProps = Tselect
  /\ findElementAtPoint (elements oneRectState)
                        (getMousePos sampleDom oneRectState pressOnRect)
     = Some rectB
  /\ truthyString (id rectB) = Some "b"
  /\ underDragThreshold (getMousePos sampleDom oneRectState farMove)
                        (getMousePos sampleDom oneRectState pressOnRect) = false
  /\ history (handleMouseUp
                (runMoves selectProps sampleDom (farMove :: nearMoves)
                   (handleMouseDown selectProps sampleDom pressOnRect oneRectState)))
     = firstn (historyStep oneRectState + 1) (history oneRectState)
       ++ [elements (handleMouseUp
                       (runMoves selectProps sampleDom (farMove :: nearMoves)
                          (handleMouseDown selectProps sampleDom pressOnRect
                             oneRectState)))].
Proof.
  split; [repeat split|]. split; [split; reflexivity|]. split; [reflexivity|].
  split; [reflexivity|]. split; [reflexivity|]. split; [reflexivity|].
  destruct (drag_gesture_commits selectProps sampleDom pressOnRect farMove nearMoves
              oneRectState rectB "b") as (Hh & _).
  - repeat split.
  - split; reflexivity.
  - reflexivity.
  - reflexivity.
  - reflexivity.
  - reflexivity.
  - exact Hh.
Defined.

(** ** Invariants of the event loop *)

Lemma Forall_firstn_keep (A : Type) (P : A -> Prop) (k : nat) (l : list A) :
  Forall P l -> Forall P (firstn k l).
Proof.
  intros H. apply Forall_forall. intros a Ha.
  rewrite Forall_forall in H. apply H. eapply In_nth_error in Ha as [i Hi].
  apply nth_error_In with (n := i). revert Hi.
  rewrite nth_error_firstn. destruct (i <? k); [auto | discriminate].
Qed.

Lemma strokeErase_notEraser (eraserSize : float) (eraserPoints : list Point)
      (els : list DrawingElement) :
  Forall notEraser (strokeErase eraserSize eraserPoints els).
Proof.
  apply Forall_forall. intros el Hin. unfold strokeErase in Hin.
  apply filter_In in Hin as [_ Hc]. unfold notEraser.
  destruct (isEraserElement el); [discriminate | reflexivity].
Qed.

Lemma pixelErase_notEraser (eraserSize : float) (eraserPoints : list Point)
      (rnd : nat -> string) (n : nat) (els : list DrawingElement) :
  Forall notEraser (fst (pixelErase eraserSize eraserPoints rnd n els)).
Proof.
  eapply Forall_impl; [|apply (pixelEraseLoop_clean eraserSize eraserPoints rnd els n [])].
  - intros el [H _]. exact H.
  - constructor.
Qed.

Lemma draggedBy_notEraser (selected : string) (dx dy : float)
      (els : list DrawingElement) :
  Forall notEraser els -> Forall notEraser (draggedBy selected dx dy els).
Proof.
  intros H. unfold draggedBy. apply Forall_forall. intros el Hin.
  apply in_map_iff in Hin as (el0 & <- & Hin0).
  rewrite Forall_forall in H. specialize (H el0 Hin0).
  destruct (idIs selected el0); exact H.
Qed.

(** The invariant looks at the live list, the snapshots and the provisional
    element only. *)
Lemma NoEraserPersisted_same (s s' : State) :
  elements s' = elements s -> history s' = history s ->
  currentElement s' = currentElement s ->
  NoEraserPersisted s -> NoEraserPersisted s'.
Proof.
  unfold NoEraserPersisted. intros -> -> ->. auto.
Qed.

Lemma NoEraserPersisted_save (l : list DrawingElement) (s : State) :
  Forall notEraser l ->
  Forall (Forall notEraser) (history s) ->
  Forall (Forall notEraser) (history (saveToHistory l s)).
Proof.
  intros Hl Hh. unfold saveToHistory. simpl.
  apply Forall_app. split; [now apply Forall_firstn_keep | now constructor].
Qed.

Ltac no_eraser_same :=
  match goal with
  | H : NoEraserPersisted ?s |- NoEraserPersisted _ =>
      apply (NoEraserPersisted_same s); [reflexivity | reflexivity | reflexivity | exact H]
  end.

Ltac no_eraser_new :=
  match goal with
  | H : NoEraserPersisted ?s |- NoEraserPersisted _ =>
      destruct H as (He & Hh & Hc);
      split; [exact He | split; [exact Hh |]];
      intros cur [= <-] Hcur; simpl in *; discriminate
  end.

Lemma handleMouseDown_NoEraser (props : DrawingCanvasProps) (dom : Dom)
      (e : MouseEvent) (s : State) :
  NoEraserPersisted s -> NoEraserPersisted (handleMouseDown props dom e s).
Proof.
  intros H. unfold handleMouseDown.
  destruct (Nat.eqb (button e) 1 || (Nat.eqb (button e) 0 && altKey e));
    [no_eraser_same|].
  destruct (isSelectionMode s || Tool_eqb (currentTool props) TselectionArea);
    [no_eraser_same|].
  destruct (currentTool props); try no_eraser_same; try no_eraser_new.
  destruct (findElementAtPoint (elements s) (getMousePos dom s e)) as [clicked|];
    [|no_eraser_same].
  destruct (text clicked) as [txt|]; [|no_eraser_same].
  destruct (hasType Ttext clicked && negb (txt =? ""))%string; no_eraser_same.
Qed.

Lemma handleMouseMove_NoEraser (props : DrawingCanvasProps) (dom : Dom)
      (e : MouseEvent) (s : State) :
  NoEraserPersisted s -> NoEraserPersisted (handleMouseMove props dom e s).
Proof.
  intros H. unfold handleMouseMove.
  destruct (isPanning s); [no_eraser_same|].
  destruct (if isSelecting s then selectionRect s else None) as [[a b]|];
    [no_eraser_same|].
  destruct (if isDragging s then truthyString (selectedElementId s) else None)
    as [selected|].
  - destruct (dragStart s) as [start|].
    + destruct (negb (hasDragStarted s)
                && underDragThreshold (getMousePos dom s e) start); [exact H|].
      destruct H as (He & Hh & Hc).
      split; [|split].
      * pose proof (draggedBy_notEraser selected
                      (x (getMousePos dom s e) - x start)%float
                      (y (getMousePos dom s e) - y start)%float
                      (elements s) He) as He'.
        destruct (hasDragStarted s); [|destruct (showTextPanel s)]; exact He'.
      * destruct (hasDragStarted s); [|destruct (showTextPanel s)]; exact Hh.
      * destruct (hasDragStarted s); [|destruct (showTextPanel s)]; exact Hc.
    + destruct (if isDrawing s then currentElement s else None) as [cur|] eqn:Hcur;
        [|exact H].
      assert (Hcur' : currentElement s = Some cur)
        by (destruct (isDrawing s); [exact Hcur | discriminate]).
      destruct H as (He & Hh & Hc).
      destruct (currentTool props);
        (split; [exact He | split; [exact Hh |]]);
        intros c [= <-] Hc'; simpl in *;
        try discriminate; exact (Hc cur Hcur' Hc').
  - destruct (if isDrawing s then currentElement s else None) as [cur|] eqn:Hcur;
      [|exact H].
    assert (Hcur' : currentElement s = Some cur)
      by (destruct (isDrawing s); [exact Hcur | discriminate]).
    destruct H as (He & Hh & Hc).
    destruct (currentTool props);
      (split; [exact He | split; [exact Hh |]]);
      intros c [= <-] Hc'; simpl in *;
      try discriminate; exact (Hc cur Hcur' Hc').
Qed.

Lemma finishDrawing_NoEraser (cur : DrawingElement) (s : State) :
  currentElement s = Some cur ->
  NoEraserPersisted s -> NoEraserPersisted (finishDrawing cur s).
Proof.
  intros Hcur (He & Hh & Hc). unfold finishDrawing.
  destruct (if hasType Teraser cur then points cur else None) as [ep|] eqn:E1.
  - pose proof (pixelErase_notEraser (brushSize cur) ep (randomIds s) (idCalls s)
                  (elements s)) as Hpx.
    destruct (pixelErase (brushSize cur) ep (randomIds s) (idCalls s) (elements s))
      as [newElements n].
    simpl in Hpx.
    split; [exact Hpx | split; [|intros c Hc'; discriminate]].
    simpl. apply Forall_app.
    split; [apply Forall_firstn_keep; exact Hh | now constructor].
  - destruct (if hasType TstrokeEraser cur then points cur else None) as [ep|] eqn:E2.
    + pose proof (strokeErase_notEraser (brushSize cur) ep (elements s)) as Hst.
      split; [exact Hst | split; [|intros c Hc'; discriminate]].
      simpl. apply Forall_app.
      split; [apply Forall_firstn_keep; exact Hh | now constructor].
    + assert (Hcurne : notEraser cur).
      { unfold notEraser.
        destruct (isEraserElement cur) eqn:Hec; [|reflexivity].
        exfalso. apply (Hc cur Hcur Hec).
        unfold isEraserElement in Hec.
        destruct (hasType Teraser cur); [exact E1|].
        destruct (hasType TstrokeEraser cur); [exact E2 | discriminate]. }
      assert (Hnew : Forall notEraser (elements s ++ [cur])).
      { apply Forall_app. split; [exact He | now constructor]. }
      split; [exact Hnew | split; [|intros c Hc'; discriminate]].
      simpl. apply Forall_app.
      split; [apply Forall_firstn_keep; exact Hh | now constructor].
Qed.

Lemma handleMouseUp_NoEraser (s : State) :
  NoEraserPersisted s -> NoEraserPersisted (handleMouseUp s).
Proof.
  intros H. unfold handleMouseUp.
  destruct (isPanning s); [no_eraser_same|].
  destruct (isSelecting s); [no_eraser_same|].
  destruct (isDragging s).
  - destruct (truthyString (selectedElementId s)); [|no_eraser_same].
    destruct (hasDragStarted s); [|no_eraser_same].
    destruct H as (He & Hh & Hc).
    split; [exact He | split; [|exact Hc]].
    simpl. apply Forall_app.
    split; [apply Forall_firstn_keep; exact Hh | now constructor].
  - destruct (if isDrawing s then currentElement s else None) as [cur|] eqn:Hcur;
      [|no_eraser_same].
    assert (Hcur' : currentElement s = Some cur)
      by (destruct (isDrawing s); [exact Hcur | discriminate]).
    apply (NoEraserPersisted_same (finishDrawing cur s));
      [reflexivity | reflexivity | reflexivity |].
    now apply finishDrawing_NoEraser.
Qed.

Lemma handleEvent_NoEraser (dom : Dom) (ev : CanvasEvent) (s : State) :
  NoEraserPersisted s -> NoEraserPersisted (handleEvent dom ev s).
Proof.
  intros H. destruct ev; simpl.
  - now apply handleMouseDown_NoEraser.
  - now apply handleMouseMove_NoEraser.
  - now apply handleMouseUp_NoEraser.
  - no_eraser_same.
  - unfold handleUndo. destruct (0 <? historyStep s); [|exact H].
    destruct H as (He & Hh & Hc).
    split; [|split; [exact Hh | exact Hc]]. simpl.
    destruct (nth_error (history s) (historyStep s - 1)) as [snap|] eqn:Hn;
      [|constructor].
    rewrite Forall_forall in Hh. apply Hh. eapply nth_error_In. exact Hn.
  - unfold handleRedo. destruct (historyStep s <? length (history s) - 1);
      [|exact H].
    destruct H as (He & Hh & Hc).
    split; [|split; [exact Hh | exact Hc]]. simpl.
    destruct (nth_in_or_default (historyStep s + 1) (history s) []) as [Hin | ->];
      [|constructor].
    rewrite Forall_forall in Hh. now apply Hh.
  - destruct H as (He & Hh & Hc).
    split; [constructor | split; [|exact Hc]].
    simpl. now constructor.
  - no_eraser_same.
  - unfold handleDeleteSelected.
    destruct (truthyString (selectedElementId s)) as [selected|]; [|exact H].
    destruct (find (idIs selected) (elements s)) as [el|]; [|exact H].
    destruct (isImage el && match isGeneratedAi el with
                            | Some flag => flag
                            | None => false
                            end); [|exact H].
    destruct H as (He & Hh & Hc).
    assert (Hf : Forall notEraser
                        (filter (fun e => negb (idIs selected e)) (elements s))).
    { apply Forall_forall. intros e' Hin. apply filter_In in Hin as [Hin _].
      rewrite Forall_forall in He. now apply He. }
    split; [exact Hf | split; [|exact Hc]].
    simpl. apply Forall_app.
    split; [apply Forall_firstn_keep; exact Hh | now constructor].
Qed.

(** X19: no eraser path is ever persisted: starting from a state whose live
    list and snapshots hold no element of type eraser or stroke-eraser (and
    whose provisional eraser, if any, has its path), every sequence of
    pointer, wheel, undo, redo, clear, start-selection and delete events
    leads to such a state. *)
Theorem eraser_paths_never_persisted
        (dom : Dom) (evs : list CanvasEvent) (s : State) :
  NoEraserPersisted s -> NoEraserPersisted (runEvents dom evs s).
Proof.
  revert s. induction evs as [|ev evs IH]; intros s H; [exact H|].
  simpl. apply IH. now apply handleEvent_NoEraser.
Qed.

Lemma eraser_paths_never_persisted_witness :
  NoEraserPersisted (initialState sampleIds)
  /\ NoEraserPersisted
       (runEvents sampleDom
          [EvMouseDown (mkProps Tbrush sampleSettings 1) pressOnRect;
           EvMouseMove (mkProps Tbrush sampleSettings 1) farMove;
           EvMouseUp;
           EvMouseDown (mkProps Teraser sampleSettings 1) pressOnRect;
           EvMouseMove (mkProps Teraser sampleSettings 1) farMove;
           EvMouseUp; EvUndo]
          (initialState sampleIds)).
Proof.
  assert (H : NoEraserPersisted (initialState sampleIds)).
  { split; [constructor | split; [constructor | discriminate]]. }
  split; [exact H|].
  apply (eraser_paths_never_persisted sampleDom _ (initialState sampleIds) H).
Defined.

Ltac provisional_solve :=
  unfold ProvisionalWhileDrawing in *; simpl; auto.

Lemma handleMouseDown_Provisional (props : DrawingCanvasProps) (dom : Dom)
      (e : MouseEvent) (s : State) :
  ProvisionalWhileDrawing s ->
  ProvisionalWhileDrawing (handleMouseDown props dom e s).
Proof.
  intros H. unfold handleMouseDown.
  destruct (Nat.eqb (button e) 1 || (Nat.eqb (button e) 0 && altKey e));
    [provisional_solve|].
  destruct (isSelectionMode s || Tool_eqb (currentTool props) TselectionArea);
    [provisional_solve|].
  destruct (currentTool props); try provisional_solve.
  destruct (findElementAtPoint (elements s) (getMousePos dom s e)) as [clicked|];
    [|provisional_solve].
  destruct (text clicked) as [txt|]; [|provisional_solve].
  destruct (hasType Ttext clicked && negb (txt =? ""))%string; provisional_solve.
Qed.

Lemma drawing_branch (s : State) (cur : DrawingElement) :
  (if isDrawing s then currentElement s else None) = Some cur ->
  isDrawing s = true /\ currentElement s = Some cur.
Proof. destruct (isDrawing s); [auto | discriminate]. Qed.

Lemma handleMouseMove_Provisional (props : DrawingCanvasProps) (dom : Dom)
      (e : MouseEvent) (s : State) :
  ProvisionalWhileDrawing s ->
  ProvisionalWhileDrawing (handleMouseMove props dom e s).
Proof.
  intros H. unfold handleMouseMove.
  destruct (isPanning s); [provisional_solve|].
  destruct (if isSelecting s then selectionRect s else None) as [[a b]|];
    [provisional_solve|].
  assert (Hdraw :
            ProvisionalWhileDrawing
              match (if isDrawing s then currentElement s else None) with
              | None => s
              | Some cur =>
                  let point := getMousePos dom s e in
                  match currentTool props with
                  | Tbrush | Teraser | TstrokeEraser =>
                      setCurrentElement
                        (Some (mkElement (type cur)
                                 (Some (match points cur with
                                        | Some pts => pts
                                        | None => []
                                        end ++ [point]))
                                 (startPoint cur) (endPoint cur) (color cur)
                                 (brushSize cur) (opacity cur) (text cur)
                                 (textFormat cur) (imageData cur) (width cur)
                                 (height cur) (id cur) (isTemporary cur)
                                 (isGeneratedAi cur)))
                        s
                  | _ =>
                      setCurrentElement
                        (Some (mkElement (type cur) (points cur) (startPoint cur)
                                 (Some point) (color cur) (brushSize cur)
                                 (opacity cur) (text cur) (textFormat cur)
                                 (imageData cur) (width cur) (height cur) (id cur)
                                 (isTemporary cur) (isGeneratedAi cur)))
                        s
                  end
              end).
  { destruct (if isDrawing s then currentElement s else None) as [cur|] eqn:Hcur;
      [|exact H].
    destruct (drawing_branch s cur Hcur) as [Hd _].
    destruct (currentTool props); intros _; exact Hd. }
  destruct (if isDragging s then truthyString (selectedElementId s) else None)
    as [selected|]; [|exact Hdraw].
  destruct (dragStart s) as [start|]; [|exact Hdraw].
  destruct (negb (hasDragStarted s)
            && underDragThreshold (getMousePos dom s e) start); [exact H|].
  destruct (hasDragStarted s); [|destruct (showTextPanel s)]; exact H.
Qed.

Lemma finishDrawing_clears (cur : DrawingElement) (s : State) :
  currentElement (finishDrawing cur s) = None.
Proof.
  unfold finishDrawing.
  destruct (if hasType Teraser cur then points cur else None) as [ep|].
  - destruct (pixelErase (brushSize cur) ep (randomIds s) (idCalls s) (elements s)).
    reflexivity.
  - destruct (if hasType TstrokeEraser cur then points cur else None); reflexivity.
Qed.

(** Without a pan, a selection or a drag to end, a release leaves no
    provisional element. *)
Lemma handleMouseUp_clears (s : State) :
  ProvisionalWhileDrawing s ->
  isPanning s = false -> isSelecting s = false -> isDragging s = false ->
  currentElement (handleMouseUp s) = None /\ isDrawing (handleMouseUp s) = false.
Proof.
  intros H Hpan Hsel Hdrag. unfold handleMouseUp. rewrite Hpan, Hsel, Hdrag.
  destruct (if isDrawing s then currentElement s else None) as [cur|] eqn:Hcur.
  - split; [|reflexivity]. apply finishDrawing_clears.
  - split; [|reflexivity]. simpl.
    destruct (currentElement s) as [c|] eqn:Hc; [|reflexivity].
    assert (Hd : isDrawing s = true) by (apply H; rewrite Hc; discriminate).
    rewrite Hd in Hcur. discriminate.
Qed.

Lemma handleMouseUp_Provisional (s : State) :
  ProvisionalWhileDrawing s -> ProvisionalWhileDrawing (handleMouseUp s).
Proof.
  intros H.
  destruct (isPanning s) eqn:Hpan;
    [unfold handleMouseUp; rewrite Hpan; provisional_solve|].
  destruct (isSelecting s) eqn:Hsel;
    [unfold handleMouseUp; rewrite Hpan, Hsel; provisional_solve|].
  destruct (isDragging s) eqn:Hdrag.
  - unfold handleMouseUp. rewrite Hpan, Hsel, Hdrag.
    destruct (truthyString (selectedElementId s));
      [destruct (hasDragStarted s)|]; provisional_solve.
  - destruct (handleMouseUp_clears s H Hpan Hsel Hdrag) as [Hnone _].
    intros Hne. now rewrite Hnone in Hne.
Qed.

Lemma handleEvent_Provisional (dom : Dom) (ev : CanvasEvent) (s : State) :
  ProvisionalWhileDrawing s -> ProvisionalWhileDrawing (handleEvent dom ev s).
Proof.
  intros H. destruct ev; simpl.
  - now apply handleMouseDown_Provisional.
  - now apply handleMouseMove_Provisional.
  - now apply handleMouseUp_Provisional.
  - provisional_solve.
  - unfold handleUndo. destruct (0 <? historyStep s); provisional_solve.
  - unfold handleRedo. destruct (historyStep s <? length (history s) - 1);
      provisional_solve.
  - provisional_solve.
  - provisional_solve.
  - unfold handleDeleteSelected.
    destruct (truthyString (selectedElementId s)) as [selected|]; [|exact H].
    destruct (find (idIs selected) (elements s)) as [el|]; [|exact H].
    destruct (isImage el && match isGeneratedAi el with
                            | Some flag => flag
                            | None => false
                            end); provisional_solve.
Qed.

Lemma runEvents_Provisional (dom : Dom) (evs : list CanvasEvent) (s : State) :
  ProvisionalWhileDrawing s -> ProvisionalWhileDrawing (runEvents dom evs s).
Proof.
  revert s. induction evs as [|ev evs IH]; intros s H; [exact H|].
  simpl. apply IH. now apply handleEvent_Provisional.
Qed.

(** X20: in every state reached from the initial state by pointer, wheel,
    undo, redo, clear, start-selection and delete events, a provisional
    element exists only while a drawing gesture is in progress; and a release
    (or the pointer leaving the canvas) that ends no pan, selection or drag
    leaves no provisional element and no drawing in progress. *)
Theorem no_dangling_provisional_element
        (rnd : nat -> string) (dom : Dom) (evs : list CanvasEvent) :
  let s := runEvents dom evs (initialState rnd) in
  (currentElement s <> None -> isDrawing s = true)
  /\ (isPanning s = false -> isSelecting s = false -> isDragging s = false ->
      currentElement (handleMouseUp s) = None
      /\ isDrawing (handleMouseUp s) = false).
Proof.
  intros s.
  assert (H : ProvisionalWhileDrawing s).
  { apply runEvents_Provisional. intros Hne. now elim Hne. }
  split; [exact H | now apply handleMouseUp_clears].
Qed.

Lemma HistoryUsable_same (s s' : State) :
  history s' = history s -> historyStep s' = historyStep s ->
  HistoryUsable s -> HistoryUsable s'.
Proof.
  unfold HistoryUsable, cursorValid. intros -> ->. auto.
Qed.

Lemma saveToHistory_cursorValid (l : list DrawingElement) (s : State) :
  cursorValid (saveToHistory l s).
Proof.
  unfold cursorValid, saveToHistory. simpl. rewrite length_app. simpl. lia.
Qed.

Ltac history_same :=
  match goal with
  | H : HistoryUsable ?s |- HistoryUsable _ =>
      apply (HistoryUsable_same s); [reflexivity | reflexivity | exact H]
  end.

Lemma handleMouseDown_HistoryUsable (props : DrawingCanvasProps) (dom : Dom)
      (e : MouseEvent) (s : State) :
  HistoryUsable s -> HistoryUsable (handleMouseDown props dom e s).
Proof.
  intros H. unfold handleMouseDown.
  destruct (Nat.eqb (button e) 1 || (Nat.eqb (button e) 0 && altKey e));
    [history_same|].
  destruct (isSelectionMode s || Tool_eqb (currentTool props) TselectionArea);
    [history_same|].
  destruct (currentTool props); try history_same.
  destruct (findElementAtPoint (elements s) (getMousePos dom s e)) as [clicked|];
    [|history_same].
  destruct (text clicked) as [txt|]; [|history_same].
  destruct (hasType Ttext clicked && negb (txt =? ""))%string; history_same.
Qed.

Lemma handleMouseMove_HistoryUsable (props : DrawingCanvasProps) (dom : Dom)
      (e : MouseEvent) (s : State) :
  HistoryUsable s -> HistoryUsable (handleMouseMove props dom e s).
Proof.
  intros H. unfold handleMouseMove.
  destruct (isPanning s); [history_same|].
  destruct (if isSelecting s then selectionRect s else None) as [[a b]|];
    [history_same|].
  destruct (if isDragging s then truthyString (selectedElementId s) else None)
    as [selected|].
  - destruct (dragStart s) as [start|].
    + destruct (negb (hasDragStarted s)
                && underDragThreshold (getMousePos dom s e) start); [exact H|].
      destruct (hasDragStarted s); [|destruct (showTextPanel s)]; history_same.
    + destruct (if isDrawing s then currentElement s else None); [|exact H].
      destruct (currentTool props); history_same.
  - destruct (if isDrawing s then currentElement s else None); [|exact H].
    destruct (currentTool props); history_same.
Qed.

Lemma handleMouseUp_HistoryUsable (s : State) :
  HistoryUsable s -> HistoryUsable (handleMouseUp s).
Proof.
  intros H. unfold handleMouseUp.
  destruct (isPanning s); [history_same|].
  destruct (isSelecting s); [history_same|].
  destruct (isDragging s).
  - destruct (truthyString (selectedElementId s)); [|history_same].
    destruct (hasDragStarted s); [|history_same].
    right. apply saveToHistory_cursorValid.
  - destruct (if isDrawing s then currentElement s else None) as [cur|];
      [|history_same].
    right. unfold finishDrawing.
    destruct (if hasType Teraser cur then points cur else None) as [ep|].
    + destruct (pixelErase (brushSize cur) ep (randomIds s) (idCalls s) (elements s))
        as [newElements n].
      apply (commit_cursorValid newElements s).
    + destruct (if hasType TstrokeEraser cur then points cur else None) as [ep|].
      * apply (commit_cursorValid (strokeErase (brushSize cur) ep (elements s)) s).
      * apply (commit_cursorValid (elements s ++ [cur]) s).
Qed.

Lemma handleEvent_HistoryUsable (dom : Dom) (ev : CanvasEvent) (s : State) :
  isClearEvent ev = false ->
  HistoryUsable s -> HistoryUsable (handleEvent dom ev s).
Proof.
  intros Hev H. destruct ev; simpl; try discriminate.
  - now apply handleMouseDown_HistoryUsable.
  - now apply handleMouseMove_HistoryUsable.
  - now apply handleMouseUp_HistoryUsable.
  - history_same.
  - destruct H as [[Hh Hs] | Hv].
    + left. unfold handleUndo. rewrite Hs. simpl. auto.
    + right. now apply handleUndo_cursorValid.
  - destruct H as [[Hh Hs] | Hv].
    + left. unfold handleRedo. rewrite Hs, Hh. simpl. auto.
    + right. now apply handleRedo_cursorValid.
  - history_same.
  - unfold handleDeleteSelected.
    destruct (truthyString (selectedElementId s)) as [selected|]; [|exact H].
    destruct (find (idIs selected) (elements s)) as [el|]; [|exact H].
    destruct (isImage el && match isGeneratedAi el with
                            | Some flag => flag
                            | None => false
                            end); [|exact H].
    right.
    apply (commit_cursorValid
             (filter (fun e => negb (idIs selected e)) (elements s)) s).
Qed.

(** X21: as long as the canvas is not cleared, every sequence of pointer,
    wheel, undo, redo, start-selection and delete events from the initial
    state leaves the cursor on a stored snapshot, or at [0] while no snapshot
    is stored: whole gestures, and not only the bare history operations, keep
    the cursor in range. *)
Theorem cursor_in_range_across_gestures
        (rnd : nat -> string) (dom : Dom) (evs : list CanvasEvent) :
  forallb (fun ev => negb (isClearEvent ev)) evs = true ->
  let s := runEvents dom evs (initialState rnd) in
  (history s = [] /\ historyStep s = 0)
  \/ 0 <= historyStep s < length (history s).
Proof.
  intros Hevs s.
  assert (Hgen : forall evs' st,
             forallb (fun ev => negb (isClearEvent ev)) evs' = true ->
             HistoryUsable st -> HistoryUsable (runEvents dom evs' st)).
  { induction evs' as [|ev evs' IH]; intros st Hc Hst; [exact Hst|].
    simpl in Hc. apply andb_true_iff in Hc as [Hev Hc].
    simpl. apply IH; [exact Hc|].
    apply handleEvent_HistoryUsable; [|exact Hst].
    now destruct (isClearEvent ev). }
  apply (Hgen evs (initialState rnd) Hevs). left. split; reflexivity.
Qed.

Lemma cursor_in_range_across_gestures_witness :
  forallb (fun ev => negb (isClearEvent ev))
          [EvMouseDown (mkProps Tbrush sampleSettings 1) pressOnRect;
           EvMouseMove (mkProps Tbrush sampleSettings 1) farMove;
           EvMouseUp; EvUndo; EvRedo] = true
  /\ ((history (runEvents sampleDom
                  [EvMouseDown (mkProps Tbrush sampleSettings 1) pressOnRect;
                   EvMouseMove (mkProps Tbrush sampleSettings 1) farMove;
                   EvMouseUp; EvUndo; EvRedo]
                  (initialState sampleIds)) = []
       /\ historyStep (runEvents sampleDom
                         [EvMouseDown (mkProps Tbrush sampleSettings 1) pressOnRect;
                          EvMouseMove (mkProps Tbrush sampleSettings 1) farMove;
                          EvMouseUp; EvUndo; EvRedo]
                         (initialState sampleIds)) = 0)
      \/ 0 <= historyStep (runEvents sampleDom
                             [EvMouseDown (mkProps Tbrush sampleSettings 1) pressOnRect;
                              EvMouseMove (mkProps Tbrush sampleSettings 1) farMove;
                              EvMouseUp; EvUndo; EvRedo]
                             (initialState sampleIds))
         < length (history (runEvents sampleDom
                              [EvMouseDown (mkProps Tbrush sampleSettings 1) pressOnRect;
                               EvMouseMove (mkProps Tbrush sampleSettings 1) farMove;
                               EvMouseUp; EvUndo; EvRedo]
                              (initialState sampleIds)))).
Proof.
  split; [reflexivity|].
  apply (cursor_in_range_across_gestures sampleIds sampleDom
           [EvMouseDown (mkProps Tbrush sampleSettings 1) pressOnRect;
            EvMouseMove (mkProps Tbrush sampleSettings 1) farMove;
            EvMouseUp; EvUndo; EvRedo]).
  reflexivity.
Defined.

(** ** Zoom by the wheel *)

(** The order of binary64 numbers, from the specification of the primitive
    comparisons: for numbers that are not NaN, [<] and [<=] are total. *)
Lemma SFcompare_not_lt (fx fy : SpecFloat.spec_float) :
  SpecFloat.SFeqb fx fx = true -> SpecFloat.SFeqb fy fy = true ->
  SpecFloat.SFltb fy fx = false -> SpecFloat.SFleb fx fy = true.
Proof.
  unfold SpecFloat.SFeqb, SpecFloat.SFltb, SpecFloat.SFleb.
  destruct fx as [sx|sx| |sx mx ex], fy as [sy|sy| |sy my ey]; simpl;
    try discriminate; try reflexivity;
    try (destruct sx; simpl; congruence);
    try (destruct sy; simpl; congruence);
    try (destruct sx, sy; simpl; congruence).
  intros _ _.
  rewrite (Z.compare_antisym ex ey).
  replace (Pos.compare_cont Eq my mx) with (CompOpp (Pos.compare_cont Eq mx my))
    by (rewrite Pos.compare_cont_antisym; reflexivity).
  destruct sx, sy, (ex ?= ey)%Z, (Pos.compare_cont Eq mx my); simpl; congruence.
Qed.

Lemma float_ltb_leb (a b : float) : (a <? b)%float = true -> (a <=? b)%float = true.
Proof.
  rewrite FloatAxioms.ltb_spec, FloatAxioms.leb_spec.
  unfold SpecFloat.SFltb, SpecFloat.SFleb.
  destruct (SpecFloat.SFcompare (FloatOps.Prim2SF a) (FloatOps.Prim2SF b)) as [[]|];
    congruence.
Qed.

Lemma float_not_ltb_leb (a b : float) :
  is_nan a = false -> is_nan b = false ->
  (b <? a)%float = false -> (a <=? b)%float = true.
Proof.
  unfold is_nan.
  rewrite !negb_false_iff, !FloatAxioms.eqb_spec, FloatAxioms.ltb_spec,
    FloatAxioms.leb_spec.
  apply SFcompare_not_lt.
Qed.

Lemma float_leb_refl (a : float) : is_nan a = false -> (a <=? a)%float = true.
Proof.
  unfold is_nan.
  rewrite negb_false_iff, FloatAxioms.eqb_spec, FloatAxioms.leb_spec.
  unfold SpecFloat.SFeqb, SpecFloat.SFleb.
  destruct (SpecFloat.SFcompare (FloatOps.Prim2SF a) (FloatOps.Prim2SF a)) as [[]|];
    congruence.
Qed.

(** [Math.min(Math.max(v, lo), hi)] lies between [lo] and [hi] when [v] is a
    number. *)
Lemma clamp_between (v lo hi : float) :
  is_nan v = false -> is_nan lo = false -> is_nan hi = false ->
  (lo <=? hi)%float = true ->
  (lo <=? Math_min (Math_max v lo) hi)%float = true
  /\ (Math_min (Math_max v lo) hi <=? hi)%float = true.
Proof.
  intros Hv Hlo Hhi Hle.
  assert (Hmax : is_nan (Math_max v lo) = false
                 /\ (lo <=? Math_max v lo)%float = true).
  { unfold Math_max. rewrite Hv, Hlo. simpl.
    destruct (v <? lo)%float eqn:H1.
    - split; [exact Hlo | now apply float_leb_refl].
    - destruct (lo <? v)%float eqn:H2.
      + split; [exact Hv | now apply float_ltb_leb].
      + destruct (get_sign v).
        * split; [exact Hlo | now apply float_leb_refl].
        * split; [exact Hv | now apply float_not_ltb_leb]. }
  destruct Hmax as [Hm Hlm].
  unfold Math_min. rewrite Hm, Hhi. simpl.
  destruct (Math_max v lo <? hi)%float eqn:H1.
  - split; [exact Hlm | now apply float_ltb_leb].
  - destruct (hi <? Math_max v lo)%float eqn:H2.
    + split; [exact Hle | now apply float_leb_refl].
    + destruct (get_sign (Math_max v lo)).
      * split; [exact Hlm | now apply float_not_ltb_leb].
      * split; [exact Hle | now apply float_leb_refl].
Qed.

(** X22: a wheel event that leaves the scale a number leaves it within
    [[0.1, 5]], whatever the scale was before, and touches nothing else of
    the drawing. *)
Theorem wheel_keeps_scale_in_range (deltaY : float) (s : State) :
  is_nan (scale s * wheelDelta deltaY)%float = false ->
  (0x1.999999999999ap-4 <=? scale (handleWheel deltaY s))%float = true
  /\ (scale (handleWheel deltaY s) <=? 5)%float = true
  /\ elements (handleWheel deltaY s) = elements s
  /\ history (handleWheel deltaY s) = history s
  /\ offset (handleWheel deltaY s) = offset s.
Proof.
  intros Hv.
  destruct (clamp_between (scale s * wheelDelta deltaY)%float
              0x1.999999999999ap-4%float 5%float Hv eq_refl eq_refl eq_refl)
    as [H1 H2].
  repeat split; assumption.
Qed.

Lemma wheel_keeps_scale_in_range_witness :
  is_nan (scale oneRectState * wheelDelta 1)%float = false
  /\ (0x1.999999999999ap-4 <=? scale (handleWheel 1 oneRectState))%float = true
  /\ (scale (handleWheel 1 oneRectState) <=? 5)%float = true.
Proof.
  split; [reflexivity|].
  destruct (wheel_keeps_scale_in_range 1 oneRectState eq_refl) as (H1 & H2 & _).
  split; [exact H1 | exact H2].
Defined.

(** Forty notches in, and forty out, from scale [1] stop at the two bounds. *)
Example wheel_saturates :
  scale (Nat.iter 40 (handleWheel (-1)) oneRectState) = 5%float
  /\ scale (Nat.iter 40 (handleWheel 1) oneRectState) = 0x1.999999999999ap-4%float.
Proof. split; vm_compute; reflexivity. Qed.

(** ** Export, deletion and image import *)

(** X23: [handleExport] starts at most one download, and none for a format
    other than PNG or without a mounted canvas; when a generated image with
    the selected identifier is in the list, the PNG export downloads that
    image's own data as [generated-image.png], whatever the selection
    rectangle and the canvas hold. *)
Theorem export_downloads (dom : Dom) (enc : Encoders) (format : ExportFormat)
                         (s : State) :
  length (handleExport dom enc format s) <= 1
  /\ (format = FormatSvg \/ canvasRef dom = None ->
      handleExport dom enc format s = [])
  /\ (forall canvas el,
        format = FormatPng -> canvasRef dom = Some canvas ->
        In el (elements s) ->
        isSelectedGeneratedImage (selectedElementId s) el = true ->
        exists chosen data,
          handleExport dom enc format s = [mkDownload "generated-image.png" data]
          /\ In chosen (elements s)
          /\ imageData chosen = Some data
          /\ isSelectedGeneratedImage (selectedElementId s) chosen = true).
Proof.
  split; [|split].
  - unfold handleExport.
    destruct (canvasRef dom) as [canvas|]; [|simpl; lia].
    destruct format; [|simpl; lia].
    destruct (find (isSelectedGeneratedImage (selectedElementId s)) (elements s));
      [simpl; lia|].
    destruct (selectionRect s) as [[rstart rend]|]; [|simpl; lia].
    destruct (negb (hasContext2d canvas)); [simpl; lia|].
    match goal with
    | |- context [tempContext dom ?w ?h] => destruct (tempContext dom w h)
    end; simpl; lia.
  - unfold handleExport. intros [-> | ->]; [|reflexivity].
    destruct (canvasRef dom); reflexivity.
  - intros canvas el -> Hc Hin Hsel. unfold handleExport. rewrite Hc.
    destruct (find (isSelectedGeneratedImage (selectedElementId s)) (elements s))
      as [chosen|] eqn:Hfind.
    + apply find_some in Hfind as [Hin' Hsel'].
      assert (Hdata : exists data, imageData chosen = Some data).
      { unfold isSelectedGeneratedImage in Hsel'.
        destruct (imageData chosen) as [data|]; [now exists data|].
        rewrite andb_false_r in Hsel'. discriminate. }
      destruct Hdata as [data Hdata].
      exists chosen, data. rewrite Hdata. auto.
    + apply (find_none _ _ Hfind) in Hin. congruence.
Qed.

(** X24: the full export answers exactly once and never with [null]: with
    the empty string when no canvas is mounted, with the JPEG of the white
    flattened copy when the temporary canvas gives a context, with the JPEG
    of the canvas itself otherwise. *)
Theorem full_export_answers_once (dom : Dom) (enc : Encoders) :
  length (handleGetFull dom enc) = 1
  /\ (canvasRef dom = None -> handleGetFull dom enc = [EmptyString])
  /\ (forall canvas,
        canvasRef dom = Some canvas ->
        handleGetFull dom enc
        = [if tempContext dom (canvasWidth enc) (canvasHeight enc)
           then flatJpeg enc else canvasJpeg enc]).
Proof.
  unfold handleGetFull.
  destruct (canvasRef dom) as [canvas|].
  - destruct (tempContext dom (canvasWidth enc) (canvasHeight enc));
      (split; [reflexivity | split; [discriminate | reflexivity]]).
  - split; [reflexivity | split; [reflexivity | discriminate]].
Qed.

Lemma handleUndo_setSelectedElementId (v : option string) (s : State) :
  elements (handleUndo (setSelectedElementId v s)) = elements (handleUndo s).
Proof.
  unfold handleUndo.
  change (historyStep (setSelectedElementId v s)) with (historyStep s).
  change (history (setSelectedElementId v s)) with (history s).
  destruct (0 <? historyStep s); reflexivity.
Qed.

(** X25: the delete button removes generated images only.  When the first
    element with the selected identifier is a generated image, every element
    with that identifier goes, the others stay in order, the selection is
    cleared and the new list is committed, so that one undo brings the image
    back; when it is anything else, nothing changes. *)
Theorem delete_only_generated_images
        (s : State) (selected : string) (el : DrawingElement) :
  truthyString (selectedElementId s) = Some selected ->
  find (idIs selected) (elements s) = Some el ->
  (isImage el = true /\ isGeneratedAi el = Some true ->
   elements (handleDeleteSelected s)
   = filter (fun e => negb (idIs selected e)) (elements s)
   /\ Forall (fun e => idIs selected e = false) (elements (handleDeleteSelected s))
   /\ selectedElementId (handleDeleteSelected s) = None
   /\ history (handleDeleteSelected s)
      = firstn (historyStep s + 1) (history s)
        ++ [filter (fun e => negb (idIs selected e)) (elements s)]
   /\ (Live s -> elements (handleUndo (handleDeleteSelected s)) = elements s))
  /\ (isImage el = false \/ isGeneratedAi el <> Some true ->
      handleDeleteSelected s = s).
Proof.
  intros Hsel Hfind. split.
  - intros [Himg Hai]. unfold handleDeleteSelected.
    rewrite Hsel, Hfind, Himg, Hai. simpl.
    split; [reflexivity|]. split; [|split; [reflexivity|split; [reflexivity|]]].
    + apply Forall_forall. intros e Hin. apply filter_In in Hin as [_ Hc].
      now apply negb_true_iff.
    + intros HL.
      destruct (commit_discards_redo_tail_core
                  (filter (fun e => negb (idIs selected e)) (elements s)) s HL)
        as [He _].
      now rewrite handleUndo_setSelectedElementId.
  - intros Hno. unfold handleDeleteSelected. rewrite Hsel, Hfind.
    destruct Hno as [-> | Hno]; [reflexivity|].
    destruct (isGeneratedAi el) as [[|]|]; try congruence;
      now rewrite andb_false_r.
Qed.

Lemma delete_only_generated_images_witness :
  truthyString (selectedElementId generatedSelectedState) = Some "g"
  /\ find (idIs "g") (elements generatedSelectedState) = Some generatedE
  /\ (isImage generatedE = true /\ isGeneratedAi generatedE = Some true)
  /\ elements (handleDeleteSelected generatedSelectedState) = [rectB]
  /\ (Live generatedSelectedState ->
      elements (handleUndo (handleDeleteSelected generatedSelectedState))
      = elements generatedSelectedState).
Proof.
  split; [reflexivity|]. split; [reflexivity|]. split; [split; reflexivity|].
  destruct (delete_only_generated_images generatedSelectedState "g" generatedE
              eq_refl eq_refl) as [Hyes _].
  destruct (Hyes (conj eq_refl eq_refl)) as (He & _ & _ & _ & Hundo).
  split; [exact He | exact Hundo].
Defined.

(** With a rectangle selected instead, the delete button does nothing. *)
Example delete_ignores_shapes :
  handleDeleteSelected (setSelectedElementId (Some "b") generatedSelectedState)
  = setSelectedElementId (Some "b") generatedSelectedState.
Proof. reflexivity. Qed.

Lemma handleUndo_setIdCalls (v : nat) (s : State) :
  elements (handleUndo (setIdCalls v s)) = elements (handleUndo s).
Proof.
  unfold handleUndo.
  change (historyStep (setIdCalls v s)) with (historyStep s).
  change (history (setIdCalls v s)) with (history s).
  destruct (0 <? historyStep s); reflexivity.
Qed.

(** X26: when nothing happened between the request and the load, an imported
    image is committed as the topmost element, at [(50, 50)], not marked as
    generated, and at its natural size if neither side exceeds 400; the live
    list is the last snapshot, and one undo removes the image again. *)
Theorem import_image_commits (dataUrl : string) (w h : float) (s : State) :
  let img := importedImage dataUrl w h (generateId s) in
  let s' := importImageLoaded s dataUrl w h s in
  elements s' = elements s ++ [img]
  /\ startPoint img = Some (mkPoint 50 50)
  /\ isGeneratedAi img = None
  /\ imageData img = Some dataUrl
  /\ (((400 <? w) || (400 <? h))%float = false ->
      width img = Some w /\ height img = Some h)
  /\ Live s'
  /\ (Live s -> elements (handleUndo s') = elements s).
Proof.
  intros img s'.
  assert (Hs' : s' = setIdCalls (S (idCalls s)) (commit (elements s ++ [img]) s))
    by reflexivity.
  assert (Hfields : startPoint img = Some (mkPoint 50 50)
                    /\ isGeneratedAi img = None
                    /\ imageData img = Some dataUrl).
  { unfold img, importedImage. destruct (fitWithin 400 400 w h). auto. }
  destruct Hfields as (H1 & H2 & H3).
  split; [reflexivity|]. split; [exact H1|]. split; [exact H2|].
  split; [exact H3|]. split; [|split].
  - intros Hsmall. unfold img, importedImage, fitWithin. rewrite Hsmall. auto.
  - rewrite Hs'. exact (commit_Live (elements s ++ [img]) s).
  - intros HL. rewrite Hs', handleUndo_setIdCalls.
    exact (proj1 (commit_discards_redo_tail_core (elements s ++ [img]) s HL)).
Qed.

(** A stroke drawn while the image loads is lost. *)
Example import_drops_interleaved_stroke :
  let requested := oneRectState in
  let drawn :=
    runEvents sampleDom
      [EvMouseDown (mkProps Tbrush sampleSettings 1) pressOnRect;
       EvMouseMove (mkProps Tbrush sampleSettings 1) farMove;
       EvMouseUp]
      requested in
  length (elements drawn) = 2
  /\ map type (elements (importImageLoaded requested "data:," 10 10 drawn))
     = [OfTool Trectangle; Image]
  /\ length (history (importImageLoaded requested "data:," 10 10 drawn)) = 2.
Proof. vm_compute. repeat split. Qed.

(** ** Text editing *)

(** X28: a press of the select tool on a text element loads its text, its
    format (the default one if it has none) and its anchor into the panel and
    opens it, without changing an element; a move under the drag threshold
    keeps the panel open, and the move that reaches the threshold closes it
    as the drag starts. *)
Theorem select_text_loads_panel
        (props : DrawingCanvasProps) (dom : Dom) (e : MouseEvent) (s : State)
        (el : DrawingElement) (txt selected : string) :
  idle s -> plainPress e s -> currentTool props = Tselect ->
  findElementAtPoint (elements s) (getMousePos dom s e) = Some el ->
  hasType Ttext el = true ->
  text el = Some txt -> txt <> EmptyString ->
  truthyString (id el) = Some selected ->
  let s1 := handleMouseDown props dom e s in
  showTextPanel s1 = true
  /\ textInput s1 = txt
  /\ panelTextFormat s1
     = match textFormat el with Some fmt => fmt | None => defaultTextFormat end
  /\ textPosition s1
     = Some match startPoint el with
            | Some sp => sp
            | None => getMousePos dom s e
            end
  /\ selectedElementId s1 = Some selected
  /\ elements s1 = elements s
  /\ history s1 = history s
  /\ forall m,
       (underDragThreshold (getMousePos dom s m) (getMousePos dom s e) = true ->
        showTextPanel (handleMouseMove props dom m s1) = true)
       /\ (underDragThreshold (getMousePos dom s m) (getMousePos dom s e) = false ->
           showTextPanel (handleMouseMove props dom m s1) = false
           /\ hasDragStarted (handleMouseMove props dom m s1) = true).
Proof.
  intros (Hpan & Hsel & Hdrag & Hdraw) [Hb Hm] Htool Hhit Htype Htext Hne Hid s1.
  assert (Hcond : (hasType Ttext el && negb (txt =? ""))%string = true).
  { rewrite Htype. simpl. apply negb_true_iff. now apply String.eqb_neq. }
  assert (Hs1 : s1
                = setShowTextPanel true
                    (setTextPosition
                       (Some match startPoint el with
                             | Some sp => sp
                             | None => getMousePos dom s e
                             end)
                       (setTextFormat
                          match textFormat el with
                          | Some fmt => fmt
                          | None => defaultTextFormat
                          end
                          (setTextInput txt
                             (setHasDragStarted false
                                (setIsDragging true
                                   (setDragStart (Some (getMousePos dom s e))
                                      (setSelectedElementId (truthyString (id el))
                                         s)))))))).
  { unfold s1, handleMouseDown. rewrite Hb, Hm, Htool. simpl.
    rewrite Hhit, Htext, Hcond. reflexivity. }
  assert (Hsame : forall m, getMousePos dom s1 m = getMousePos dom s m)
    by (intros m; rewrite Hs1; reflexivity).
  assert (Hmove : forall m,
             handleMouseMove props dom m s1
             = if underDragThreshold (getMousePos dom s m) (getMousePos dom s e)
               then s1
               else
                 setDragStart (Some (getMousePos dom s m))
                   (setElements
                      (draggedBy selected
                         (x (getMousePos dom s m) - x (getMousePos dom s e))%float
                         (y (getMousePos dom s m) - y (getMousePos dom s e))%float
                         (elements s))
                      (setShowTextPanel false (setHasDragStarted true s1)))).
  { intros m. unfold handleMouseMove. rewrite (Hsame m).
    replace (isPanning s1) with false by (rewrite Hs1; symmetry; exact Hpan).
    replace (isSelecting s1) with false by (rewrite Hs1; symmetry; exact Hsel).
    replace (isDragging s1) with true by (rewrite Hs1; reflexivity).
    replace (truthyString (selectedElementId s1)) with (Some selected)
      by (rewrite Hs1; simpl; now rewrite truthyString_idem).
    replace (dragStart s1) with (Some (getMousePos dom s e))
      by (rewrite Hs1; reflexivity).
    replace (hasDragStarted s1) with false by (rewrite Hs1; reflexivity).
    replace (showTextPanel s1) with true by (rewrite Hs1; reflexivity).
    replace (elements s1) with (elements s) by (rewrite Hs1; reflexivity).
    simpl.
    destruct (underDragThreshold (getMousePos dom s m) (getMousePos dom s e));
      reflexivity. }
  rewrite Hs1 at 1 2 3 4 5 6 7. simpl.
  split; [reflexivity|]. split; [reflexivity|]. split; [reflexivity|].
  split; [reflexivity|]. split; [now rewrite Hid|]. split; [reflexivity|].
  split; [reflexivity|].
  intros m. rewrite (Hmove m). split; intros Hu; rewrite Hu.
  - rewrite Hs1. reflexivity.
  - split; reflexivity.
Qed.

Lemma select_text_loads_panel_witness :
  idle textState /\ plainPress pressOnText textState
  /\ currentTool selectProps = Tselect
  /\ findElementAtPoint (elements textState)
                        (getMousePos sampleDom textState pressOnText) = Some textC
  /\ hasType Ttext textC = true
  /\ text textC = Some "note" /\ "note" <> EmptyString
  /\ truthyString (id textC) = Some "c"
  /\ showTextPanel (handleMouseDown selectProps sampleDom pressOnText textState) = true
  /\ textInput (handleMouseDown selectProps sampleDom pressOnText textState) = "note".
Proof.
  split; [repeat split|]. split; [split; reflexivity|]. split; [reflexivity|].
  split; [reflexivity|]. split; [reflexivity|]. split; [reflexivity|].
  split; [discriminate|]. split; [reflexivity|].
  destruct (select_text_loads_panel selectProps sampleDom pressOnText textState
              textC "note" "c") as (H1 & H2 & _); try reflexivity.
  - repeat split.
  - split; reflexivity.
  - discriminate.
  - split; [exact H1 | exact H2].
Defined.

Lemma idIs_true (selected : string) (el : DrawingElement) :
  idIs selected el = true -> id el = Some selected.
Proof.
  unfold idIs. destruct (id el) as [i|]; [|discriminate].
  intros H. apply String.eqb_eq in H. now subst.
Qed.

(** X29: confirming the text panel.  With blank text (only white space), no
    text position, no canvas or no 2D context nothing happens.  Otherwise the
    panel closes, its input, selection and format are reset, and one list is
    committed: with an element selected, every element with the selected
    identifier is replaced by the new text element, which takes that
    identifier, so that the list keeps its length, order and identifiers and
    no identifier is generated; with none selected, the new text element is
    appended with a generated identifier. *)
Theorem text_confirm_commits
        (props : DrawingCanvasProps) (dom : Dom)
        (measure : TextFormat -> string -> float) (s : State) :
  (isBlank (textInput s) = true \/ textPosition s = None \/ canvasRef dom = None
   \/ (exists canvas, canvasRef dom = Some canvas /\ hasContext2d canvas = false) ->
   handleTextConfirm props dom measure s = s)
  /\ (forall position canvas,
        isBlank (textInput s) = false -> textPosition s = Some position ->
        canvasRef dom = Some canvas -> hasContext2d canvas = true ->
        let s' := handleTextConfirm props dom measure s in
        let textWidth := measure (panelTextFormat s) (textInput s) in
        showTextPanel s' = false /\ textInput s' = EmptyString
        /\ selectedElementId s' = None /\ panelTextFormat s' = defaultTextFormat
        /\ history s' = firstn (historyStep s + 1) (history s) ++ [elements s']
        /\ (forall selected,
              truthyString (selectedElementId s) = Some selected ->
              elements s'
              = map (fun el => if idIs selected el
                               then confirmedText props s position textWidth selected
                               else el)
                    (elements s)
              /\ map id (elements s') = map id (elements s)
              /\ idCalls s' = idCalls s)
        /\ (truthyString (selectedElementId s) = None ->
            elements s'
            = elements s
              ++ [confirmedText props s position textWidth (generateId s)]
            /\ idCalls s' = S (idCalls s))).
Proof.
  split.
  - unfold handleTextConfirm.
    intros [Hb | [Hp | [Hc | (canvas & Hc & Hctx)]]].
    + now rewrite Hb.
    + rewrite Hp. now destruct (isBlank (textInput s)).
    + rewrite Hc. destruct (isBlank (textInput s)); [reflexivity|].
      now destruct (textPosition s).
    + rewrite Hc, Hctx. destruct (isBlank (textInput s)); [reflexivity|].
      now destruct (textPosition s).
  - intros position canvas Hb Hp Hc Hctx s' textWidth.
    unfold s', handleTextConfirm. rewrite Hb, Hp, Hc, Hctx. simpl.
    destruct (truthyString (selectedElementId s)) as [selected|] eqn:Hsel.
    + split; [reflexivity|]. split; [reflexivity|]. split; [reflexivity|].
      split; [reflexivity|]. split; [reflexivity|]. split; [|discriminate].
      intros sel' [= <-]. split; [reflexivity|]. split; [|reflexivity].
      simpl. rewrite map_map. apply map_ext. intros el.
      destruct (idIs selected el) eqn:Hid; [|reflexivity].
      simpl. symmetry. now apply idIs_true.
    + split; [reflexivity|]. split; [reflexivity|]. split; [reflexivity|].
      split; [reflexivity|]. split; [reflexivity|]. split; [discriminate|].
      intros _. split; reflexivity.
Qed.

(** Confirming the panel opened on the sample text element, with the text
    changed, keeps two elements and gives the new text the old identifier;
    the text tool on an empty selection appends. *)
Example text_confirm_samples :
  let editing :=
    setTextInput "memo"
      (handleMouseDown selectProps sampleDom pressOnText textState) in
  let edited :=
    handleTextConfirm selectProps sampleDom (fun _ _ => 50%float) editing in
  map id (elements edited) = [Some "b"; Some "c"]
  /\ map text (elements edited) = [None; Some "memo"]
  /\ showTextPanel edited = false
  /\ handleTextConfirm selectProps sampleDom (fun _ _ => 50%float)
       (setTextInput "  " editing) = setTextInput "  " editing.
Proof. vm_compute. repeat split. Qed.

(** Cancelling the panel changes no element and no snapshot. *)
Example text_cancel_sample :
  elements (handleTextCancel textState) = elements textState
  /\ history (handleTextCancel textState) = history textState.
Proof. split; reflexivity. Qed.
